(** * chrome-browser: grid addressing, zone scanning, element matching,
      model-response handling and the worker bridge

    A shallow embedding of the TypeScript/JavaScript sources
    ([chrome-client.ts], [cdp-bridge.mjs], [auth.ts] and [command.ts])
    together with the properties proved about them.

    Conventions of the embedding.
    - JavaScript numbers that the code uses as integers (cell indices, pixel
      sizes, scores, exit codes, attempt counters) are [Z].  The embedding
      coincides with IEEE-754 double arithmetic while every intermediate value
      stays within the safe-integer range (magnitude below 2^53).
    - JavaScript numbers that may be fractional (device pixel ratio, element
      rectangles, coverage ratios) are exact rationals [Q].
    - Strings are [string]: the ASCII fragment of JavaScript strings.
      [toUpperCase], [toLowerCase] and [trim] are ECMAScript's functions on
      that fragment.
    - A function that may throw returns [result]; the payload of [Throw] is
      the message of the thrown [Error].
    - Calls into the browser, the model API and the child process are
      explicit inputs (observation records, outcome scripts, event lists).

    The first part holds the embedding, one module per component of the
    sources ([Grid], [Compositor], [Scanner], [Matcher], [Json], [Labeling],
    [Bridge], then [Worker], [Auth], [Daemon], [Finder], [Normalize],
    [Overview] and [Command]), each followed by the reference notions and
    sample inputs its properties are stated with; the second part holds the
    properties. *)

From Stdlib Require Import ZArith QArith Qminmax String Ascii List Bool Lia.
From Stdlib Require Import DecimalString DecimalZ DecimalN DecimalPos DecimalFacts.
From Stdlib Require Import Permutation Sorting Lqa.
Import ListNotations.

Local Open Scope string_scope.
Local Open Scope Z_scope.

(** ** Results of functions that may throw *)

Inductive result (A : Type) : Type :=
| Ok (value : A)
| Throw (message : string).
Arguments Ok {A} value.
Arguments Throw {A} message.

Definition bind {A B : Type} (r : result A) (k : A -> result B) : result B :=
  match r with
  | Ok a => k a
  | Throw m => Throw m
  end.

Notation "'let*' x ':=' r 'in' k" := (bind r (fun x => k))
  (at level 10, x pattern, r at level 100, k at level 200).

(** ** JavaScript string primitives on the ASCII fragment *)

Module JsString.

Definition charCode (c : ascii) : Z := Z.of_N (N_of_ascii c).

(** [String.fromCharCode] for codes of the modelled fragment. *)
Definition fromCharCode (n : Z) : ascii := ascii_of_N (Z.to_N n).

Definition between (lo hi : Z) (c : ascii) : bool :=
  (lo <=? charCode c) && (charCode c <=? hi).

Definition isUpper : ascii -> bool := between 65 90.   (* [A-Z] *)
Definition isLower : ascii -> bool := between 97 122.  (* [a-z] *)
Definition isDigit : ascii -> bool := between 48 57.   (* \d *)

(** White space and line terminators: TAB, LF, VT, FF, CR, SP. *)
Definition isWhiteSpace (c : ascii) : bool :=
  between 9 13 c || (charCode c =? 32).

Definition upperChar (c : ascii) : ascii :=
  if isLower c then fromCharCode (charCode c - 32) else c.

Definition lowerChar (c : ascii) : ascii :=
  if isUpper c then fromCharCode (charCode c + 32) else c.

Fixpoint map (f : ascii -> ascii) (s : string) : string :=
  match s with
  | EmptyString => EmptyString
  | String c s' => String (f c) (map f s')
  end.

Definition toUpperCase : string -> string := map upperChar.
Definition toLowerCase : string -> string := map lowerChar.

Fixpoint all (p : ascii -> bool) (s : string) : bool :=
  match s with
  | EmptyString => true
  | String c s' => p c && all p s'
  end.

Fixpoint takeWhile (p : ascii -> bool) (s : string) : string :=
  match s with
  | EmptyString => EmptyString
  | String c s' => if p c then String c (takeWhile p s') else EmptyString
  end.

Fixpoint dropWhile (p : ascii -> bool) (s : string) : string :=
  match s with
  | EmptyString => EmptyString
  | String c s' => if p c then dropWhile p s' else s
  end.

Definition isEmpty (s : string) : bool :=
  match s with EmptyString => true | _ => false end.

Definition trimStart : string -> string := dropWhile isWhiteSpace.

Fixpoint trimEnd (s : string) : string :=
  match s with
  | EmptyString => EmptyString
  | String c s' =>
      match trimEnd s' with
      | EmptyString => if isWhiteSpace c then EmptyString else String c EmptyString
      | t => String c t
      end
  end.

Definition trim (s : string) : string := trimEnd (trimStart s).

Fixpoint startsWith (p s : string) : bool :=
  match p, s with
  | EmptyString, _ => true
  | String a p', String b s' => Ascii.eqb a b && startsWith p' s'
  | String _ _, EmptyString => false
  end.

(** [s.includes(p)] *)
Fixpoint includes (s p : string) : bool :=
  startsWith p s ||
  match s with
  | EmptyString => false
  | String _ s' => includes s' p
  end.

(** [parts.join(sep)] *)
Definition join (sep : string) (parts : list string) : string :=
  String.concat sep parts.

(** Decimal rendering of an integer-valued number, as template literals and
    [String(n)] produce it. *)
Definition ofNumber (n : Z) : string := NilZero.string_of_int (Z.to_int n).

(** [Number.parseInt(s, 10)] on a string of decimal digits. *)
Fixpoint parseDigits (acc : Z) (s : string) : Z :=
  match s with
  | EmptyString => acc
  | String c s' => parseDigits (acc * 10 + (charCode c - 48)) s'
  end.

Definition parseInt (s : string) : Z := parseDigits 0 s.

(** [x || undefined] for a string. *)
Definition orUndefined (s : string) : option string :=
  if isEmpty s then None else Some s.

(** [x || y] for strings. *)
Definition orElse (s t : string) : string := if isEmpty s then t else s.

End JsString.

(** ** JavaScript numbers that may be fractional *)

Module JsNumber.

(** [Number(x) || fallback]; [None] is a value that [Number] turns into
    NaN. *)
Definition numberOr (fallback : Q) (x : option Q) : Q :=
  match x with
  | Some q => if Qeq_bool q 0 then fallback else q
  | None => fallback
  end.

(** [a < b] *)
Definition Qltb (a b : Q) : bool := negb (Qle_bool b a).

(** [Math.ceil(a / b)] for integers [a] and positive [b]. *)
Definition ceilDiv (a b : Z) : Z := - ((- a) / b).

End JsNumber.

(** ** CoordinateGrid: [colLabel] and [parseCell] (cdp-bridge.mjs) *)

Module Grid.
Import JsString.

Definition CELL_SIZE : Z := 100.
Definition LABEL_MARGIN : Z := 50.

Record Cell : Type := mkCell { col : Z; row : Z }.

(** The [while (i >= 0)] loop of [colLabel]; [None] when the fuel is used up
    before the loop condition fails. *)
Fixpoint colLabel_loop (fuel : nat) (i : Z) (label : string) : option string :=
  if i <? 0 then Some label
  else
    match fuel with
    | O => None
    | S fuel' =>
        colLabel_loop fuel' (i / 26 - 1)
          (String (fromCharCode (65 + i mod 26)) label)
    end.

Definition colLabel (index : Z) : string :=
  match colLabel_loop (S (Z.to_nat index)) index "" with
  | Some label => label
  | None => ""
  end.

(** The regular expression [/^([A-Z]+)(\d+)$/]: both groups are greedy and
    the two classes are disjoint, so the first group is the longest prefix
    of capital letters and the second is everything after it. *)
Definition cellPattern (s : string) : option (string * string) :=
  let letters := takeWhile isUpper s in
  let digits := dropWhile isUpper s in
  if negb (isEmpty letters) && negb (isEmpty digits) && all isDigit digits
  then Some (letters, digits)
  else None.

(** The [for] loop accumulating the one-based column number. *)
Fixpoint colNumber (acc : Z) (colLabelText : string) : Z :=
  match colLabelText with
  | EmptyString => acc
  | String c rest => colNumber (acc * 26 + (charCode c - 64)) rest
  end.

Definition parseCell (input : string) : result Cell :=
  let trimmed := toUpperCase (trim input) in
  match cellPattern trimmed with
  | None => Throw ("Invalid grid coordinate: " ++ input)
  | Some (colLabelText, rowText) =>
      let col := colNumber 0 colLabelText in
      let row := parseInt rowText in
      if row <=? 0 then Throw ("Invalid row index in coordinate: " ++ input)
      else Ok (mkCell (col - 1) (row - 1))
  end.

(** [coordinateToLabel]: the label text the compositor writes for a cell,
    [`${colLabel(col)}${row + 1}`]. *)
Definition cellLabel (c : Cell) : string :=
  colLabel (col c) ++ ofNumber (row c + 1).

(** Labels matching [[A-Z]+[1-9][0-9]*]. *)
Definition isPositiveDigit : ascii -> bool := between 49 57.


End Grid.

(** ** GridCompositor: [buildGridOverlaySvg] and [runGridScreenshot]
       (cdp-bridge.mjs) *)

Module Compositor.
Import JsString JsNumber Grid.

(** The elements appended to the SVG text, in order, with the attributes
    that vary. *)
Inductive SvgNode : Type :=
| SvgRect (x y width height : Z) (rx : Z) (fill : string)
| SvgText (x y : Z) (anchor fill content : string)
| SvgLine (x1 y1 x2 y2 : Z).

Record Svg : Type := mkSvg {
  svgWidth : Z;
  svgHeight : Z;
  svgNodes : list SvgNode
}.

(** The values taken by a loop variable [for (let v = 0; v < n; v += 1)]. *)
Definition range (n : Z) : list Z := List.map Z.of_nat (seq 0 (Z.to_nat n)).

Definition columnHeader (colOffset c : Z) : SvgNode :=
  let x := LABEL_MARGIN + c * CELL_SIZE + CELL_SIZE / 2 in
  SvgText x 35 "middle" "#cc0000" (colLabel (colOffset + c)).

Definition rowHeader (rowOffset r : Z) : SvgNode :=
  let y := LABEL_MARGIN + r * CELL_SIZE + CELL_SIZE / 2 + 4 in
  SvgText 25 y "middle" "#cc0000" (ofNumber (rowOffset + r + 1)).

Definition verticalLine (totalW totalH x : Z) : SvgNode :=
  let px := Z.min totalW (LABEL_MARGIN + x * CELL_SIZE) in
  SvgLine px LABEL_MARGIN px totalH.

Definition horizontalLine (totalW totalH y : Z) : SvgNode :=
  let py := Z.min totalH (LABEL_MARGIN + y * CELL_SIZE) in
  SvgLine LABEL_MARGIN py totalW py.

(** The badge of one cell: a dark box and the cell's label in white. *)
Definition cellBadge (colOffset rowOffset r c : Z) : list SvgNode :=
  let label := colLabel (colOffset + c) ++ ofNumber (rowOffset + r + 1) in
  let boxWidth :=
    Z.min (CELL_SIZE - 4) (Z.max 22 (8 + Z.of_nat (String.length label) * 8)) in
  let boxHeight := 16 in
  let boxX := LABEL_MARGIN + c * CELL_SIZE + 2 in
  let boxY := LABEL_MARGIN + r * CELL_SIZE + 2 in
  let textX := boxX + 3 in
  let textY := boxY + 12 in
  [ SvgRect boxX boxY boxWidth boxHeight 2 "rgba(0,0,0,0.7)";
    SvgText textX textY "start" "#ffffff" label ].

Definition buildGridOverlaySvg
  (contentWidth contentHeight cols rows colOffset rowOffset : Z) : Svg :=
  let totalW := LABEL_MARGIN + contentWidth in
  let totalH := LABEL_MARGIN + contentHeight in
  mkSvg totalW totalH
    ([ SvgRect 0 0 LABEL_MARGIN totalH 0 "white";
       SvgRect 0 0 totalW LABEL_MARGIN 0 "white" ]
     ++ List.map (columnHeader colOffset) (range cols)
     ++ List.map (rowHeader rowOffset) (range rows)
     ++ List.map (verticalLine totalW totalH) (range (cols + 1))
     ++ List.map (horizontalLine totalW totalH) (range (rows + 1))
     ++ flat_map
          (fun r => flat_map (cellBadge colOffset rowOffset r) (range cols))
          (range rows))%list.

(** The texts of the per-cell badges of an overlay, in drawing order. *)
Definition badgeLabels (svg : Svg) : list string :=
  flat_map
    (fun node =>
       match node with
       | SvgText _ _ _ fill content =>
           if String.eqb fill "#ffffff" then [content] else []
       | _ => []
       end)
    (svgNodes svg).

(** The header texts (column letters, then row numbers). *)
Definition headerLabels (svg : Svg) : list string :=
  flat_map
    (fun node =>
       match node with
       | SvgText _ _ _ fill content =>
           if String.eqb fill "#cc0000" then [content] else []
       | _ => []
       end)
    (svgNodes svg).

(** A captured frame: the PNG returned by [page.screenshot] as [sharp]'s
    metadata sees it ([metadata.width || 0], [metadata.height || 0]). *)
Record Frame : Type := mkFrame { frameWidth : Z; frameHeight : Z }.

(** A pixel rectangle of the captured frame. *)
Record Region : Type := mkRegion {
  regionLeft : Z; regionTop : Z; regionWidth : Z; regionHeight : Z
}.

(** The image produced by [sharp({create}).composite([content, overlay])]:
    a white canvas, the frame pixels of [content] pasted at
    [(contentLeft, contentTop)], and the overlay on top at the origin. *)
Record Composite : Type := mkComposite {
  canvasWidth : Z;
  canvasHeight : Z;
  content : Region;
  contentLeft : Z;
  contentTop : Z;
  overlay : Svg
}.

(** [sharp(buffer).extract(area)] rejects an area reaching outside the
    image. *)
Definition extract (frame : Frame) (area : Region) : result Region :=
  if (0 <=? regionLeft area) && (0 <=? regionTop area)
     && (0 <? regionWidth area) && (0 <? regionHeight area)
     && (regionLeft area + regionWidth area <=? frameWidth frame)
     && (regionTop area + regionHeight area <=? frameHeight frame)
  then Ok area
  else Throw "extract_area: bad extract area".

(** Truthiness of an optional string argument. *)
Definition truthy (s : option string) : bool :=
  match s with
  | Some s => negb (isEmpty s)
  | None => false
  end.

Definition text (s : option string) : string :=
  match s with Some s => s | None => "" end.

(** [runGridScreenshot] from the captured frame on.  Its [fullPage]
    argument only selects what [page.screenshot] captures, and the capture
    is made at device scale, so the frame's pixel size is all that enters. *)
Definition runGridScreenshot
  (frame : Frame) (start end_ : option string) : result Composite :=
  let width := frameWidth frame in
  let height := frameHeight frame in
  if (width =? 0) || (height =? 0)
  then Throw "Failed to determine screenshot dimensions."
  else
    let cols := ceilDiv width CELL_SIZE in
    let rows := ceilDiv height CELL_SIZE in
    let totalW := width + LABEL_MARGIN in
    let totalH := height + LABEL_MARGIN in
    let svg := buildGridOverlaySvg width height cols rows 0 0 in
    if truthy start && truthy end_ then
      let* from := parseCell (text start) in
      let* to := parseCell (text end_) in
      let minCol := Z.min (col from) (col to) in
      let maxCol := Z.max (col from) (col to) in
      let minRow := Z.min (row from) (row to) in
      let maxRow := Z.max (row from) (row to) in
      let contentLeft := Z.max 0 (minCol * CELL_SIZE) in
      let contentTop := Z.max 0 (minRow * CELL_SIZE) in
      let contentRight := Z.min width ((maxCol + 1) * CELL_SIZE) in
      let contentBottom := Z.min height ((maxRow + 1) * CELL_SIZE) in
      let cropWidth := Z.max 1 (contentRight - contentLeft) in
      let cropHeight := Z.max 1 (contentBottom - contentTop) in
      let* croppedContent :=
        extract frame (mkRegion contentLeft contentTop cropWidth cropHeight) in
      let cropTotalW := cropWidth + LABEL_MARGIN in
      let cropTotalH := cropHeight + LABEL_MARGIN in
      let cropCols := ceilDiv cropWidth CELL_SIZE in
      let cropRows := ceilDiv cropHeight CELL_SIZE in
      let cropSvg :=
        buildGridOverlaySvg cropWidth cropHeight cropCols cropRows minCol minRow in
      Ok (mkComposite cropTotalW cropTotalH croppedContent
            LABEL_MARGIN LABEL_MARGIN cropSvg)
    else
      Ok (mkComposite totalW totalH (mkRegion 0 0 width height)
            LABEL_MARGIN LABEL_MARGIN svg).

(** *** What the worker and the client hand back

    A worker result is the object written to standard output; the client
    reads it back field by field. *)
Inductive BridgeValue : Type :=
| BTrue
| BNumber (n : Z)
| BImageBase64 (image : Composite).   (* [image.toString('base64')] *)

Definition BridgeResult : Type := list (string * BridgeValue).

Fixpoint field (key : string) (obj : BridgeResult) : option BridgeValue :=
  match obj with
  | [] => None
  | (k, v) :: rest => if String.eqb k key then Some v else field key rest
  end.

(** The [gridScreenshot] branch of the worker's [main]. *)
Definition gridScreenshotOp
  (frame : Frame) (start end_ : option string) : result BridgeResult :=
  let* image := runGridScreenshot frame start end_ in
  Ok [("imageBase64", BImageBase64 image)].

(** [gridScreenshotInternal] of the client, applied to the worker's
    result: the decoded image, or the missing-image error. *)
Definition gridScreenshotInternal (bridge : result BridgeResult) : result Composite :=
  let* res := bridge in
  match field "imageBase64" res with
  | Some (BImageBase64 image) => Ok image
  | _ => Throw "Bridge returned no image for gridScreenshot."
  end.

(** The spec's wording of the cropping policy: the result carries the
    crop's zero-based offset as data next to the image. *)
Definition carriesOffset (res : BridgeResult) (minCol minRow : Z) : Prop :=
  exists colKey rowKey,
    colKey <> rowKey /\
    field colKey res = Some (BNumber minCol) /\
    field rowKey res = Some (BNumber minRow).

End Compositor.

(** ** CoordinateSpaceMapper and ZoneElementScanner:
       [runSingleZoneScanWithRetry] and the function it evaluates in the page
       (cdp-bridge.mjs) *)

Module Scanner.
Import JsString JsNumber Grid.

Local Open Scope Q_scope.

Inductive CoordinateSpace : Type := Viewport | Page.

Definition normalizeCoordinateSpace (value : string) : CoordinateSpace :=
  if String.eqb (toLowerCase value) "page" then Page else Viewport.

(** What the evaluated function reads from [window] and [document]. *)
Record Window : Type := mkWindow {
  devicePixelRatio : option Q;
  innerWidth : option Q;
  innerHeight : option Q;
  scrollWidth : option Q;      (* document.documentElement.scrollWidth *)
  scrollHeight : option Q;     (* document.documentElement.scrollHeight *)
  scrollX : Q;
  scrollY : Q;
  cssEscape : option (string -> string);   (* window.CSS.escape, if any *)
  localeCompare : string -> string -> Z    (* a.localeCompare(b) *)
}.

Definition withDevicePixelRatio (w : Window) (ratio : Q) : Window :=
  mkWindow (Some ratio) (innerWidth w) (innerHeight w) (scrollWidth w)
    (scrollHeight w) (scrollX w) (scrollY w) (cssEscape w) (localeCompare w).

Record Rect : Type := mkRect { left : Q; right : Q; top : Q; bottom : Q }.

(** A [DOMRect] as [getBoundingClientRect] returns it. *)
Record DOMRect : Type := mkDOMRect {
  rectX : Q; rectY : Q; rectWidth : Q; rectHeight : Q
}.
Definition rectLeft (r : DOMRect) : Q := Qmin (rectX r) (rectX r + rectWidth r).
Definition rectRight (r : DOMRect) : Q := Qmax (rectX r) (rectX r + rectWidth r).
Definition rectTop (r : DOMRect) : Q := Qmin (rectY r) (rectY r + rectHeight r).
Definition rectBottom (r : DOMRect) : Q := Qmax (rectY r) (rectY r + rectHeight r).

Definition intersects (a b : Rect) : bool :=
  Qltb (left a) (right b) && Qltb (left b) (right a)
  && Qltb (top a) (bottom b) && Qltb (top b) (bottom a).

(** *** Coordinate-space mapping *)

Definition dpr (w : Window) : Q :=
  Qmax (1 # 100) (numberOr 1 (devicePixelRatio w)).

Definition cssSpaceWidth (w : Window) (coordinateSpace : CoordinateSpace) : Q :=
  match coordinateSpace with
  | Page => Qmax 1 (numberOr 1 (scrollWidth w))
  | Viewport => Qmax 1 (numberOr 1 (innerWidth w))
  end.

Definition cssSpaceHeight (w : Window) (coordinateSpace : CoordinateSpace) : Q :=
  match coordinateSpace with
  | Page => Qmax 1 (numberOr 1 (scrollHeight w))
  | Viewport => Qmax 1 (numberOr 1 (innerHeight w))
  end.

Definition imageSpaceWidth (w : Window) (cs : CoordinateSpace) : Q :=
  Qmax 1 (cssSpaceWidth w cs * dpr w).
Definition imageSpaceHeight (w : Window) (cs : CoordinateSpace) : Q :=
  Qmax 1 (cssSpaceHeight w cs * dpr w).

Definition scaleX (w : Window) (cs : CoordinateSpace) : Q :=
  imageSpaceWidth w cs / cssSpaceWidth w cs.
Definition scaleY (w : Window) (cs : CoordinateSpace) : Q :=
  imageSpaceHeight w cs / cssSpaceHeight w cs.

(** The zone as the caller's cells give it. *)
Record Bounds : Type := mkBounds { minCol : Z; maxCol : Z; minRow : Z; maxRow : Z }.

Definition zoneRectImage (b : Bounds) (cellSize : Z) : Rect :=
  mkRect (inject_Z (minCol b * cellSize))
         (inject_Z ((maxCol b + 1) * cellSize))
         (inject_Z (minRow b * cellSize))
         (inject_Z ((maxRow b + 1) * cellSize)).

Definition zoneRect (w : Window) (cs : CoordinateSpace) (b : Bounds) (cellSize : Z) : Rect :=
  let image := zoneRectImage b cellSize in
  mkRect (left image / scaleX w cs) (right image / scaleX w cs)
         (top image / scaleY w cs) (bottom image / scaleY w cs).

(** The spec's wording of the scale: (css size x device pixel ratio) / css
    size, with the css size and the ratio clamped. *)
Definition specScaleX (w : Window) (cs : CoordinateSpace) : Q :=
  (cssSpaceWidth w cs * dpr w) / cssSpaceWidth w cs.
Definition specScaleY (w : Window) (cs : CoordinateSpace) : Q :=
  (cssSpaceHeight w cs * dpr w) / cssSpaceHeight w cs.

(** *** Elements as the evaluated function observes them *)

(** One node of the chain from an element up to the document root: what
    [findAnchor], [segmentForNode] and [segmentForAnchor] read from it. *)
Record PathNode : Type := mkPathNode {
  nodeTagName : string;
  nodeId : string;
  sameTagSiblings : nat;   (* children of the parent with this tagName *)
  sameTagIndex : nat       (* sameTagSiblings.indexOf(node) *)
}.

Record Element : Type := mkElement {
  uid : nat;                       (* identity of the node *)
  isHTMLElement : bool;
  self : PathNode;
  ancestors : list PathNode;       (* parentElement, its parentElement, ... *)
  hrefProp : string;               (* el.href, empty when absent *)
  roleAttr : option string;        (* el.getAttribute('role') *)
  hasContentEditable : bool;
  tabIndexAttr : option (option Q);(* Number(el.getAttribute('tabindex')) *)
  hasOnclick : bool;
  boundingClientRect : DOMRect;
  innerText : string;
  valueProp : string;
  placeholderProp : string;
  ariaLabel : option string;       (* el.getAttribute('aria-label') *)
  typeProp : string
}.

Definition tagName (el : Element) : string := nodeTagName (self el).

Record ElementInfo : Type := mkElementInfo {
  selector : string;
  tag : string;
  text : string;
  href : option string;
  placeholder : option string;
  type_ : option string;
  role : option string;
  label : option string
}.

Definition memberOf (s : string) (l : list string) : bool :=
  existsb (String.eqb s) l.

Definition attrText (a : option string) : string :=
  match a with Some s => s | None => "" end.

Definition isInteractive (el : Element) : bool :=
  let tag := tagName el in
  if memberOf tag ["BUTTON"; "INPUT"; "SELECT"; "TEXTAREA"; "SUMMARY"] then true
  else if String.eqb tag "A" && negb (isEmpty (hrefProp el)) then true
  else if match roleAttr el with
          | Some role =>
              negb (isEmpty role) &&
              memberOf role ["button"; "link"; "checkbox"; "radio"; "menuitem";
                             "tab"; "switch"; "combobox"]
          | None => false
          end then true
  else if hasContentEditable el then true
  else if match tabIndexAttr el with
          | Some (Some n) => Qle_bool 0 n
          | _ => false
          end then true
  else if hasOnclick el then true
  else false.

(** [s.replace(/\s+/g, ' ')]; [inRun] tells that the run of white space
    being read has already been replaced. *)
Fixpoint collapseFrom (inRun : bool) (s : string) : string :=
  match s with
  | EmptyString => EmptyString
  | String c s' =>
      if isWhiteSpace c
      then if inRun then collapseFrom true s'
           else String " " (collapseFrom true s')
      else String c (collapseFrom false s')
  end.

Definition collapseWhiteSpace : string -> string := collapseFrom false.

Definition slice0 (n : nat) (s : string) : string := String.substring 0 n s.

Definition getText (el : Element) : string :=
  let raw :=
    trim (collapseWhiteSpace
            (orElse (innerText el)
               (orElse (valueProp el)
                  (orElse (placeholderProp el) (attrText (ariaLabel el)))))) in
  slice0 60 raw.

Definition isSafeCssChar (c : ascii) : bool :=
  isLower c || isUpper c || isDigit c
  || (charCode c =? 95)%Z || (charCode c =? 45)%Z.

(** [value.replace(/[^a-zA-Z0-9_-]/g, ch => '\\' + ch)] *)
Fixpoint escapeFallback (s : string) : string :=
  match s with
  | EmptyString => EmptyString
  | String c s' =>
      if isSafeCssChar c then String c (escapeFallback s')
      else String "\" (String c (escapeFallback s'))
  end.

Definition escapeCss (w : Window) (value : string) : string :=
  match cssEscape w with
  | Some escape => escape value
  | None => escapeFallback value
  end.

(** [findAnchor]: the position, in the chain starting at the element, of
    the nearest node with an id or with tag [html]. *)
Fixpoint findAnchor (chain : list PathNode) : option nat :=
  match chain with
  | [] => None
  | node :: parents =>
      if isEmpty (nodeTagName node) then None
      else if negb (isEmpty (nodeId node)) then Some O
      else if String.eqb (toLowerCase (nodeTagName node)) "html" then Some O
      else option_map S (findAnchor parents)
  end.

Definition segmentForAnchor (w : Window) (node : PathNode) : string :=
  let tag := toLowerCase (nodeTagName node) in
  if negb (isEmpty (nodeId node))
  then (tag ++ "#" ++ escapeCss w (nodeId node))%string
  else tag.

Definition segmentForNode (node : PathNode) (hasParent : bool) : string :=
  let tag := toLowerCase (nodeTagName node) in
  if negb hasParent then tag
  else if (sameTagSiblings node <=? 1)%nat then tag
  else (tag ++ ":nth-of-type("
        ++ ofNumber (Z.of_nat (sameTagIndex node) + 1) ++ ")")%string.

(** The [while (node && node !== anchor)] loop of [buildSelector]: the
    segments of the nodes below the anchor, the element's first. *)
Fixpoint segmentsBelow (chain : list PathNode) (anchor : option nat) : list string :=
  match anchor, chain with
  | Some O, _ => []
  | _, [] => []
  | _, node :: parents =>
      segmentForNode node (negb (Nat.eqb (List.length parents) 0))
      :: segmentsBelow parents (option_map Nat.pred anchor)
  end.

Definition buildSelector (w : Window) (el : Element) : string :=
  let chain := self el :: ancestors el in
  let anchor := findAnchor chain in
  let segments := rev (segmentsBelow chain anchor) in   (* unshift *)
  match anchor with
  | None => join " > " segments
  | Some k =>
      match nth_error chain k with
      | Some node => join " > " (segmentForAnchor w node :: segments)
      | None => join " > " segments
      end
  end.

Definition rectInSpace (w : Window) (cs : CoordinateSpace) (el : Element) : Rect :=
  let rect := boundingClientRect el in
  match cs with
  | Page => mkRect (rectLeft rect + scrollX w) (rectRight rect + scrollX w)
                   (rectTop rect + scrollY w) (rectBottom rect + scrollY w)
  | Viewport => mkRect (rectLeft rect) (rectRight rect) (rectTop rect) (rectBottom rect)
  end.

Definition elementInfo (w : Window) (el : Element) : ElementInfo :=
  mkElementInfo
    (buildSelector w el)
    (tagName el)
    (getText el)
    (if String.eqb (tagName el) "A" then orUndefined (hrefProp el) else None)
    (orUndefined (placeholderProp el))
    (orUndefined (typeProp el))
    (match roleAttr el with Some r => orUndefined r | None => None end)
    (match ariaLabel el with Some l => orUndefined l | None => None end).

(** The state the [candidates.forEach] callback works on. *)
Record ScanState : Type := mkScanState {
  results : list ElementInfo;      (* in [push] order *)
  seenSelectors : list string
}.

(** The conditions before [buildSelector] under which the callback goes
    on. *)
Definition passesFilters
  (w : Window) (cs : CoordinateSpace) (zone : Rect) (el : Element) : bool :=
  isHTMLElement el
  && isInteractive el
  && negb (Qle_bool (rectWidth (boundingClientRect el)) 0
           || Qle_bool (rectHeight (boundingClientRect el)) 0)
  && intersects zone (rectInSpace w cs el).

(** The [candidates.forEach] callback. *)
Definition visit
  (w : Window) (cs : CoordinateSpace) (zone : Rect)
  (st : ScanState) (el : Element) : ScanState :=
  if negb (isHTMLElement el) then st
  else if negb (isInteractive el) then st
  else
    let rect := boundingClientRect el in
    if Qle_bool (rectWidth rect) 0 || Qle_bool (rectHeight rect) 0 then st
    else if negb (intersects zone (rectInSpace w cs el)) then st
    else
      let selector := buildSelector w el in
      if isEmpty selector || memberOf selector (seenSelectors st) then st
      else mkScanState (results st ++ [elementInfo w el])
                       (selector :: seenSelectors st).

(** The comparator handed to [results.sort]. *)
Definition compareResults (w : Window) (a b : ElementInfo) : Z :=
  let aText := toLowerCase (text a) in
  let bText := toLowerCase (text b) in
  if negb (isEmpty aText) && negb (isEmpty bText) then localeCompare w aText bText
  else if negb (isEmpty aText) then (-1)%Z
  else if negb (isEmpty bText) then 1%Z
  else localeCompare w (selector a) (selector b).

(** [Array.prototype.sort]: a stable sort; written as insertion from the
    right, which places an element before the first one it does not
    exceed. *)
Fixpoint insertSorted {A : Type} (cmp : A -> A -> Z) (x : A) (l : list A) : list A :=
  match l with
  | [] => [x]
  | y :: l' => if (cmp x y <=? 0)%Z then x :: l else y :: insertSorted cmp x l'
  end.

Definition sort {A : Type} (cmp : A -> A -> Z) (l : list A) : list A :=
  fold_right (insertSorted cmp) [] l.

(** What [document.querySelectorAll] returns for the two queries. *)
Record Document : Type := mkDocument {
  interactiveMatches : list Element;
  pointerMatches : list Element
}.

(** [candidates.add(el)] on a [Set] of nodes. *)
Definition addCandidate (candidates : list Element) (el : Element) : list Element :=
  if existsb (fun c => Nat.eqb (uid c) (uid el)) candidates
  then candidates else (candidates ++ [el])%list.

Definition candidatesOf (doc : Document) : list Element :=
  fold_left addCandidate (pointerMatches doc)
    (fold_left addCandidate (interactiveMatches doc) []).

(** The scan of one candidate list against a mapped zone, before
    sorting. *)
Definition collect
  (w : Window) (cs : CoordinateSpace) (zone : Rect) (candidates : list Element)
  : ScanState :=
  fold_left (visit w cs zone) candidates (mkScanState [] []).

(** The function passed to [page.evaluate]. *)
Definition scanPage
  (w : Window) (doc : Document) (b : Bounds) (cellSize : Z) (cs : CoordinateSpace)
  : list ElementInfo :=
  let zone := zoneRect w cs b cellSize in
  sort (compareResults w) (results (collect w cs zone (candidatesOf doc))).

Local Close Scope Q_scope.

(** *** The retry loop *)

Record Zone : Type := mkZone { zoneStart : string; zoneEnd : string }.

Record ZoneResult : Type := mkZoneResult {
  zone : string;
  elements : list ElementInfo
}.

(** What a call of [page.evaluate] meets: a page in which the function
    runs, or a failure of the call. *)
Inductive EvaluateOutcome : Type :=
| Evaluated (w : Window) (doc : Document)
| EvaluateThrows (message : string).

(** The page as a script: the outcome of the n-th [page.evaluate] and
    whether the n-th [page.waitForLoadState] settles in time. *)
Record PageScript : Type := mkPageScript {
  evaluateOutcome : nat -> EvaluateOutcome;
  loadStateSettles : nat -> bool
}.

Inductive Event : Type :=
| WaitForLoadState (state : string) (timeout : Z) (settled : bool)
| Evaluate (outcome : EvaluateOutcome)
| Sleep (ms : Z).

Record PageState : Type := mkPageState {
  evaluateCalls : nat;
  loadStateCalls : nat;
  trace : list Event          (* oldest first *)
}.

Definition initialPageState : PageState := mkPageState 0 0 [].

Definition isRecoverableScanError (message : string) : bool :=
  includes message "Execution context was destroyed"
  || includes message "Cannot find context with specified id"
  || includes message "Frame was detached"
  || includes message "Target page, context or browser has been closed".

(** [waitForStableDom]: the wait is made and its failure is dropped. *)
Definition waitForStableDom (page : PageScript) (st : PageState) : PageState :=
  let settled := loadStateSettles page (loadStateCalls st) in
  mkPageState (evaluateCalls st) (S (loadStateCalls st))
    (trace st ++ [WaitForLoadState "domcontentloaded" 3000 settled]).

Definition sleep (ms : Z) (st : PageState) : PageState :=
  mkPageState (evaluateCalls st) (loadStateCalls st) (trace st ++ [Sleep ms]).

Definition evaluate
  (page : PageScript) (b : Bounds) (cs : CoordinateSpace) (st : PageState)
  : result (list ElementInfo) * PageState :=
  let outcome := evaluateOutcome page (evaluateCalls st) in
  let st' := mkPageState (S (evaluateCalls st)) (loadStateCalls st)
               (trace st ++ [Evaluate outcome]) in
  match outcome with
  | Evaluated w doc => (Ok (scanPage w doc b CELL_SIZE cs), st')
  | EvaluateThrows message => (Throw message, st')
  end.

Definition maxAttempts : Z := 3.

(** The [for (attempt = 1; attempt <= maxAttempts; attempt += 1)] loop.
    [remaining] counts the iterations left, [maxAttempts + 1 - attempt]; the
    loop condition fails exactly when it is zero. *)
Fixpoint scanAttempts
  (page : PageScript) (zoneName : string) (b : Bounds) (cs : CoordinateSpace)
  (remaining : nat) (attempt : Z) (lastError : option string) (st : PageState)
  : result ZoneResult * PageState :=
  match remaining with
  | O =>
      (Throw (match lastError with
              | Some error => error
              | None => "Failed to scan zone " ++ zoneName ++ "."
              end), st)
  | S remaining' =>
      let st1 := waitForStableDom page st in
      match evaluate page b cs st1 with
      | (Ok elements, st2) => (Ok (mkZoneResult zoneName elements), st2)
      | (Throw error, st2) =>
          if negb (isRecoverableScanError error) || (attempt >=? maxAttempts)
          then (Throw error, st2)
          else
            let st3 := waitForStableDom page st2 in
            let st4 := sleep (200 * attempt) st3 in
            scanAttempts page zoneName b cs remaining' (attempt + 1) (Some error) st4
      end
  end.

Definition zoneNameOf (z : Zone) : string :=
  toUpperCase (zoneStart z) ++ ":" ++ toUpperCase (zoneEnd z).

Definition runSingleZoneScanWithRetry
  (page : PageScript) (z : Zone) (cs : CoordinateSpace) (st : PageState)
  : result ZoneResult * PageState :=
  match parseCell (zoneStart z) with
  | Throw m => (Throw m, st)
  | Ok start =>
      match parseCell (zoneEnd z) with
      | Throw m => (Throw m, st)
      | Ok end_ =>
          let b := mkBounds (Z.min (col start) (col end_)) (Z.max (col start) (col end_))
                            (Z.min (row start) (row end_)) (Z.max (row start) (row end_)) in
          scanAttempts page (zoneNameOf z) b cs (Z.to_nat maxAttempts) 1 None st
      end
  end.

Fixpoint runScanZones
  (page : PageScript) (zones : list Zone) (cs : CoordinateSpace) (st : PageState)
  : result (list ZoneResult) * PageState :=
  match zones with
  | [] => (Ok [], st)
  | z :: rest =>
      match runSingleZoneScanWithRetry page z cs st with
      | (Throw m, st') => (Throw m, st')
      | (Ok r, st') =>
          match runScanZones page rest cs st' with
          | (Throw m, st'') => (Throw m, st'')
          | (Ok rs, st'') => (Ok (r :: rs), st'')
          end
      end
  end.

End Scanner.

(** *** Reference shapes used to state the scanner's properties *)

Module ScannerSpec.
Import Scanner.

(** The wait made before and after an attempt: "domcontentloaded", bounded
    by 3000 ms, whatever its outcome. *)
Definition waitEvent (page : PageScript) (i : nat) : Event :=
  WaitForLoadState "domcontentloaded" 3000 (loadStateSettles page i).

(** The events of [n] attempts, the first of them numbered [attempt], made
    from a page that has seen [e] evaluations and [l] waits: every attempt is
    a wait followed by the evaluation, and two attempts are separated by a
    wait and a sleep of 200 ms times the number of the failed attempt. *)
Fixpoint expectedTrace
  (page : PageScript) (e l : nat) (n : nat) (attempt : Z) : list Event :=
  match n with
  | O => []
  | S n' =>
      [waitEvent page l; Evaluate (evaluateOutcome page e)]
      ++ match n' with
         | O => []
         | S _ =>
             [waitEvent page (S l); Sleep (200 * attempt)]
             ++ expectedTrace page (S e) (S (S l)) n' (attempt + 1)
         end
  end%list.

(** The page state after the wait and the evaluation of an attempt. *)
Definition afterAttempt (page : PageScript) (st : PageState) : PageState :=
  mkPageState (S (evaluateCalls st)) (S (loadStateCalls st))
    (trace st ++ [waitEvent page (loadStateCalls st);
                  Evaluate (evaluateOutcome page (evaluateCalls st))]).

(** The page state after the wait and the sleep that follow a failed
    attempt. *)
Definition afterBackoff (page : PageScript) (attempt : Z) (st : PageState) : PageState :=
  mkPageState (S (evaluateCalls st)) (S (S (loadStateCalls st)))
    (trace st ++ [waitEvent page (loadStateCalls st);
                  Evaluate (evaluateOutcome page (evaluateCalls st));
                  waitEvent page (S (loadStateCalls st));
                  Sleep (200 * attempt)]).

(** What holds of the scan state after any number of visited candidates. *)
Record collected
  (w : Window) (cs : CoordinateSpace) (zone : Rect)
  (candidates : list Element) (st : ScanState) : Prop :=
  mkCollected {
    collected_nodup : NoDup (List.map selector (results st));
    collected_seen :
      forall r, In r (results st) -> In (selector r) (seenSelectors st);
    collected_from :
      forall r, In r (results st) ->
                exists el, In el candidates /\
                           r = elementInfo w el /\
                           passesFilters w cs zone el = true
  }.

(** A window of no width at half resolution. *)
Definition collapsedWindow : Window :=
  mkWindow (Some (1 # 2)) (Some 0%Q) (Some 0%Q) (Some 0%Q) (Some 0%Q)
    0%Q 0%Q None (fun _ _ => 0).

(** A 1000x800 viewport at ratio 1. *)
Definition plainWindow : Window :=
  mkWindow (Some 1%Q) (Some 1000%Q) (Some 800%Q) (Some 1000%Q) (Some 800%Q)
    0%Q 0%Q None (fun _ _ => 0).

Definition button (id : nat) (x y : Q) : Element :=
  mkElement id true (mkPathNode "BUTTON" "" 1 0)
    [mkPathNode "DIV" "card" 3 (id - 1); mkPathNode "BODY" "" 1 0;
     mkPathNode "HTML" "" 1 0]
    "" None false None false (mkDOMRect x y 80 30)
    "Submit" "" "" None "submit".

(** Three cards that share the id "card", each holding one button: two of
    the buttons lie in cell B2 and get the same selector, the third is far
    outside. *)
Definition sampleDocument : Document :=
  mkDocument [button 1 110 110; button 2 120 150; button 3 700 700] [].

(** A page whose first two evaluations are cut short by a navigation. *)
Definition navigatingPage : PageScript :=
  mkPageScript
    (fun n =>
       match n with
       | O => EvaluateThrows "Execution context was destroyed, most likely because of a navigation."
       | S O => EvaluateThrows "Frame was detached"
       | _ => Evaluated plainWindow sampleDocument
       end)
    (fun n => Nat.eqb n 0).

End ScannerSpec.

(** How the attempt that made evaluation number [e] ends the scan: with the
    elements found in the page it ran in, or with the error of that very
    evaluation, which is then either not recoverable or the error of the
    last attempt allowed. *)
Definition attemptEnds
  (page : Scanner.PageScript) (zoneName : string) (b : Scanner.Bounds)
  (cs : Scanner.CoordinateSpace) (e : nat) (last : bool)
  (res : result Scanner.ZoneResult) : Prop :=
  match res with
  | Ok zr =>
      exists w doc,
        Scanner.evaluateOutcome page e = Scanner.Evaluated w doc /\
        zr = Scanner.mkZoneResult zoneName (Scanner.scanPage w doc b Grid.CELL_SIZE cs)
  | Throw error =>
      Scanner.evaluateOutcome page e = Scanner.EvaluateThrows error /\
      (Scanner.isRecoverableScanError error = false \/ last = true)
  end.


(** The bounding box of two cells. *)
Definition boundsOf (a b : Grid.Cell) : Scanner.Bounds :=
  Scanner.mkBounds (Z.min (Grid.col a) (Grid.col b)) (Z.max (Grid.col a) (Grid.col b))
                   (Z.min (Grid.row a) (Grid.row b)) (Z.max (Grid.row a) (Grid.row b)).

(** ** ElementMatcher: [findBestInteractiveElement] (chrome-client.ts) *)

Module Matcher.
Import JsString JsNumber.

Record UiInteractiveElement : Type := mkUiInteractiveElement {
  id : string;
  gridRef : string;
  elementType : string;
  role : option string;
  text : string;
  actionability : string;
  likelyActions : list string;
  importance : string;
  whyItMatters : string;
  confidence : Q
}.

Definition isTokenChar (c : ascii) : bool := isLower c || isDigit c.

(** [s.split(/[^a-z0-9]+/)]: the pieces between the maximal runs of
    separator characters; [inSeparator] tells that the run being read has
    already closed a piece. *)
Fixpoint splitFrom (inSeparator : bool) (s : string) : list string :=
  match s with
  | EmptyString => [EmptyString]
  | String c s' =>
      if isTokenChar c then
        match splitFrom false s' with
        | piece :: pieces => String c piece :: pieces
        | [] => [String c EmptyString]
        end
      else if inSeparator then splitFrom true s'
      else EmptyString :: splitFrom true s'
  end.

Definition split : string -> list string := splitFrom false.

(** [phrase.split(...).map(token => token.trim()).filter(Boolean)] *)
Definition tokensOf (phrase : string) : list string :=
  filter (fun token => negb (isEmpty token)) (List.map trim (split phrase)).

Definition roleText (e : UiInteractiveElement) : string :=
  match role e with Some r => r | None => "" end.

Definition core (e : UiInteractiveElement) : string :=
  toLowerCase (join " " [id e; text e; elementType e; roleText e]).

Definition aux (e : UiInteractiveElement) : string :=
  toLowerCase (join " " (gridRef e :: actionability e :: likelyActions e)).

(** The counters of the [for (const token of tokens)] loop. *)
Record Tally : Type := mkTally {
  score : Z;
  tokenMatchesCore : Z;
  tokenMatchesAux : Z
}.

Definition countToken (e : UiInteractiveElement) (t : Tally) (token : string) : Tally :=
  let inCore := includes (core e) token in
  let inAux := includes (aux e) token in
  let tokenMatchesCore := if inCore then tokenMatchesCore t + 1 else tokenMatchesCore t in
  let tokenMatchesAux :=
    if inCore then tokenMatchesAux t
    else if inAux then tokenMatchesAux t + 1 else tokenMatchesAux t in
  let score := if includes (toLowerCase (text e)) token then score t + 4 else score t in
  let score := if includes (toLowerCase (id e)) token then score + 4 else score in
  mkTally score tokenMatchesCore tokenMatchesAux.

Definition phraseInCore (phrase : string) (e : UiInteractiveElement) : bool :=
  includes (core e) phrase.
Definition phraseInAux (phrase : string) (e : UiInteractiveElement) : bool :=
  includes (aux e) phrase.

(** The score before the token loop. *)
Definition phraseScore (phrase : string) (e : UiInteractiveElement) : Z :=
  let score := 0 in
  let score := if phraseInCore phrase e then score + 80 else score in
  let score := if phraseInAux phrase e then score + 20 else score in
  let score := if String.eqb (toLowerCase (text e)) phrase then score + 20 else score in
  let score := if String.eqb (toLowerCase (id e)) phrase then score + 20 else score in
  score.

Definition tally (phrase : string) (tokens : list string) (e : UiInteractiveElement) : Tally :=
  fold_left (countToken e) tokens (mkTally (phraseScore phrase e) 0 0).

Definition coverage (tokens : list string) (t : Tally) : Q :=
  match tokens with
  | [] => 1%Q
  | _ => (inject_Z (tokenMatchesCore t + tokenMatchesAux t)
          / inject_Z (Z.of_nat (List.length tokens)))%Q
  end.

Definition importanceBonus (e : UiInteractiveElement) : Z :=
  (if String.eqb (toLowerCase (importance e)) "critical" then 2 else 0)
  + (if String.eqb (toLowerCase (importance e)) "high" then 1 else 0).

(** One iteration of the [for (const element of elements)] loop up to the
    comparison with the best score: [None] when the iteration ends at
    [continue]. *)
Definition scoreElement
  (phrase : string) (tokens : list string) (e : UiInteractiveElement) : option Z :=
  let t := tally phrase tokens e in
  let score := score t + tokenMatchesCore t * 16 + tokenMatchesAux t * 4 in
  if negb (phraseInCore phrase e) && negb (phraseInAux phrase e)
     && Qltb (coverage tokens t) (1 # 2)
  then None
  else Some (score + importanceBonus e).

Definition keepBest
  (phrase : string) (tokens : list string)
  (acc : option UiInteractiveElement * Z) (e : UiInteractiveElement)
  : option UiInteractiveElement * Z :=
  match scoreElement phrase tokens e with
  | None => acc
  | Some score => if score >? snd acc then (Some e, score) else acc
  end.

Definition findBestInteractiveElement
  (elements : list UiInteractiveElement) (query : string)
  : option UiInteractiveElement :=
  let phrase := toLowerCase query in
  let tokens := tokensOf phrase in
  let found := fold_left (keepBest phrase tokens) elements (None, 0) in
  if snd found >? 0 then fst found else None.

(** The score a query gives an element, as [findBestInteractiveElement]
    computes it. *)
Definition scoreFor (query : string) (e : UiInteractiveElement) : option Z :=
  scoreElement (toLowerCase query) (tokensOf (toLowerCase query)) e.

End Matcher.

(** *** Reference notions used to state the matcher's properties *)

Module MatcherSpec.
Import JsString Matcher.




Definition plain (id text : string) (actions : list string) (importance : string)
  : UiInteractiveElement :=
  mkUiInteractiveElement id "B2" "button" None text "clickable" actions
    importance "" 1%Q.

End MatcherSpec.

(** ** JSON texts: [JSON.parse] *)

Module Json.
Import JsString.

(** A parsed value.  Strings are sequences of UTF-16 code units; a number
    keeps its literal; an object keeps its members in source order (a
    later member of the same name is the one a property read returns). *)
#[warnings="-register-all"]
Inductive Value : Type :=
| Null
| Boolean (b : bool)
| Number (literal : string)
| Text (units : list N)
| Array (items : list Value)
| Object (members : list (list N * Value)).

Definition isRecord (v : Value) : bool :=
  match v with
  | Object _ => true
  | _ => false
  end.

Inductive Token : Type :=
| TLBrace | TRBrace | TLBracket | TRBracket | TColon | TComma
| TText (units : list N)
| TNumber (literal : string)
| TTrue | TFalse | TNull.

(** The phases of a number literal: an optional minus sign; a zero or a
    non-zero digit followed by digits; optionally a dot and digits;
    optionally [e] or [E], a sign and digits. *)
Inductive NumberPhase : Type :=
| AfterMinus | Zero | IntDigits | AfterDot | FracDigits
| AfterE | AfterESign | ExpDigits.

Definition complete (p : NumberPhase) : bool :=
  match p with
  | Zero | IntDigits | FracDigits | ExpDigits => true
  | _ => false
  end.

Definition isExponent (c : ascii) : bool :=
  (charCode c =? 101) || (charCode c =? 69).
Definition isSign (c : ascii) : bool :=
  (charCode c =? 43) || (charCode c =? 45).
Definition isDot (c : ascii) : bool := charCode c =? 46.

Definition numberStep (p : NumberPhase) (c : ascii) : option NumberPhase :=
  match p with
  | AfterMinus =>
      if charCode c =? 48 then Some Zero
      else if isDigit c then Some IntDigits else None
  | Zero =>
      if isDot c then Some AfterDot
      else if isExponent c then Some AfterE else None
  | IntDigits =>
      if isDigit c then Some IntDigits
      else if isDot c then Some AfterDot
      else if isExponent c then Some AfterE else None
  | AfterDot => if isDigit c then Some FracDigits else None
  | FracDigits =>
      if isDigit c then Some FracDigits
      else if isExponent c then Some AfterE else None
  | AfterE =>
      if isSign c then Some AfterESign
      else if isDigit c then Some ExpDigits else None
  | AfterESign => if isDigit c then Some ExpDigits else None
  | ExpDigits => if isDigit c then Some ExpDigits else None
  end.

Inductive LexState : Type :=
| Idle
| InText (units : list N)                       (* newest first *)
| InEscape (units : list N)
| InUnicode (units : list N) (seen : nat) (value : N)
| InNumber (literal : string) (phase : NumberPhase)   (* newest first *)
| InWord (rest : string) (token : Token).

(** JSON white space: SP, TAB, LF, CR. *)
Definition isJsonSpace (c : ascii) : bool :=
  (charCode c =? 32) || (charCode c =? 9) || (charCode c =? 10) || (charCode c =? 13).

Definition hexValue (c : ascii) : option N :=
  let n := charCode c in
  if isDigit c then Some (Z.to_N (n - 48))
  else if (97 <=? n) && (n <=? 102) then Some (Z.to_N (n - 87))
  else if (65 <=? n) && (n <=? 70) then Some (Z.to_N (n - 55))
  else None.

Definition escapeValue (c : ascii) : option N :=
  let n := charCode c in
  if (n =? 34) || (n =? 92) || (n =? 47) then Some (Z.to_N n)
  else if n =? 98 then Some 8%N
  else if n =? 102 then Some 12%N
  else if n =? 110 then Some 10%N
  else if n =? 114 then Some 13%N
  else if n =? 116 then Some 9%N
  else None.

Fixpoint reverseOnto (s acc : string) : string :=
  match s with
  | EmptyString => acc
  | String c s' => reverseOnto s' (String c acc)
  end.

(** What a character starts when no token is being read: the tokens it
    completes and the state it leaves. *)
Definition start (c : ascii) : option (list Token * LexState) :=
  let n := charCode c in
  if isJsonSpace c then Some ([], Idle)
  else if n =? 123 then Some ([TLBrace], Idle)
  else if n =? 125 then Some ([TRBrace], Idle)
  else if n =? 91 then Some ([TLBracket], Idle)
  else if n =? 93 then Some ([TRBracket], Idle)
  else if n =? 58 then Some ([TColon], Idle)
  else if n =? 44 then Some ([TComma], Idle)
  else if n =? 34 then Some ([], InText [])
  else if n =? 45 then Some ([], InNumber (String c EmptyString) AfterMinus)
  else if n =? 48 then Some ([], InNumber (String c EmptyString) Zero)
  else if isDigit c then Some ([], InNumber (String c EmptyString) IntDigits)
  else if n =? 116 then Some ([], InWord "rue" TTrue)
  else if n =? 102 then Some ([], InWord "alse" TFalse)
  else if n =? 110 then Some ([], InWord "ull" TNull)
  else None.

Definition emit (tokens : list Token) (rest : option (list Token)) : option (list Token) :=
  option_map (app tokens) rest.

Fixpoint lex (st : LexState) (s : string) : option (list Token) :=
  match s with
  | EmptyString =>
      match st with
      | Idle => Some []
      | InNumber literal phase =>
          if complete phase then Some [TNumber (reverseOnto literal "")] else None
      | _ => None
      end
  | String c s' =>
      match st with
      | Idle =>
          match start c with
          | Some (tokens, st') => emit tokens (lex st' s')
          | None => None
          end
      | InText units =>
          if charCode c =? 34 then emit [TText (rev units)] (lex Idle s')
          else if charCode c =? 92 then lex (InEscape units) s'
          else if charCode c <? 32 then None
          else lex (InText (Z.to_N (charCode c) :: units)) s'
      | InEscape units =>
          if charCode c =? 117 then lex (InUnicode units 0 0%N) s'
          else
            match escapeValue c with
            | Some u => lex (InText (u :: units)) s'
            | None => None
            end
      | InUnicode units seen value =>
          match hexValue c with
          | Some h =>
              let value' := (value * 16 + h)%N in
              if Nat.eqb seen 3 then lex (InText (value' :: units)) s'
              else lex (InUnicode units (S seen) value') s'
          | None => None
          end
      | InNumber literal phase =>
          match numberStep phase c with
          | Some phase' => lex (InNumber (String c literal) phase') s'
          | None =>
              if complete phase then
                match start c with
                | Some (tokens, st') =>
                    emit (TNumber (reverseOnto literal "") :: tokens) (lex st' s')
                | None => None
                end
              else None
          end
      | InWord rest token =>
          match rest with
          | String d rest' =>
              if Ascii.eqb c d then
                if isEmpty rest' then emit [token] (lex Idle s')
                else lex (InWord rest' token) s'
              else None
          | EmptyString => None
          end
      end
  end.

(** The containers that are open, innermost first. *)
Inductive Frame : Type :=
| InArray (items : list Value)                          (* newest first *)
| InObject (members : list (list N * Value))            (* newest first *)
| InMember (members : list (list N * Value)) (key : list N).

Inductive Mode : Type :=
| WantValue          (* at the start, after ',' in an array, after ':' *)
| WantValueOrEnd     (* after '[' *)
| WantKeyOrEnd       (* after the opening brace *)
| WantKey            (* after ',' in an object *)
| WantColon
| AfterValue         (* after a value inside a container *)
| Finished (v : Value).

(** A value is complete: it goes into the innermost open container, or
    it is the result. *)
Definition close (v : Value) (stack : list Frame) : option (list Frame * Mode) :=
  match stack with
  | [] => Some ([], Finished v)
  | InArray items :: outer => Some (InArray (v :: items) :: outer, AfterValue)
  | InMember members key :: outer =>
      Some (InObject ((key, v) :: members) :: outer, AfterValue)
  | InObject _ :: _ => None
  end.

Definition scalar (t : Token) : option Value :=
  match t with
  | TText units => Some (Text units)
  | TNumber literal => Some (Number literal)
  | TTrue => Some (Boolean true)
  | TFalse => Some (Boolean false)
  | TNull => Some Null
  | _ => None
  end.

Definition step (stack : list Frame) (mode : Mode) (t : Token)
  : option (list Frame * Mode) :=
  match mode with
  | WantValue | WantValueOrEnd =>
      match t with
      | TLBracket => Some (InArray [] :: stack, WantValueOrEnd)
      | TLBrace => Some (InObject [] :: stack, WantKeyOrEnd)
      | TRBracket =>
          match mode, stack with
          | WantValueOrEnd, InArray [] :: outer => close (Array []) outer
          | _, _ => None
          end
      | _ =>
          match scalar t with
          | Some v => close v stack
          | None => None
          end
      end
  | WantKeyOrEnd | WantKey =>
      match t, stack with
      | TText key, InObject members :: outer =>
          Some (InMember members key :: outer, WantColon)
      | TRBrace, InObject [] :: outer =>
          match mode with
          | WantKeyOrEnd => close (Object []) outer
          | _ => None
          end
      | _, _ => None
      end
  | WantColon =>
      match t with
      | TColon => Some (stack, WantValue)
      | _ => None
      end
  | AfterValue =>
      match t, stack with
      | TComma, InArray _ :: _ => Some (stack, WantValue)
      | TRBracket, InArray items :: outer => close (Array (rev items)) outer
      | TComma, InObject _ :: _ => Some (stack, WantKey)
      | TRBrace, InObject members :: outer => close (Object (rev members)) outer
      | _, _ => None
      end
  | Finished _ => None
  end.

Fixpoint run (stack : list Frame) (mode : Mode) (tokens : list Token) : option Value :=
  match tokens with
  | [] =>
      match mode with
      | Finished v => Some v
      | _ => None
      end
  | t :: rest =>
      match step stack mode t with
      | Some (stack', mode') => run stack' mode' rest
      | None => None
      end
  end.

(** [JSON.parse(text)]; [None] when it throws a [SyntaxError]. *)
Definition parse (text : string) : option Value :=
  match lex Idle text with
  | Some tokens => run [] WantValue tokens
  | None => None
  end.

End Json.

(** ** LabelingProtocol: [parseJsonObject], [extractGeminiText],
       [geminiGenerateContent] and [runLabelsAnalysis] (chrome-client.ts) *)

Module Labeling.
Import JsString.

(** A thrown value with the two fields [String(error)] reads. *)
Record JsError : Type := mkJsError { errorName : string; errorMessage : string }.

Definition newError (message : string) : JsError := mkJsError "Error" message.

(** [String(error)] for an [Error] object. *)
Definition stringOfError (e : JsError) : string :=
  if isEmpty (errorName e) then errorMessage e
  else if isEmpty (errorMessage e) then errorName e
  else errorName e ++ ": " ++ errorMessage e.

Inductive Outcome (A : Type) : Type :=
| Returns (value : A)
| Throws (error : JsError).
Arguments Returns {A} value.
Arguments Throws {A} error.

Definition dq : string := String (ascii_of_nat 34) EmptyString.
Definition newline : string := String (ascii_of_nat 10) EmptyString.
Definition fence : string := "```".

Fixpoint drop (n : nat) (s : string) : string :=
  match n, s with
  | O, _ => s
  | S n', String _ s' => drop n' s'
  | S _, EmptyString => EmptyString
  end.

(** The text before and after the first occurrence of [needle]. *)
Fixpoint splitAtFirst (needle s : string) : option (string * string) :=
  if startsWith needle s then Some (EmptyString, drop (String.length needle) s)
  else
    match s with
    | EmptyString => None
    | String c s' =>
        match splitAtFirst needle s' with
        | Some (before, after) => Some (String c before, after)
        | None => None
        end
    end.

(** Group 1 of the first match of the code-fence expression (three
    backticks, an optional [json] in any case, white space, the shortest
    text up to the next three backticks). *)
Definition codeFenceGroup (trimmed : string) : option string :=
  match splitAtFirst fence trimmed with
  | None => None
  | Some (_, opened) =>
      let afterTag :=
        if String.eqb (toLowerCase (String.substring 0 4 opened)) "json"
        then drop 4 opened else opened in
      match splitAtFirst fence (dropWhile isWhiteSpace afterTag) with
      | Some (body, _) => Some body
      | None => None
      end
  end.

(** The parse candidates in the order the loop tries them. *)
Definition parseCandidates (trimmed : string) : list string :=
  let candidates := [trimmed] in
  match codeFenceGroup trimmed with
  | Some group =>
      if isEmpty group then candidates
      else trim group :: candidates     (* unshift *)
  | None => candidates
  end.

Fixpoint firstRecord (candidates : list string) : option Json.Value :=
  match candidates with
  | [] => None
  | candidate :: rest =>
      match Json.parse candidate with
      | Some parsed => if Json.isRecord parsed then Some parsed else firstRecord rest
      | None => firstRecord rest
      end
  end.

Definition parseJsonObject (text : string) : Outcome Json.Value :=
  let trimmed := trim text in
  match firstRecord (parseCandidates trimmed) with
  | Some parsed => Returns parsed
  | None =>
      Throws (newError ("Gemini response was not valid JSON object. Raw response: "
                        ++ trimmed))
  end.

(** The spec's wording of the order: the whole text first, the fenced
    block only when that fails. *)
Definition specCandidates (trimmed : string) : list string :=
  match codeFenceGroup trimmed with
  | Some group => if isEmpty group then [trimmed] else [trimmed; trim group]
  | None => [trimmed]
  end.

(** *** The model API *)

Record GeminiPart : Type := mkPart { partText : option string }.
Record GeminiCandidate : Type := mkCandidate {
  contentParts : option (list GeminiPart)      (* candidate.content?.parts *)
}.
Record GeminiResponse : Type := mkGeminiResponse {
  candidates : option (list GeminiCandidate)
}.

Record Request : Type := mkRequest {
  requestModel : string;
  promptText : string;
  imageData : string;
  temperature : Q
}.

(** What [fetch] and [res.json()] come to: a JSON body with its status
    ([bodyText] is [JSON.stringify] of the body, [body] its typed reading),
    or a rejection. *)
Inductive FetchOutcome : Type :=
| Responds (status : Z) (bodyText : string) (body : GeminiResponse)
| Rejects (error : JsError).

Definition GEMINI_REQUEST_TIMEOUT_MS : Z := 90000.

Definition normalizeTimeoutMs (value : option Z) (fallbackMs : Z) : Z :=
  match value with
  | Some parsed => if parsed <=? 0 then fallbackMs else parsed
  | None => fallbackMs
  end.

Definition isAbortError (e : JsError) : bool := String.eqb (errorName e) "AbortError".

Definition responseOk (status : Z) : bool := (200 <=? status) && (status <=? 299).

Definition geminiGenerateContent
  (outcome : FetchOutcome) (requestTimeoutMs : option Z)
  : Outcome (string * GeminiResponse) :=
  let timeoutMs := normalizeTimeoutMs requestTimeoutMs GEMINI_REQUEST_TIMEOUT_MS in
  match outcome with
  | Responds status bodyText body =>
      if negb (responseOk status)
      then Throws (newError ("Gemini API error " ++ ofNumber status ++ ": " ++ bodyText))
      else Returns (bodyText, body)
  | Rejects error =>
      if isAbortError error
      then Throws (newError ("Gemini request timed out after "
                             ++ ofNumber timeoutMs ++ "ms."))
      else Throws error
  end.

Definition partsOf (c : GeminiCandidate) : list GeminiPart :=
  match contentParts c with Some parts => parts | None => [] end.

Definition textOf (p : GeminiPart) : string :=
  match partText p with Some t => trim t | None => "" end.

Definition extractGeminiText (bodyText : string) (data : GeminiResponse) : Outcome string :=
  let texts :=
    filter (fun t => negb (isEmpty t))
      (List.map textOf
         (flat_map partsOf
            (match candidates data with Some cs => cs | None => [] end))) in
  match texts with
  | [] => Throws (newError ("Gemini returned no text content: " ++ bodyText))
  | _ => Returns (join newline texts)
  end.

(** *** The prompt *)

Inductive DetailLevel : Type := High | Extreme.
Inductive PromptMode : Type := Full | ZoneMode.
Record GridRange : Type := mkGridRange { rangeStart : string; rangeEnd : string }.

(** The fixed lines of the labels prompt, from the output shape to the last common requirement. *)
Definition labelsShapeLines : list string :=
  [ "Return ONLY JSON (no markdown) with this exact shape:";
    "{";
    ("  " ++ dq ++ "pageSummary" ++ dq ++ ": " ++ dq ++ "string" ++ dq ++ ",");
    ("  " ++ dq ++ "pageType" ++ dq ++ ": " ++ dq ++ "string" ++ dq ++ ",");
    ("  " ++ dq ++ "layoutRegions" ++ dq ++ ": [");
    "    {";
    ("      " ++ dq ++ "id" ++ dq ++ ": " ++ dq ++ "string" ++ dq ++ ",");
    ("      " ++ dq ++ "gridRange" ++ dq ++ ": " ++ dq ++ "string" ++ dq ++ ",");
    ("      " ++ dq ++ "regionType" ++ dq ++ ": " ++ dq ++ "string" ++ dq ++ ",");
    ("      " ++ dq ++ "purpose" ++ dq ++ ": " ++ dq ++ "string" ++ dq ++ ",");
    ("      " ++ dq ++ "keyContents" ++ dq ++ ": [" ++ dq ++ "string" ++ dq ++ "]");
    "    }";
    "  ],";
    ("  " ++ dq ++ "interactiveElements" ++ dq ++ ": [");
    "    {";
    ("      " ++ dq ++ "id" ++ dq ++ ": " ++ dq ++ "string" ++ dq ++ ",");
    ("      " ++ dq ++ "gridRef" ++ dq ++ ": " ++ dq ++ "string" ++ dq ++ ",");
    ("      " ++ dq ++ "elementType" ++ dq ++ ": " ++ dq ++ "string" ++ dq ++ ",");
    ("      " ++ dq ++ "role" ++ dq ++ ": " ++ dq ++ "string" ++ dq ++ ",");
    ("      " ++ dq ++ "text" ++ dq ++ ": " ++ dq ++ "string" ++ dq ++ ",");
    ("      " ++ dq ++ "actionability" ++ dq ++ ": " ++ dq ++ "string" ++ dq ++ ",");
    ("      " ++ dq ++ "likelyActions" ++ dq ++ ": [" ++ dq ++ "string" ++ dq ++ "],");
    ("      " ++ dq ++ "importance" ++ dq ++ ": " ++ dq ++ "critical|high|medium|low" ++ dq ++ ",");
    ("      " ++ dq ++ "whyItMatters" ++ dq ++ ": " ++ dq ++ "string" ++ dq ++ ",");
    ("      " ++ dq ++ "confidence" ++ dq ++ ": 0.0");
    "    }";
    "  ],";
    ("  " ++ dq ++ "pointsOfInterest" ++ dq ++ ": [");
    "    {";
    ("      " ++ dq ++ "id" ++ dq ++ ": " ++ dq ++ "string" ++ dq ++ ",");
    ("      " ++ dq ++ "gridRef" ++ dq ++ ": " ++ dq ++ "string" ++ dq ++ ",");
    ("      " ++ dq ++ "title" ++ dq ++ ": " ++ dq ++ "string" ++ dq ++ ",");
    ("      " ++ dq ++ "category" ++ dq ++ ": " ++ dq ++ "string" ++ dq ++ ",");
    ("      " ++ dq ++ "detail" ++ dq ++ ": " ++ dq ++ "string" ++ dq ++ ",");
    ("      " ++ dq ++ "reason" ++ dq ++ ": " ++ dq ++ "string" ++ dq ++ ",");
    ("      " ++ dq ++ "relatedElementIds" ++ dq ++ ": [" ++ dq ++ "string" ++ dq ++ "],");
    ("      " ++ dq ++ "confidence" ++ dq ++ ": 0.0");
    "    }";
    "  ],";
    ("  " ++ dq ++ "keyFlows" ++ dq ++ ": [" ++ dq ++ "string" ++ dq ++ "],");
    ("  " ++ dq ++ "risksAndWatchouts" ++ dq ++ ": [" ++ dq ++ "string" ++ dq ++ "],");
    ("  " ++ dq ++ "confidence" ++ dq ++ ": 0.0");
    "}";
    "Requirements:";
    "- Prefer precise grid references and use ranges when an element spans multiple cells.";
    "- Key flows must describe concrete user journeys that are possible from this exact page.";
    "- Confidence values must be numbers from 0 to 1.";
    "- Do not output anything except one valid JSON object." ].

Definition compactRetryLines : list string :=
  [ "- Keep every string short and concrete (roughly <= 12 words per text field).";
    "- Keep arrays minimal while preserving key signal." ].

Definition buildLabelsPrompt
  (detailLevel : DetailLevel) (mode : PromptMode) (range : option GridRange)
  (focus : option string) (compactRetry : bool) : string :=
  let keyAreasOnly := match detailLevel with High => true | Extreme => false end in
  let depthInstruction :=
    if keyAreasOnly
    then "Focus only on key interactive areas and high-value controls for common user actions."
    else "Be exhaustive and highly specific. Include all visible interactive elements and nuanced context." in
  let modeInstruction :=
    match mode with
    | ZoneMode =>
        "This screenshot is a cropped zone for deeper analysis"
        ++ match range with
           | Some r => " (" ++ toUpperCase (rangeStart r) ++ ":"
                       ++ toUpperCase (rangeEnd r) ++ ")"
           | None => ""
           end
        ++ ". Keep all grid references exactly as shown in the image."
    | Full => "This is a full-page analysis pass."
    end in
  let focusInstruction :=
    match focus with
    | Some f => if isEmpty (trim f) then "" else "Primary focus: " ++ trim f
    | None => ""
    end in
  let lines :=
    ([ "You are a senior web UI analyst.";
       "Analyze the provided browser screenshot, which already includes an overlaid grid labeling each cell.";
       "Use those grid labels (for example A1, C4, B2:D4) in your output for locations.";
       modeInstruction;
       depthInstruction;
       focusInstruction ]
     ++ labelsShapeLines
     ++ (if keyAreasOnly
         then [ "- Include only key interactive areas. Skip low-value/legal/footer links unless critical.";
                "- Keep output concise.";
                "- Return at most 4 layoutRegions, 8 interactiveElements, and 5 pointsOfInterest.";
                "- Prioritize critical and high-importance controls." ]
         else [ "- Capture all visible interactive controls, including subtle controls (icon buttons, tabs, dropdown triggers, toggles, search fields, contextual menus)." ])
     ++ (if compactRetry then compactRetryLines else []))%list in
  join newline lines.

(** *** The analysis with its one retry *)

(** The analysis result: the parsed object handed to
    [normalizeLabelsResult] (a total, field-by-field defaulting pass) and the
    model name it is stamped with. *)
Record LabelsResult : Type := mkLabelsResult {
  parsedObject : Json.Value;
  resultModel : string
}.

(** The model API as a script: what the n-th request comes to. *)
Definition Api : Type := nat -> Request -> FetchOutcome.

Record Settings : Type := mkSettings {
  model : string;
  screenshotBase64 : string;
  detailLevel : DetailLevel;
  mode : PromptMode;
  range : option GridRange;
  focus : option string;
  requestTimeoutMs : option Z
}.

(** One pass of the [try] block or of the retry: request, text, object. *)
Definition analyse (api : Api) (n : nat) (s : Settings) (request : Request)
  : Outcome LabelsResult :=
  match geminiGenerateContent (api n request) (requestTimeoutMs s) with
  | Throws e => Throws e
  | Returns (bodyText, data) =>
      match extractGeminiText bodyText data with
      | Throws e => Throws e
      | Returns text =>
          match parseJsonObject text with
          | Throws e => Throws e
          | Returns parsed => Returns (mkLabelsResult parsed (model s))
          end
      end
  end.

(** [/valid JSON object|returned no text content/i.test(String(error))] *)
Definition shouldRetry (e : JsError) : bool :=
  let text := toLowerCase (stringOfError e) in
  includes text "valid json object" || includes text "returned no text content".

Definition firstRequest (s : Settings) : Request :=
  mkRequest (model s)
    (buildLabelsPrompt (detailLevel s) (mode s) (range s) (focus s) false)
    (screenshotBase64 s) (1 # 10).

Definition retryRequest (s : Settings) : Request :=
  mkRequest (model s)
    (buildLabelsPrompt (detailLevel s) (mode s) (range s) (focus s) true)
    (screenshotBase64 s) 0.

(** [runLabelsAnalysis]: the result and the requests made, oldest first. *)
Definition runLabelsAnalysis (api : Api) (s : Settings)
  : Outcome LabelsResult * list Request :=
  match analyse api 0 s (firstRequest s) with
  | Returns r => (Returns r, [firstRequest s])
  | Throws error =>
      if negb (shouldRetry error) then (Throws error, [firstRequest s])
      else (analyse api 1 s (retryRequest s), [firstRequest s; retryRequest s])
  end.

End Labeling.

(** *** Sample inputs of the labeling protocol *)

Module LabelingSpec.
Import JsString Labeling.

(** [parseJsonObject] with the candidates in the spec's order. *)
Definition specParseJsonObject (text : string) : Outcome Json.Value :=
  let trimmed := trim text in
  match firstRecord (specCandidates trimmed) with
  | Some parsed => Returns parsed
  | None =>
      Throws (newError ("Gemini response was not valid JSON object. Raw response: "
                        ++ trimmed))
  end.

(** A JSON object whose one member is a string holding a fenced empty
    object. *)
Definition objectQuotingFence : string :=
  "{" ++ dq ++ "a" ++ dq ++ ":" ++ dq ++ fence ++ "{}" ++ fence ++ dq ++ "}".

(** A JSON object wrapped in a fenced block, with prose around it. *)
Definition fencedAnswer : string :=
  "Here is the analysis:" ++ newline ++ fence ++ "json" ++ newline
  ++ "{" ++ dq ++ "pageSummary" ++ dq ++ ": " ++ dq ++ "Login" ++ dq ++ "}"
  ++ newline ++ fence ++ newline.

Definition settings : Settings :=
  mkSettings "gemini-2.5-pro" "iVBORw0KGgo=" Extreme Full None None None.

Definition respondsText (text : string) : FetchOutcome :=
  Responds 200 "{}" (mkGeminiResponse (Some [mkCandidate (Some [mkPart (Some text)])])).

(** An API that answers every request with the same outcome. *)
Definition always (outcome : FetchOutcome) : Api := fun _ _ => outcome.

(** A server error whose body quotes the words the retry test looks for. *)
Definition quotingServerError : FetchOutcome :=
  Responds 500
    ("{" ++ dq ++ "error" ++ dq ++ ":" ++ dq ++ "body is not a valid JSON object" ++ dq ++ "}")
    (mkGeminiResponse None).

Definition overloaded : FetchOutcome :=
  Responds 503 ("{" ++ dq ++ "error" ++ dq ++ ":" ++ dq ++ "overloaded" ++ dq ++ "}")
    (mkGeminiResponse None).

End LabelingSpec.

(** ** The worker bridge: [runBridge] (chrome-client.ts) and the worker's
       exit paths (cdp-bridge.mjs) *)

Module Bridge.
Import JsString.

Definition BRIDGE_TIMEOUT_MS : Z := 120000.

(** What the child process makes the parent's listeners see. *)
Inductive ChildEvent : Type :=
| StdoutData (chunk : string)
| StderrData (chunk : string)
| ErrorEvent (message : string)              (* 'error': it could not be spawned or killed *)
| Close (code : option Z).                   (* 'close'; no code when a signal ended it *)

(** How the promise is settled. *)
Inductive Settlement : Type :=
| Resolved (value : Json.Value)
| Rejected (message : string)
| RejectedUnparsable (out : string).   (* "Failed to parse bridge output: ... Output: out" *)

Record State : Type := mkState {
  settled : bool;
  stdout : string;
  stderr : string;
  timerPending : bool;                       (* set by setTimeout, unset by clearTimeout *)
  killed : option string;                    (* the signal sent by child.kill *)
  settlements : list Settlement              (* calls of resolve and reject, oldest first *)
}.

(** After [spawn] and [setTimeout(..., BRIDGE_TIMEOUT_MS)]. *)
Definition spawned : State := mkState false "" "" true None [].

Definition opName (op : option string) : string :=
  match op with
  | Some name => name
  | None => "unknown"
  end.

(** The callback handed to [setTimeout]. *)
Definition onTimeout (op : option string) (st : State) : State :=
  if settled st then st
  else
    mkState true (stdout st) (stderr st) (timerPending st) (Some "SIGKILL")
      (settlements st
       ++ [Rejected ("CDP bridge timed out after " ++ ofNumber BRIDGE_TIMEOUT_MS
                     ++ "ms (op: " ++ opName op ++ ").")]).

(** [settle(handler)]: the first call clears the timer and runs the
    handler, which settles the promise with [outcome]. *)
Definition settle (outcome : Settlement) (st : State) : State :=
  if settled st then st
  else
    mkState true (stdout st) (stderr st) false (killed st)
      (settlements st ++ [outcome]).

Definition codeText (code : option Z) : string :=
  match code with
  | Some n => ofNumber n
  | None => "null"
  end.

Definition isZero (code : option Z) : bool :=
  match code with
  | Some n => n =? 0
  | None => false
  end.

(** The handler of 'close'. *)
Definition closeOutcome (code : option Z) (st : State) : Settlement :=
  if negb (isZero code) then
    let message :=
      orElse (trim (stderr st))
        (orElse (trim (stdout st))
           ("CDP bridge failed with exit code " ++ codeText code)) in
    Rejected message
  else
    let out := trim (stdout st) in
    if isEmpty out then Resolved (Json.Object [])
    else
      match Json.parse out with
      | Some value => Resolved value
      | None => RejectedUnparsable out
      end.

Definition onEvent (st : State) (ev : ChildEvent) : State :=
  match ev with
  | StdoutData chunk =>
      mkState (settled st) (stdout st ++ chunk) (stderr st) (timerPending st)
        (killed st) (settlements st)
  | StderrData chunk =>
      mkState (settled st) (stdout st) (stderr st ++ chunk) (timerPending st)
        (killed st) (settlements st)
  | ErrorEvent message => settle (Rejected message) st
  | Close code => settle (closeOutcome code st) st
  end.

(** The timer's turn: the callback runs unless the timer was cleared. *)
Definition timerFires (op : option string) (st : State) : State :=
  if timerPending st then
    let st' := onTimeout op st in
    mkState (settled st') (stdout st') (stderr st') false (killed st') (settlements st')
  else st.

(** One invocation: the events the child produces within the budget, the
    timer's turn at 120000 ms, the events that come after it. *)
Definition atDeadline (op : option string) (before : list ChildEvent) : State :=
  timerFires op (fold_left onEvent before spawned).

Definition runBridge (op : option string) (before after : list ChildEvent) : State :=
  fold_left onEvent after (atDeadline op before).

Definition workerFails (errorText : string) : list ChildEvent :=
  [StderrData errorText; Close (Some 1)].



Definition timeoutMessage (op : option string) : string :=
  "CDP bridge timed out after 120000ms (op: " ++ opName op ++ ").".


End Bridge.

(** *** Further notions and samples of the scanner *)

Module ScannerSamples.
Import Scanner.

(** A 1000x800 viewport whose comparison orders texts by their length. *)
Definition lengthWindow : Window :=
  mkWindow (Some 1%Q) (Some 1000%Q) (Some 800%Q) (Some 1000%Q) (Some 800%Q)
    0%Q 0%Q None
    (fun a b => Z.of_nat (String.length a) - Z.of_nat (String.length b)).


End ScannerSamples.
(** *** Further notions used to state the matcher's properties *)

Module MatcherCases.
Import JsString Matcher.


(** The tests of the two importance levels that add to a score. *)
Definition isCritical (e : UiInteractiveElement) : bool :=
  String.eqb (toLowerCase (importance e)) "critical".
Definition isHigh (e : UiInteractiveElement) : bool :=
  String.eqb (toLowerCase (importance e)) "high".

(** A query that the elements do not contain and that has no letter or
    digit to look for. *)
Definition symbolsOnly (elements : list UiInteractiveElement) (query : string) : Prop :=
  let phrase := toLowerCase query in
  tokensOf phrase = [] /\
  forall e, In e elements -> phraseInCore phrase e = false /\ phraseInAux phrase e = false.

End MatcherCases.

(** ** The worker's actions: [runExecute], [runWithOptionalNavigation],
       [getOrCreatePage] and the normalisers (cdp-bridge.mjs)

    The fields of a task are read at the types the client's [Action] type
    gives them; a field that is absent is [None]. *)

Module Worker.
Import JsString JsNumber.

Definition DEFAULT_WAIT_TIMEOUT_MS : Q := 30000.

(** [String(value || '')] *)
Definition textOr (value : option string) : string :=
  match value with
  | Some s => s
  | None => ""
  end.

(** [Number(value)] of an absent field is NaN, which is not finite. *)
Definition normalizeTimeoutMs (value : option Q) : Q :=
  match value with
  | Some parsed => if Qle_bool parsed 0 then DEFAULT_WAIT_TIMEOUT_MS else parsed
  | None => DEFAULT_WAIT_TIMEOUT_MS
  end.

Definition normalizeTimeoutMsOrUndefined (value : option Q) : option Q :=
  match value with
  | Some parsed => if Qle_bool parsed 0 then None else Some parsed
  | None => None
  end.

Definition normalizeLoadState (value : option string) : string :=
  let state := toLowerCase (textOr value) in
  if String.eqb state "load" || String.eqb state "networkidle" then state
  else "domcontentloaded".

Definition normalizeSelectorWaitState (value : option string) : string :=
  let state := toLowerCase (textOr value) in
  if String.eqb state "attached" || String.eqb state "detached"
     || String.eqb state "hidden"
  then state
  else "visible".

Definition normalizeOptionalString (value : option string) : option string :=
  match value with
  | Some s => orUndefined (trim s)
  | None => None
  end.

Definition requireSelector (value : option string) : result string :=
  let selector := trim (textOr value) in
  if isEmpty selector then Throw "selector is required." else Ok selector.

(** The [waitForNavigation] field: absent or [false], [true], or an
    options object. *)
Record NavigationWaitOptions : Type := mkNavigationWaitOptions {
  optionsWaitUntil : option string;
  optionsTimeoutMs : option Q;
  optionsUrlIncludes : option string;
  optionsUrlMatches : option string
}.

Inductive NavigationWait : Type :=
| NoWait
| WaitDefault
| WaitWith (options : NavigationWaitOptions).

Record WaitConfig : Type := mkWaitConfig {
  configTimeoutMs : Q;
  configWaitUntil : string;
  configUrlIncludes : option string;
  configUrlMatches : option string
}.

Definition normalizeNavigationWait (value : NavigationWait) : option WaitConfig :=
  match value with
  | NoWait => None
  | WaitDefault =>
      Some (mkWaitConfig DEFAULT_WAIT_TIMEOUT_MS "domcontentloaded" None None)
  | WaitWith options =>
      let trimmed (field : option string) :=
        match field with
        | Some s => orUndefined (trim s)
        | None => None
        end in
      Some (mkWaitConfig
              (match optionsTimeoutMs options with
               | Some timeoutMs =>
                   if Qltb 0 timeoutMs then timeoutMs else DEFAULT_WAIT_TIMEOUT_MS
               | None => DEFAULT_WAIT_TIMEOUT_MS
               end)
              (normalizeLoadState (optionsWaitUntil options))
              (trimmed (optionsUrlIncludes options))
              (trimmed (optionsUrlMatches options)))
  end.

(** *** Calls on the page *)

Inductive UrlTest : Type :=
| UrlIncludes (text : string)        (* url => String(url).includes(text) *)
| UrlMatches (pattern : string).     (* new RegExp(pattern) *)

Inductive PageCall : Type :=
| Click (selector : string)
| Fill (selector value : string)
| TypeText (selector text : string)
| SelectOption (selector value : string)
| EvalSubmit (selector : string)                 (* page.$eval(selector, submit) *)
| WaitForLoadState (state : string) (timeout : Q)
| WaitForSelector (selector state : string) (timeout : Q)
| WaitForURL (test : UrlTest) (timeout : Q) (waitUntil : string)
| WaitForNavigation (waitUntil : string) (timeout : Q)
| MouseWheel (deltaX deltaY : Q)
| Goto (url waitUntil : string) (timeout : option Q).

(** The page as the worker meets it: the error with which a call is
    rejected, if it is; the error of [new RegExp(pattern)], if the pattern
    is not one; and, when a navigation wait and the action that triggers it
    both fail, whether the wait's failure is seen first. *)
Record Page : Type := mkPage {
  rejects : PageCall -> option string;
  regExpError : string -> option string;
  waitFailsFirst : PageCall -> bool
}.

(** A run of worker code: the calls made on the page, oldest first, and
    the value returned or the error thrown. *)
Definition Run (A : Type) : Type := (list PageCall * result A)%type.

Definition ret {A : Type} (a : A) : Run A := ([], Ok a).
Definition raise {A : Type} (message : string) : Run A := ([], Throw message).
Definition lift {A : Type} (r : result A) : Run A := ([], r).

Definition andThen {A B : Type} (r : Run A) (k : A -> Run B) : Run B :=
  match r with
  | (calls, Ok a) => let (calls', r') := k a in ((calls ++ calls')%list, r')
  | (calls, Throw m) => (calls, Throw m)
  end.

(** [await page.method(...)] *)
Definition await (page : Page) (c : PageCall) : Run unit :=
  ([c], match rejects page c with
        | Some m => Throw m
        | None => Ok tt
        end).

(** [new RegExp(pattern)] *)
Definition newRegExp (page : Page) (pattern : string) : result UrlTest :=
  match regExpError page pattern with
  | Some m => Throw m
  | None => Ok (UrlMatches pattern)
  end.

(** An optional text that is truthy. *)
Definition truthy (field : option string) : option string :=
  match field with
  | Some s => orUndefined s
  | None => None
  end.

(** [await Promise.all([waitPromise, trigger()])]: the wait is under way
    when the trigger runs; the first failure seen is the outcome. *)
Definition awaitBoth (page : Page) (wait : PageCall) (trigger : Run unit) : Run unit :=
  let (calls, triggered) := trigger in
  ((wait :: calls)%list,
   match rejects page wait, triggered with
   | None, r => r
   | Some mw, Ok _ => Throw mw
   | Some mw, Throw mt => if waitFailsFirst page wait then Throw mw else Throw mt
   end).

Definition runWithOptionalNavigation
  (page : Page) (waitForNavigation : NavigationWait) (trigger : Run unit) : Run unit :=
  match normalizeNavigationWait waitForNavigation with
  | None => trigger
  | Some waitConfig =>
      let timeout := configTimeoutMs waitConfig in
      let waitUntil := normalizeLoadState (Some (configWaitUntil waitConfig)) in
      match truthy (configUrlIncludes waitConfig) with
      | Some includes =>
          awaitBoth page (WaitForURL (UrlIncludes includes) timeout waitUntil) trigger
      | None =>
          match truthy (configUrlMatches waitConfig) with
          | Some pattern =>
              match newRegExp page pattern with
              | Throw m => raise m
              | Ok test => awaitBoth page (WaitForURL test timeout waitUntil) trigger
              end
          | None => awaitBoth page (WaitForNavigation waitUntil timeout) trigger
          end
      end
  end.

Record Action : Type := mkAction {
  type : option string;
  selector : option string;
  text : option string;
  value : option string;
  waitForNavigation : NavigationWait;
  state : option string;
  timeoutMs : option Q;
  urlIncludes : option string;
  urlMatches : option string;
  direction : option string;
  amount : option Q;
  url : option string;
  waitUntil : option string
}.

(** [payload.action || {}] *)
Definition emptyAction : Action :=
  mkAction None None None None NoWait None None None None None None None None.

(** [String(action.type)] *)
Definition typeText (t : option string) : string :=
  match t with
  | Some s => s
  | None => "undefined"
  end.

Definition isType (action : Action) (name : string) : bool :=
  match type action with
  | Some t => String.eqb t name
  | None => false
  end.

(** [Number(action.amount || 500)] *)
Definition scrollAmount (amount : option Q) : Q :=
  match amount with
  | Some a => if Qeq_bool a 0 then 500 else a
  | None => 500
  end.

Definition runExecute (page : Page) (action : option Action) : Run unit :=
  match action with
  | None => raise "Missing execute action."
  | Some action =>
      if isType action "click" then
        runWithOptionalNavigation page (waitForNavigation action)
          (andThen (lift (requireSelector (selector action)))
             (fun selector => await page (Click selector)))
      else if isType action "type" then
        andThen (lift (requireSelector (selector action))) (fun selector =>
        andThen (await page (Fill selector "")) (fun _ =>
        await page (TypeText selector (textOr (text action)))))
      else if isType action "select" then
        andThen (lift (requireSelector (selector action))) (fun selector =>
        await page (SelectOption selector (textOr (value action))))
      else if isType action "submit" then
        andThen (lift (requireSelector (selector action))) (fun selector =>
        runWithOptionalNavigation page (waitForNavigation action)
          (await page (EvalSubmit selector)))
      else if isType action "waitForLoadState" then
        await page (WaitForLoadState (normalizeLoadState (state action))
                      (normalizeTimeoutMs (timeoutMs action)))
      else if isType action "waitForSelector" then
        andThen (lift (requireSelector (selector action))) (fun selector =>
        await page (WaitForSelector selector
                      (normalizeSelectorWaitState (state action))
                      (normalizeTimeoutMs (timeoutMs action))))
      else if isType action "waitForUrl" then
        let timeout := normalizeTimeoutMs (timeoutMs action) in
        let includes := normalizeOptionalString (urlIncludes action) in
        let matches := normalizeOptionalString (urlMatches action) in
        match includes, matches with
        | None, None => raise "waitForUrl requires urlIncludes or urlMatches."
        | Some includes, _ =>
            await page (WaitForURL (UrlIncludes includes) timeout "domcontentloaded")
        | None, Some pattern =>
            andThen (lift (newRegExp page pattern)) (fun test =>
            await page (WaitForURL test timeout "domcontentloaded"))
        end
      else if isType action "scroll" then
        let amount := scrollAmount (amount action) in
        let delta :=
          match direction action with
          | Some d => if String.eqb d "up" then (- amount)%Q else amount
          | None => amount
          end in
        await page (MouseWheel 0 delta)
      else if isType action "navigate" then
        await page (Goto (textOr (url action)) (normalizeLoadState (waitUntil action))
                      (normalizeTimeoutMsOrUndefined (timeoutMs action)))
      else raise ("Unknown action type: " ++ typeText (type action))
  end.

(** The [execute] branch of the worker's [main]. *)
Definition executeOp (page : Page) (payloadAction : option Action) : Run unit :=
  runExecute page (Some (match payloadAction with
                         | Some action => action
                         | None => emptyAction
                         end)).

Definition waitForOptionalLoadState
  (page : Page) (waitUntil : option string) (timeoutMs : option Q) : Run unit :=
  match waitUntil, timeoutMs with
  | None, None => ret tt
  | _, _ => await page (WaitForLoadState (normalizeLoadState waitUntil)
                          (normalizeTimeoutMs timeoutMs))
  end.

(** *** [getOrCreatePage] *)

Inductive PageChoice : Type :=
| NewPage                      (* context.newPage() *)
| Existing (index : nat).      (* context.pages()[index] *)

Definition showsContent (pageUrl : string) : bool :=
  negb (String.eqb pageUrl "about:blank") && negb (String.eqb pageUrl "chrome://newtab/").

(** [pages.find(predicate)] as the index of the page found. *)
Fixpoint findIndex (predicate : string -> bool) (urls : list string) : option nat :=
  match urls with
  | [] => None
  | pageUrl :: rest =>
      if predicate pageUrl then Some O else option_map S (findIndex predicate rest)
  end.

(** [getOrCreatePage] on the urls of [context.pages()]. *)
Definition getOrCreatePage (urls : list string) (forceNew : bool) : PageChoice :=
  if forceNew then NewPage
  else
    match findIndex showsContent urls with
    | Some i => Existing i
    | None =>
        match urls with
        | _ :: _ => Existing O
        | [] => NewPage
        end
    end.

End Worker.

(** *** What a well-formed call on the page is *)

Module WorkerSpec.
Import JsString Worker.

Definition isLoadState (s : string) : bool :=
  String.eqb s "load" || String.eqb s "networkidle" || String.eqb s "domcontentloaded".

Definition isSelectorState (s : string) : bool :=
  String.eqb s "attached" || String.eqb s "detached"
  || String.eqb s "hidden" || String.eqb s "visible".

(** A text that is not empty and has no white space around it. *)
Definition isTrimmed (s : string) : bool :=
  negb (isEmpty s) && String.eqb (trim s) s.

Definition selectorOf (c : PageCall) : option string :=
  match c with
  | Click s | Fill s _ | TypeText s _ | SelectOption s _ | EvalSubmit s
  | WaitForSelector s _ _ => Some s
  | _ => None
  end.

Definition timeoutOf (c : PageCall) : option Q :=
  match c with
  | WaitForLoadState _ t | WaitForSelector _ _ t | WaitForURL _ t _
  | WaitForNavigation _ t => Some t
  | Goto _ _ t => t
  | _ => None
  end.

Definition loadStateOf (c : PageCall) : option string :=
  match c with
  | WaitForLoadState s _ | WaitForURL _ _ s | WaitForNavigation s _ | Goto _ s _ => Some s
  | _ => None
  end.

Definition holds {A : Type} (p : A -> bool) (x : option A) : bool :=
  match x with
  | Some a => p a
  | None => true
  end.

(** [0 < q] *)
Definition isPositive (q : Q) : bool := JsNumber.Qltb 0 q.

Definition wellFormed (c : PageCall) : bool :=
  holds isTrimmed (selectorOf c)
  && holds isPositive (timeoutOf c)
  && holds isLoadState (loadStateOf c)
  && match c with
     | WaitForSelector _ state _ => isSelectorState state
     | WaitForURL (UrlIncludes text) _ _ => isTrimmed text
     | WaitForURL (UrlMatches pattern) _ _ => isTrimmed pattern
     | MouseWheel deltaX _ => Qeq_bool deltaX 0
     | _ => true
     end.

(** What the calls of an action with (trimmed) selector [s] must satisfy. *)
Definition callsFit (s : string) (calls : list PageCall) : Prop :=
  forallb wellFormed calls = true /\
  forall c t, In c calls -> selectorOf c = Some t -> t = s.

(** The actions that name an element. *)
Definition namesElement (action : Action) : bool :=
  isType action "click" || isType action "type" || isType action "select"
  || isType action "submit" || isType action "waitForSelector".

(** A page on which every call is fulfilled. *)
Definition calmPage : Page := mkPage (fun _ => None) (fun _ => None) (fun _ => false).

End WorkerSpec.
(** ** The configuration: [getAuthConfig] (auth.ts), [getCdpUrl],
       [daemonArgs], [waitForCdp] and [launchDaemon] (chrome-client.ts) *)

Module Auth.
Import JsString.

Record Env : Type := mkEnv {
  GEMINI_API_KEY : option string;
  CHROME_PATH : option string;
  CHROME_USER_DATA_DIR : option string;
  CHROME_HEADLESS : option string;
  CHROME_REMOTE_DEBUGGING_PORT : option string;
  CHROME_CDP_URL : option string;
  CHROME_AUTO_LAUNCH : option string
}.

Record AuthConfig : Type := mkAuthConfig {
  chromePath : string;
  userDataDir : option string;
  headless : bool;
  remoteDebuggingPort : Z;
  cdpUrl : option string;
  autoLaunch : bool
}.

(** What the configuration reads from the machine: [process.platform],
    whether the macOS application exists, and
    [join(homedir(), '.profiles', 'kazibee')]. *)
Record Host : Type := mkHost {
  platform : string;
  macChromeExists : bool;
  defaultUserDataDir : string
}.

(** [value?.trim()] followed by a truthiness test: the trimmed text when
    there is one and it is not empty. *)
Definition trimmedOrNone (value : option string) : option string :=
  match value with
  | Some s => orUndefined (trim s)
  | None => None
  end.

Definition resolveChromePath (host : Host) (explicitPath : option string) : string :=
  match trimmedOrNone explicitPath with
  | Some configuredPath => configuredPath
  | None =>
      if String.eqb (platform host) "darwin" && macChromeExists host
      then "/Applications/Google Chrome.app/Contents/MacOS/Google Chrome"
      else if String.eqb (platform host) "win32" then "chrome.exe"
      else "google-chrome"
  end.

Definition parseBool (value : option string) : bool :=
  match value with
  | Some v =>
      if isEmpty v then false
      else existsb (String.eqb (toLowerCase (trim v))) ["1"; "true"; "yes"; "on"]
  | None => false
  end.

(** [Number.parseInt(s, 10)]: leading white space is skipped, a sign is
    read, then the longest run of decimal digits; [None] is NaN. *)
Definition numberParseInt (s : string) : option Z :=
  let s := trimStart s in
  let signed :=
    match s with
    | String c rest =>
        if (charCode c =? 45) then (-1, rest)
        else if (charCode c =? 43) then (1, rest)
        else (1, s)
    | EmptyString => (1, s)
    end in
  let digits := takeWhile isDigit (snd signed) in
  if isEmpty digits then None else Some (fst signed * parseDigits 0 digits).

Definition parsePort (value : option string) (defaultPort : Z) : Z :=
  match value with
  | Some v =>
      if isEmpty v then defaultPort
      else
        match numberParseInt v with
        | None => defaultPort
        | Some parsed =>
            if (parsed <=? 0) || (parsed >? 65535) then defaultPort else parsed
        end
  | None => defaultPort
  end.

Definition resolveUserDataDir (host : Host) (explicitDir : option string) : string :=
  match trimmedOrNone explicitDir with
  | Some configured => configured
  | None => defaultUserDataDir host
  end.

Definition getAuthConfig (host : Host) (env : Env) : AuthConfig :=
  mkAuthConfig
    (resolveChromePath host (CHROME_PATH env))
    (Some (resolveUserDataDir host (CHROME_USER_DATA_DIR env)))
    (parseBool (CHROME_HEADLESS env))
    (parsePort (CHROME_REMOTE_DEBUGGING_PORT env) 9222)
    (trimmedOrNone (CHROME_CDP_URL env))
    (match CHROME_AUTO_LAUNCH env with
     | Some v => if isEmpty v then true else parseBool (Some v)
     | None => true
     end).

End Auth.

Module Daemon.
Import JsString Auth.

Definition CDP_WAIT_TIMEOUT_MS : Z := 12000.

Definition getCdpUrl (config : AuthConfig) : string :=
  match cdpUrl config with
  | Some u => if isEmpty u then "http://127.0.0.1:" ++ ofNumber (remoteDebuggingPort config)
              else u
  | None => "http://127.0.0.1:" ++ ofNumber (remoteDebuggingPort config)
  end.

Definition daemonArgs (config : AuthConfig) : list string :=
  ([ ("--remote-debugging-port=" ++ ofNumber (remoteDebuggingPort config))%string;
     "--remote-debugging-address=127.0.0.1";
     "--remote-allow-origins=*";
     "--no-first-run";
     "--no-default-browser-check" ]
   ++ match userDataDir config with
      | Some dir => if isEmpty dir then [] else [("--user-data-dir=" ++ dir)%string]
      | None => []
      end
   ++ (if headless config then ["--headless=new"; "--disable-gpu"] else [])
   ++ ["about:blank"])%list.

Record LaunchResult : Type := mkLaunchResult {
  pid : option Z;
  command : string;
  args : list string;
  resultCdpUrl : string;
  launched : bool
}.

(** What the client meets while it waits for Chrome: whether the n-th
    request to [/json/version] is answered with an ok status, the n-th
    reading of [Date.now()], and the process id of the child it spawns. *)
Record Machine : Type := mkMachine {
  reachable : nat -> bool;
  now : nat -> Z;
  childPid : option Z
}.

(** The counters of a launch: requests made, clock readings taken, and
    whether a child was spawned. *)
Record Progress : Type := mkProgress {
  requests : nat;
  readings : nat;
  spawned : bool
}.

(** The [while (Date.now() - start < timeoutMs)] loop of [waitForCdp];
    [None] when the fuel is used up before the loop ends. *)
Fixpoint waitLoop (fuel : nat) (m : Machine) (start timeoutMs : Z) (p : Progress)
  : option (bool * Progress) :=
  match fuel with
  | O => None
  | S fuel' =>
      let p1 := mkProgress (requests p) (S (readings p)) (spawned p) in
      if now m (readings p) - start <? timeoutMs then
        let p2 := mkProgress (S (requests p1)) (readings p1) (spawned p1) in
        if reachable m (requests p1) then Some (true, p2)
        else waitLoop fuel' m start timeoutMs p2     (* after the 250 ms timer *)
      else Some (false, p1)
  end.

Definition waitForCdp (fuel : nat) (m : Machine) (timeoutMs : Z) (p : Progress)
  : option (bool * Progress) :=
  let start := now m (readings p) in
  waitLoop fuel m start timeoutMs (mkProgress (requests p) (S (readings p)) (spawned p)).

Definition spawnDaemon (m : Machine) (config : AuthConfig) : LaunchResult :=
  mkLaunchResult (childPid m) (chromePath config) (daemonArgs config)
    (getCdpUrl config) true.

(** [launchDaemon]: the result or the error, and the progress made. *)
Definition launchDaemon (fuel : nat) (m : Machine) (config : AuthConfig)
  : option (result LaunchResult * Progress) :=
  let cdpUrl := getCdpUrl config in
  if reachable m O
  then Some (Ok (mkLaunchResult None (chromePath config) (daemonArgs config) cdpUrl false),
             mkProgress 1 0 false)
  else
    let launchResult := spawnDaemon m config in
    match waitForCdp fuel m CDP_WAIT_TIMEOUT_MS (mkProgress 1 0 true) with
    | None => None
    | Some (ready, p) =>
        if negb ready
        then Some (Throw ("Unable to connect to Chrome CDP at " ++ cdpUrl
                          ++ " after launch."), p)
        else Some (Ok launchResult, p)
    end.

End Daemon.

(** *** A sample machine *)

Module DaemonSpec.
Import Daemon.


(** Chrome answers the sixth request; the clock advances 300 ms a
    reading. *)
Definition slowStart : Machine :=
  mkMachine (fun n => Nat.eqb n 5) (fun n => 1000 + 300 * Z.of_nat n) (Some 4242).

End DaemonSpec.
(** ** Finding one element: [findInteractiveElement] (chrome-client.ts) *)

Module Finder.
Import JsString Labeling Matcher.

(** What [labels] comes to at a detail level: the interactive elements of
    its result, or the error it throws.  Each level is asked for at most
    once. *)
Definition LabelsPass : Type := DetailLevel -> Outcome (list UiInteractiveElement).

Definition noMatchMessage (normalizedQuery : string) (count : Z) : string :=
  "No interactive element matched query " ++ dq ++ normalizedQuery ++ dq
  ++ " from " ++ ofNumber count ++ " Gemini-labeled elements.".

(** [findInteractiveElement]: the element or the error, and the detail
    levels asked for, oldest first. *)
Definition findInteractiveElement (labels : LabelsPass) (query : string)
  : Outcome UiInteractiveElement * list DetailLevel :=
  let normalizedQuery := trim query in
  if isEmpty normalizedQuery
  then (Throws (newError "findInteractiveElement() requires a non-empty query."), [])
  else
    match labels High with
    | Throws error => (Throws error, [High])
    | Returns high =>
        match findBestInteractiveElement high normalizedQuery with
        | Some highMatch => (Returns highMatch, [High])
        | None =>
            match labels Extreme with
            | Throws error => (Throws error, [High; Extreme])
            | Returns extreme =>
                match findBestInteractiveElement extreme normalizedQuery with
                | Some extremeMatch => (Returns extremeMatch, [High; Extreme])
                | None =>
                    (Throws (newError
                               (noMatchMessage normalizedQuery
                                  (Z.of_nat (List.length high)
                                   + Z.of_nat (List.length extreme)))),
                     [High; Extreme])
                end
            end
        end
    end.

End Finder.
(** ** Reading the model's answer: [normalizeLabelsResult],
       [normalizeOverviewResult] and their helpers (chrome-client.ts)

    The answer is a parsed JSON object whose texts need not be ASCII, so
    texts are sequences of UTF-16 code units here.  The conversions between
    numbers and texts that JavaScript itself defines are a parameter. *)

Module Normalize.
Import JsString.

Definition Text : Type := list N.

(** The code units of an ASCII text. *)
Definition unitsOf (s : string) : Text :=
  List.map N_of_ascii (list_ascii_of_string s).

(** White space and line terminators, which [trim] removes. *)
Definition isSpaceUnit (u : N) : bool :=
  (((9 <=? u) && (u <=? 13)) || (u =? 32) || (u =? 160) || (u =? 5760)
   || ((8192 <=? u) && (u <=? 8202)) || (u =? 8232) || (u =? 8233) || (u =? 8239)
   || (u =? 8287) || (u =? 12288) || (u =? 65279))%N.

Fixpoint dropSpaces (t : Text) : Text :=
  match t with
  | [] => []
  | u :: rest => if isSpaceUnit u then dropSpaces rest else t
  end.

Definition trim (t : Text) : Text := rev (dropSpaces (rev (dropSpaces t))).

Definition isBlank (t : Text) : bool :=
  match t with
  | [] => true
  | _ => false
  end.

(** [parts.join(separator)] *)
Fixpoint join (separator : Text) (parts : list Text) : Text :=
  match parts with
  | [] => []
  | [part] => part
  | part :: rest => (part ++ separator ++ join separator rest)%list
  end.

(** A Number value. *)
Inductive JsNum : Type :=
| NaN
| Infinite (negative : bool)
| Finite (q : Q).

(** The conversions of the language: the Number value of a JSON number
    literal, its rendering by [String], and the Number value of a text. *)
Record Runtime : Type := mkRuntime {
  numberOfLiteral : string -> JsNum;
  numberToString : string -> Text;
  stringToNumber : Text -> JsNum
}.

Section WithRuntime.
Variable rt : Runtime.

(** [String(value)]; the elements of an array are joined by commas, null
    ones as empty texts. *)
Fixpoint toText (v : Json.Value) : Text :=
  match v with
  | Json.Null => unitsOf "null"
  | Json.Boolean b => unitsOf (if b then "true" else "false")
  | Json.Number literal => numberToString rt literal
  | Json.Text units => units
  | Json.Array items =>
      join (unitsOf ",")
        (List.map (fun item =>
                     match item with
                     | Json.Null => []
                     | _ => toText item
                     end) items)
  | Json.Object _ => unitsOf "[object Object]"
  end.

(** [String(value ?? '')]; [None] is [undefined]. *)
Definition textOrEmpty (value : option Json.Value) : Text :=
  match value with
  | None | Some Json.Null => []
  | Some v => toText v
  end.

(** [Number(value)] *)
Definition toNumber (value : option Json.Value) : JsNum :=
  match value with
  | None => NaN
  | Some Json.Null => Finite 0
  | Some (Json.Boolean b) => Finite (if b then 1 else 0)
  | Some (Json.Number literal) => numberOfLiteral rt literal
  | Some (Json.Text units) => stringToNumber rt units
  | Some v => stringToNumber rt (toText v)
  end.

(** [record[key]] for an object made by [JSON.parse]: the last member of
    that name. *)
Fixpoint get (key : Text) (members : list (Text * Json.Value)) : option Json.Value :=
  match members with
  | [] => None
  | (k, v) :: rest =>
      match get key rest with
      | Some later => Some later
      | None => if list_eq_dec N.eq_dec k key then Some v else None
      end
  end.

Definition field (key : string) (members : list (Text * Json.Value)) : option Json.Value :=
  get (unitsOf key) members.

Definition toArray (value : option Json.Value) : list Json.Value :=
  match value with
  | Some (Json.Array items) => items
  | _ => []
  end.

Definition toRecord (value : Json.Value) : list (Text * Json.Value) :=
  match value with
  | Json.Object members => members
  | _ => []
  end.

Definition toNonEmptyString (value : option Json.Value) (fallback : Text) : Text :=
  let text := trim (textOrEmpty value) in
  if isBlank text then fallback else text.

Definition toOptionalString (value : option Json.Value) : option Text :=
  let text := trim (textOrEmpty value) in
  if isBlank text then None else Some text.

Definition toStringArray (value : option Json.Value) : list Text :=
  match value with
  | Some (Json.Array items) =>
      filter (fun text => negb (isBlank text))
        (List.map (fun entry => trim (textOrEmpty (Some entry))) items)
  | _ => []
  end.

Definition toConfidence (value : option Json.Value) : Q :=
  match toNumber value with
  | Finite parsed =>
      if JsNumber.Qltb parsed 0 then 0
      else if JsNumber.Qltb 1 parsed then 1
      else parsed
  | _ => 0
  end.

Record UiLayoutRegion : Type := mkUiLayoutRegion {
  regionId : Text;
  regionGridRange : Text;
  regionType : Text;
  purpose : Text;
  keyContents : list Text
}.

Record UiInteractiveElement : Type := mkUiInteractiveElement {
  id : Text;
  gridRef : Text;
  elementType : Text;
  role : option Text;
  text : Text;
  actionability : Text;
  likelyActions : list Text;
  importance : Text;
  whyItMatters : Text;
  confidence : Q
}.

Record UiPointOfInterest : Type := mkUiPointOfInterest {
  poiId : Text;
  poiGridRef : Text;
  title : Text;
  category : Text;
  detail : Text;
  reason : Text;
  relatedElementIds : list Text;
  poiConfidence : Q
}.

Record UiLabelsResult : Type := mkUiLabelsResult {
  pageSummary : Text;
  pageType : Text;
  layoutRegions : list UiLayoutRegion;
  interactiveElements : list UiInteractiveElement;
  pointsOfInterest : list UiPointOfInterest;
  keyFlows : list Text;
  risksAndWatchouts : list Text;
  resultConfidence : Q;
  model : string
}.

Record UiOverviewRegion : Type := mkUiOverviewRegion {
  gridRange : Text;
  description : Text
}.

Record UiOverviewResult : Type := mkUiOverviewResult {
  overviewSummary : Text;
  overviewType : Text;
  regions : list UiOverviewRegion;
  overviewConfidence : Q;
  overviewModel : string
}.

(** [items.map((item, index) => f(item, index))], counting from [index]. *)
Fixpoint mapFrom {A B : Type} (f : A -> Z -> B) (index : Z) (items : list A) : list B :=
  match items with
  | [] => []
  | item :: rest => f item index :: mapFrom f (index + 1) rest
  end.

(** The fallback id [`${prefix}${index + 1}`]. *)
Definition numbered (prefix : string) (index : Z) : Text :=
  unitsOf (prefix ++ ofNumber (index + 1)).

Definition normalizeInteractiveElement
  (value : list (Text * Json.Value)) (fallbackId : Text) : UiInteractiveElement :=
  mkUiInteractiveElement
    (toNonEmptyString (field "id" value) fallbackId)
    (toNonEmptyString (field "gridRef" value) [])
    (toNonEmptyString (field "elementType" value) (unitsOf "unknown"))
    (toOptionalString (field "role" value))
    (toNonEmptyString (field "text" value) [])
    (toNonEmptyString (field "actionability" value) [])
    (toStringArray (field "likelyActions" value))
    (toNonEmptyString (field "importance" value) (unitsOf "unknown"))
    (toNonEmptyString (field "whyItMatters" value) [])
    (toConfidence (field "confidence" value)).

Definition normalizeLabelsResult
  (value : list (Text * Json.Value)) (model : string) : UiLabelsResult :=
  let layoutRegions :=
    mapFrom (fun item index =>
               let region := toRecord item in
               mkUiLayoutRegion
                 (toNonEmptyString (field "id" region) (numbered "region_" index))
                 (toNonEmptyString (field "gridRange" region) [])
                 (toNonEmptyString (field "regionType" region) (unitsOf "unknown"))
                 (toNonEmptyString (field "purpose" region) [])
                 (toStringArray (field "keyContents" region)))
      0 (toArray (field "layoutRegions" value)) in
  let interactiveElements :=
    mapFrom (fun item index =>
               let element := toRecord item in
               normalizeInteractiveElement element (numbered "element_" index))
      0 (toArray (field "interactiveElements" value)) in
  let pointsOfInterest :=
    mapFrom (fun item index =>
               let poi := toRecord item in
               mkUiPointOfInterest
                 (toNonEmptyString (field "id" poi) (numbered "poi_" index))
                 (toNonEmptyString (field "gridRef" poi) [])
                 (toNonEmptyString (field "title" poi) [])
                 (toNonEmptyString (field "category" poi) (unitsOf "unknown"))
                 (toNonEmptyString (field "detail" poi) [])
                 (toNonEmptyString (field "reason" poi) [])
                 (toStringArray (field "relatedElementIds" poi))
                 (toConfidence (field "confidence" poi)))
      0 (toArray (field "pointsOfInterest" value)) in
  mkUiLabelsResult
    (toNonEmptyString (field "pageSummary" value) [])
    (toNonEmptyString (field "pageType" value) (unitsOf "unknown"))
    layoutRegions
    interactiveElements
    pointsOfInterest
    (toStringArray (field "keyFlows" value))
    (toStringArray (field "risksAndWatchouts" value))
    (toConfidence (field "confidence" value))
    model.

Definition normalizeOverviewResult
  (value : list (Text * Json.Value)) (model : string) : UiOverviewResult :=
  let directRegions :=
    List.map (fun item =>
                let region := toRecord item in
                mkUiOverviewRegion
                  (toNonEmptyString (field "gridRange" region) [])
                  (toNonEmptyString (field "description" region) []))
      (toArray (field "regions" value)) in
  let fallbackRegions :=
    List.map (fun item =>
                let region := toRecord item in
                let purpose := toNonEmptyString (field "purpose" region) [] in
                let keyContents :=
                  join (unitsOf ", ") (toStringArray (field "keyContents" region)) in
                let description :=
                  join (unitsOf " | ")
                    (filter (fun part => negb (isBlank part)) [purpose; keyContents]) in
                mkUiOverviewRegion
                  (toNonEmptyString (field "gridRange" region) [])
                  (if isBlank description then unitsOf "Region" else description))
      (toArray (field "layoutRegions" value)) in
  let regions :=
    match directRegions with
    | [] => fallbackRegions
    | _ => directRegions
    end in
  mkUiOverviewResult
    (toNonEmptyString (field "pageSummary" value) [])
    (toNonEmptyString (field "pageType" value) (unitsOf "unknown"))
    (firstn 8
       (filter (fun region => negb (isBlank (gridRange region))
                              && negb (isBlank (description region)))
          regions))
    (toConfidence (field "confidence" value))
    model.

End WithRuntime.

End Normalize.

(** *** Notions and samples used to state the normaliser's properties *)

Module NormalizeSpec.
Import Normalize.


(** The region an entry of the answer's [regions] is read as. *)
Definition directRegion (rt : Runtime) (item : Json.Value) : UiOverviewRegion :=
  mkUiOverviewRegion
    (toNonEmptyString rt (field "gridRange" (toRecord item)) [])
    (toNonEmptyString rt (field "description" (toRecord item)) []).

(** A runtime that knows the numerals of the samples. *)
Definition sampleRuntime : Runtime :=
  mkRuntime
    (fun literal =>
       if String.eqb literal "0.9" then Finite (9 # 10)
       else if String.eqb literal "7" then Finite 7
       else if String.eqb literal "-1" then Finite (-1)
       else NaN)
    (fun literal => unitsOf literal)
    (fun _ => NaN).

(** An answer whose second element has neither id nor type and a
    confidence of 7. *)
Definition sampleAnswer : string :=
  "{" ++ Labeling.dq ++ "interactiveElements" ++ Labeling.dq ++ ": [{"
  ++ Labeling.dq ++ "id" ++ Labeling.dq ++ ": " ++ Labeling.dq ++ " save " ++ Labeling.dq ++ ", "
  ++ Labeling.dq ++ "confidence" ++ Labeling.dq ++ ": 0.9}, {"
  ++ Labeling.dq ++ "likelyActions" ++ Labeling.dq ++ ": [" ++ Labeling.dq ++ " click "
  ++ Labeling.dq ++ ", null, " ++ Labeling.dq ++ "  " ++ Labeling.dq ++ "], "
  ++ Labeling.dq ++ "confidence" ++ Labeling.dq ++ ": 7}, null], "
  ++ Labeling.dq ++ "confidence" ++ Labeling.dq ++ ": -1}".

End NormalizeSpec.
(** ** The overview analysis: [buildOverviewPrompt] and
       [runOverviewAnalysis] (chrome-client.ts) *)

Module Overview.
Import JsString Labeling.

(** The fixed lines of the overview prompt. *)
Definition overviewLines : list string :=
  [ "You are a senior web UI analyst.";
    "Analyze the browser screenshot with grid labels.";
    "Return ONLY JSON (no markdown) with this exact shape:";
    "{";
    ("  " ++ dq ++ "pageSummary" ++ dq ++ ": " ++ dq ++ "string" ++ dq ++ ",");
    ("  " ++ dq ++ "pageType" ++ dq ++ ": " ++ dq ++ "string" ++ dq ++ ",");
    ("  " ++ dq ++ "regions" ++ dq ++ ": [");
    "    {";
    ("      " ++ dq ++ "gridRange" ++ dq ++ ": " ++ dq ++ "string" ++ dq ++ ",");
    ("      " ++ dq ++ "description" ++ dq ++ ": " ++ dq ++ "string" ++ dq);
    "    }";
    "  ],";
    ("  " ++ dq ++ "confidence" ++ dq ++ ": 0.0");
    "}";
    "Requirements:";
    "- Include only the most important visible regions.";
    "- Keep descriptions short and concrete.";
    "- Return at most 6 regions.";
    "- Confidence must be 0..1.";
    "- Do not output anything except one valid JSON object." ].

Definition buildOverviewPrompt (compactRetry : bool) : string :=
  join newline
    (overviewLines
     ++ (if compactRetry then ["- Keep each description to 5-10 words."] else []))%list.

Record Settings : Type := mkSettings {
  model : string;
  screenshotBase64 : string;
  requestTimeoutMs : option Z
}.

(** One pass of the [try] block or of the retry: request, text, object,
    normalised overview. *)
Definition analyse
  (rt : Normalize.Runtime) (api : Api) (n : nat) (s : Settings) (request : Request)
  : Outcome Normalize.UiOverviewResult :=
  match geminiGenerateContent (api n request) (requestTimeoutMs s) with
  | Throws e => Throws e
  | Returns (bodyText, data) =>
      match extractGeminiText bodyText data with
      | Throws e => Throws e
      | Returns text =>
          match parseJsonObject text with
          | Throws e => Throws e
          | Returns parsed =>
              Returns (Normalize.normalizeOverviewResult rt (Normalize.toRecord parsed)
                         (model s))
          end
      end
  end.

Definition firstRequest (s : Settings) : Request :=
  mkRequest (model s) (buildOverviewPrompt false) (screenshotBase64 s) (1 # 10).

Definition retryRequest (s : Settings) : Request :=
  mkRequest (model s) (buildOverviewPrompt true) (screenshotBase64 s) 0.


End Overview.
(** ** The commands: [normalizeArgs], [open] and [screenshot] (command.ts) *)

Module Command.
Import JsString.

(** The first argument of a command: absent, one text, or an array of
    texts. *)
Inductive FirstArgument : Type :=
| NoArgument
| OneArgument (value : string)
| ManyArguments (values : list string).

Definition normalizeArgs (first : FirstArgument) (rest : list string) : list string :=
  filter (fun arg => negb (isEmpty arg))
    (match first with
     | ManyArguments values => values ++ rest
     | OneArgument value => value :: rest
     | NoArgument => rest
     end)%list.

(** The call a command makes on the client. *)
Inductive ClientCall : Type :=
| Open (url : string) (newWindow : bool)
| SaveGridScreenshot (outputPath : string) (range : option (string * string)).

(** Truthiness of a destructured array element. *)
Definition present (arg : option string) : bool :=
  match arg with
  | Some s => negb (isEmpty s)
  | None => false
  end.

Definition open (first : FirstArgument) (rest : list string) : result ClientCall :=
  let args := normalizeArgs first rest in
  match args with
  | url :: flags =>
      if isEmpty url then Throw "Usage: kazibee chrome-browser open <url> [--new-window]"
      else Ok (Open url (existsb (String.eqb "--new-window") flags))
  | [] => Throw "Usage: kazibee chrome-browser open <url> [--new-window]"
  end.

Definition screenshot (first : FirstArgument) (rest : list string) : result ClientCall :=
  let args := normalizeArgs first rest in
  let outputPath := nth_error args 0 in
  let start := nth_error args 1 in
  let end_ := nth_error args 2 in
  if negb (present outputPath)
  then Throw "Usage: kazibee chrome-browser screenshot <outputPath> [startCell endCell]"
  else
    if present start && present end_
    then Ok (SaveGridScreenshot (Compositor.text outputPath)
               (Some (Compositor.text start, Compositor.text end_)))
    else Ok (SaveGridScreenshot (Compositor.text outputPath) None).

End Command.

(** * Properties *)

(** ** Strings *)


Lemma append_nil_r (s : string) : s ++ "" = s.
Proof. induction s; simpl; congruence. Qed.

Lemma append_assoc (a b c : string) : (a ++ b) ++ c = a ++ (b ++ c).
Proof. induction a; simpl; congruence. Qed.


Lemma charCode_range (c : ascii) : 0 <= JsString.charCode c < 256.
Proof.
  unfold JsString.charCode.
  pose proof (N_ascii_bounded c). lia.
Qed.


Lemma between_spec (lo hi : Z) (c : ascii) :
  JsString.between lo hi c = true <-> lo <= JsString.charCode c <= hi.
Proof. unfold JsString.between. rewrite andb_true_iff, !Z.leb_le. tauto. Qed.


Lemma takeWhile_all (p : ascii -> bool) (s : string) :
  JsString.all p (JsString.takeWhile p s) = true.
Proof.
  induction s as [|c s IH]; simpl; [reflexivity|].
  destruct (p c) eqn:E; simpl; [now rewrite E|reflexivity].
Qed.







(** Letters and digits are neither white space nor lower case. *)
Lemma upper_or_digit_plain (c : ascii) :
  JsString.isUpper c || JsString.isDigit c = true ->
  JsString.isWhiteSpace c = false /\ JsString.upperChar c = c.
Proof.
  unfold JsString.isUpper, JsString.isDigit, JsString.isWhiteSpace,
    JsString.upperChar, JsString.isLower.
  rewrite orb_true_iff, !between_spec. intros H.
  split.
  - apply orb_false_iff. split.
    + apply not_true_iff_false. rewrite between_spec. lia.
    + apply Z.eqb_neq. lia.
  - destruct (JsString.between 97 122 c) eqn:E; [|reflexivity].
    apply between_spec in E. lia.
Qed.

(** ** CoordinateGrid *)


Lemma colNumber_lower_bound (s : string) (acc : Z) :
  JsString.all JsString.isUpper s = true -> 0 <= acc ->
  acc + Z.of_nat (String.length s) <= Grid.colNumber acc s.
Proof.
  revert acc. induction s as [|a s IH]; intros acc; simpl; [lia|].
  rewrite andb_true_iff. intros [Ha Hs] Hacc.
  apply between_spec in Ha.
  specialize (IH (acc * 26 + (JsString.charCode a - 64)) Hs). lia.
Qed.





(** The loop of [colLabel] always ends within the fuel it is given. *)
Lemma colLabel_loop_terminates (fuel : nat) (i : Z) (label : string) :
  i < Z.of_nat fuel -> Grid.colLabel_loop fuel i label <> None.
Proof.
  revert i label. induction fuel as [|fuel IH]; intros i label Hi; simpl.
  - destruct (i <? 0) eqn:E; [discriminate|]. apply Z.ltb_ge in E. lia.
  - destruct (i <? 0) eqn:E; [discriminate|]. apply Z.ltb_ge in E.
    apply IH.
    assert (i / 26 <= i) by (apply Z.div_le_upper_bound; lia). lia.
Qed.

Lemma digit_cases (c : ascii) :
  JsString.isDigit c = true ->
  In c ["0"; "1"; "2"; "3"; "4"; "5"; "6"; "7"; "8"; "9"]%char.
Proof.
  destruct c as [[] [] [] [] [] [] [] []]; vm_compute; intros H;
    try discriminate H; tauto.
Qed.

Ltac eval_charCode :=
  repeat match goal with
    | |- context [JsString.charCode (Ascii ?a ?b ?c ?d ?e ?f ?g ?h)] =>
        let v := eval vm_compute in (JsString.charCode (Ascii a b c d e f g h)) in
        change (JsString.charCode (Ascii a b c d e f g h)) with v
    end.

Lemma parseDigits_of_uint_acc (s : string) :
  JsString.all JsString.isDigit s = true ->
  exists u, NilEmpty.uint_of_string s = Some u /\
            forall acc : positive,
              JsString.parseDigits (Z.pos acc) s = Z.pos (Pos.of_uint_acc u acc).
Proof.
  induction s as [|c s IH];
    cbn [JsString.all JsString.parseDigits NilEmpty.uint_of_string].
  - intros _. exists Decimal.Nil. split; reflexivity.
  - rewrite andb_true_iff. intros [Hc Hs].
    destruct (IH Hs) as (u & Hu & Hacc). rewrite Hu.
    apply digit_cases in Hc. cbn [In] in Hc.
    repeat (destruct Hc as [<-|Hc];
            [eexists; split; [reflexivity|];
             intros acc; cbn [Pos.of_uint_acc];
             rewrite <- Hacc; f_equal; eval_charCode; lia|]).
    destruct Hc.
Qed.

Lemma parseDigits_lower_bound (s : string) (acc : Z) :
  JsString.all JsString.isDigit s = true -> 0 <= acc ->
  acc <= JsString.parseDigits acc s.
Proof.
  revert acc. induction s as [|c s IH]; intros acc; simpl; [lia|].
  rewrite andb_true_iff. intros [Hc Hs] Hacc. apply between_spec in Hc.
  specialize (IH (acc * 10 + (JsString.charCode c - 48)) Hs). lia.
Qed.

Lemma ofNumber_of_uint (u : Decimal.uint) :
  Decimal.unorm u = u ->
  JsString.ofNumber (Z.of_uint u) = NilZero.string_of_uint u.
Proof.
  intros Hn. unfold JsString.ofNumber.
  change (Z.of_uint u) with (Z.of_int (Decimal.Pos u)).
  rewrite DecimalZ.to_of. simpl. now rewrite Hn.
Qed.

(** Printing the number read from a decimal numeral without leading zero
    gives the numeral back. *)
Lemma ofNumber_parseInt (d : ascii) (ds : string) :
  Grid.isPositiveDigit d = true ->
  JsString.all JsString.isDigit ds = true ->
  JsString.ofNumber (JsString.parseInt (String d ds)) = String d ds.
Proof.
  intros Hd Hds.
  destruct (parseDigits_of_uint_acc ds Hds) as (u & Hu & Hacc).
  assert (Hd' : JsString.isDigit d = true).
  { apply between_spec in Hd. apply between_spec. lia. }
  apply digit_cases in Hd'. simpl in Hd'.
  destruct Hd' as [<-|Hd']; [discriminate Hd|].
  unfold JsString.parseInt.
  repeat (destruct Hd' as [<-|Hd'];
          [cbn [JsString.parseDigits]; eval_charCode;
           match goal with
           | |- context [JsString.parseDigits ?a ds] =>
               let k := eval vm_compute in a in change a with k
           end;
           rewrite Hacc;
           match goal with
           | |- context [Z.pos (Pos.of_uint_acc u ?k)] =>
               first
                 [ change (Z.pos (Pos.of_uint_acc u k)) with (Z.of_uint (Decimal.D1 u))
                 | change (Z.pos (Pos.of_uint_acc u k)) with (Z.of_uint (Decimal.D2 u))
                 | change (Z.pos (Pos.of_uint_acc u k)) with (Z.of_uint (Decimal.D3 u))
                 | change (Z.pos (Pos.of_uint_acc u k)) with (Z.of_uint (Decimal.D4 u))
                 | change (Z.pos (Pos.of_uint_acc u k)) with (Z.of_uint (Decimal.D5 u))
                 | change (Z.pos (Pos.of_uint_acc u k)) with (Z.of_uint (Decimal.D6 u))
                 | change (Z.pos (Pos.of_uint_acc u k)) with (Z.of_uint (Decimal.D7 u))
                 | change (Z.pos (Pos.of_uint_acc u k)) with (Z.of_uint (Decimal.D8 u))
                 | change (Z.pos (Pos.of_uint_acc u k)) with (Z.of_uint (Decimal.D9 u)) ]
           end;
           rewrite ofNumber_of_uint by reflexivity;
           cbn [NilZero.string_of_uint NilEmpty.string_of_uint];
           f_equal; apply NilEmpty.sus; exact Hu|]).
  destruct Hd'.
Qed.


Lemma positiveDigit_isDigit (d : ascii) :
  Grid.isPositiveDigit d = true -> JsString.isDigit d = true.
Proof. intros H. apply between_spec in H. apply between_spec. lia. Qed.




(** The four sample labels of the round trip, with their coordinates. *)
Example roundtrip_samples :
  Grid.parseCell "A1" = Ok (Grid.mkCell 0 0) /\ Grid.cellLabel (Grid.mkCell 0 0) = "A1" /\
  Grid.parseCell "Z1" = Ok (Grid.mkCell 25 0) /\ Grid.cellLabel (Grid.mkCell 25 0) = "Z1" /\
  Grid.parseCell "AA1" = Ok (Grid.mkCell 26 0) /\ Grid.cellLabel (Grid.mkCell 26 0) = "AA1" /\
  Grid.parseCell "AL8" = Ok (Grid.mkCell 37 7) /\ Grid.cellLabel (Grid.mkCell 37 7) = "AL8".
Proof. vm_compute. repeat split. Qed.

(** Within eleven letters and fifteen digits every number handled by
    [parseCell] is a safe integer, so the integer model is exact there. *)
Lemma colNumber_upper_bound (s : string) (acc : Z) :
  JsString.all JsString.isUpper s = true -> 0 <= acc ->
  Grid.colNumber acc s + 2 <= (acc + 2) * 26 ^ Z.of_nat (String.length s).
Proof.
  revert acc. induction s as [|a s IH]; intros acc;
    cbn [JsString.all Grid.colNumber String.length]; [lia|].
  rewrite andb_true_iff. intros [Ha Hs] Hacc. apply between_spec in Ha.
  specialize (IH (acc * 26 + (JsString.charCode a - 64)) Hs ltac:(lia)).
  rewrite Nat2Z.inj_succ, Z.pow_succ_r by lia.
  assert (0 < 26 ^ Z.of_nat (String.length s)) by (apply Z.pow_pos_nonneg; lia).
  nia.
Qed.

Lemma parseDigits_upper_bound (s : string) (acc : Z) :
  JsString.all JsString.isDigit s = true -> 0 <= acc ->
  JsString.parseDigits acc s + 1 <= (acc + 1) * 10 ^ Z.of_nat (String.length s).
Proof.
  revert acc. induction s as [|a s IH]; intros acc;
    cbn [JsString.all JsString.parseDigits String.length]; [lia|].
  rewrite andb_true_iff. intros [Ha Hs] Hacc. apply between_spec in Ha.
  specialize (IH (acc * 10 + (JsString.charCode a - 48)) Hs ltac:(lia)).
  rewrite Nat2Z.inj_succ, Z.pow_succ_r by lia.
  assert (0 < 10 ^ Z.of_nat (String.length s)) by (apply Z.pow_pos_nonneg; lia).
  nia.
Qed.

Lemma parseCell_safe_range (letters digits : string) :
  JsString.all JsString.isUpper letters = true ->
  JsString.all JsString.isDigit digits = true ->
  (String.length letters <= 11)%nat -> (String.length digits <= 15)%nat ->
  0 <= Grid.colNumber 0 letters < 2 ^ 53 /\
  0 <= JsString.parseInt digits < 2 ^ 53.
Proof.
  intros Hl Hd Hnl Hnd.
  pose proof (colNumber_upper_bound letters 0 Hl ltac:(lia)) as Hc.
  pose proof (colNumber_lower_bound letters 0 Hl ltac:(lia)) as Hc0.
  pose proof (parseDigits_upper_bound digits 0 Hd ltac:(lia)) as Hr.
  pose proof (parseDigits_lower_bound digits 0 Hd ltac:(lia)) as Hr0.
  assert (26 ^ Z.of_nat (String.length letters) <= 26 ^ 11)
    by (apply Z.pow_le_mono_r; lia).
  assert (10 ^ Z.of_nat (String.length digits) <= 10 ^ 15)
    by (apply Z.pow_le_mono_r; lia).
  unfold JsString.parseInt.
  change (26 ^ 11) with 3670344486987776 in *.
  change (10 ^ 15) with 1000000000000000 in *.
  change (2 ^ 53) with 9007199254740992.
  lia.
Qed.

(** ** GridCompositor *)

Lemma flat_map_nil_on {A B : Type} (f : A -> list B) (l : list A) :
  (forall x, In x l -> f x = []) -> flat_map f l = [].
Proof.
  induction l as [|a l IH]; intros H; simpl; [reflexivity|].
  rewrite (H a) by now left. apply IH. intros x Hx. apply H. now right.
Qed.

Lemma flat_map_flat_map {A B C : Type}
  (f : B -> list C) (g : A -> list B) (l : list A) :
  flat_map f (flat_map g l) = flat_map (fun x => flat_map f (g x)) l.
Proof.
  induction l as [|a l IH]; simpl; [reflexivity|].
  now rewrite flat_map_app, IH.
Qed.

Lemma flat_map_singleton {A B : Type} (f : A -> B) (l : list A) :
  flat_map (fun x => [f x]) l = List.map f l.
Proof. induction l as [|a l IH]; simpl; [reflexivity|now rewrite IH]. Qed.

(** The badges of an overlay carry the labels of the cells shifted by the
    overlay's offset, row by row. *)
Lemma badgeLabels_buildGridOverlaySvg (w h cols rows colOffset rowOffset : Z) :
  Compositor.badgeLabels
    (Compositor.buildGridOverlaySvg w h cols rows colOffset rowOffset)
  = flat_map
      (fun r =>
         List.map
           (fun c => Grid.cellLabel (Grid.mkCell (colOffset + c) (rowOffset + r)))
           (Compositor.range cols))
      (Compositor.range rows).
Proof.
  unfold Compositor.badgeLabels, Compositor.buildGridOverlaySvg.
  cbn [Compositor.svgNodes].
  rewrite !flat_map_app.
  rewrite (flat_map_nil_on _ (List.map (Compositor.columnHeader _) _)),
          (flat_map_nil_on _ (List.map (Compositor.rowHeader _) _)),
          (flat_map_nil_on _ (List.map (Compositor.verticalLine _ _) _)),
          (flat_map_nil_on _ (List.map (Compositor.horizontalLine _ _) _)).
  - cbn [flat_map app]. rewrite flat_map_flat_map.
    apply flat_map_ext. intros r.
    rewrite flat_map_flat_map. rewrite <- flat_map_singleton.
    apply flat_map_ext. intros c. reflexivity.
  - intros x Hx. apply in_map_iff in Hx as (y & <- & _). reflexivity.
  - intros x Hx. apply in_map_iff in Hx as (y & <- & _). reflexivity.
  - intros x Hx. apply in_map_iff in Hx as (y & <- & _). reflexivity.
  - intros x Hx. apply in_map_iff in Hx as (y & <- & _). reflexivity.
Qed.

(** C2. The range B2..D4 on a 1000x800 capture (the size in image pixels
    that a 1000x800 page gives at device pixel ratio 1): the content pasted
    behind the 50px top and left margin is the 300x300 pixel span of columns
    B-D and rows 2-4 of the frame, and the badges read exactly B2..D4, the
    first of them B2. *)
Theorem grid_screenshot_B2_D4 :
  exists image,
    Compositor.runGridScreenshot (Compositor.mkFrame 1000 800) (Some "B2") (Some "D4")
      = Ok image /\
    Compositor.content image
      = Compositor.mkRegion (1 * Grid.CELL_SIZE) (1 * Grid.CELL_SIZE)
                            (3 * Grid.CELL_SIZE) (3 * Grid.CELL_SIZE) /\
    Compositor.contentLeft image = Grid.LABEL_MARGIN /\
    Compositor.contentTop image = Grid.LABEL_MARGIN /\
    Compositor.canvasWidth image = Grid.LABEL_MARGIN + 300 /\
    Compositor.canvasHeight image = Grid.LABEL_MARGIN + 300 /\
    Compositor.badgeLabels (Compositor.overlay image)
      = ["B2"; "C2"; "D2"; "B3"; "C3"; "D3"; "B4"; "C4"; "D4"] /\
    Compositor.headerLabels (Compositor.overlay image)
      = ["B"; "C"; "D"; "2"; "3"; "4"].
Proof. eexists. split; [vm_compute; reflexivity|]. vm_compute. repeat split. Qed.

Lemma field_singleton_inv (k key : string) (v w : Compositor.BridgeValue) :
  Compositor.field key [(k, v)] = Some w -> key = k /\ w = v.
Proof.
  cbn [Compositor.field]. destruct (String.eqb k key) eqn:E; [|discriminate].
  apply String.eqb_eq in E. intros [= <-]. now split.
Qed.

(** The worker result of the B2..D4 request holds the image and no offset. *)
Lemma crop_result_lacks_offset :
  exists res,
    Compositor.gridScreenshotOp (Compositor.mkFrame 1000 800) (Some "B2") (Some "D4")
      = Ok res /\
    List.map fst res = ["imageBase64"] /\
    ~ Compositor.carriesOffset res 1 1.
Proof.
  eexists. split; [vm_compute; reflexivity|]. split; [reflexivity|].
  intros (kc & kr & _ & Hc & _).
  apply field_singleton_inv in Hc as [_ Hc]. discriminate Hc.
Qed.

(** C3 (as the code has it). A cropped request hands back the labeled image
    as the only field of the result; the client returns that image; the
    crop's zero-based offset is not a field of the result but is drawn into
    the image: the badge of crop cell (c, r) is the label of page cell
    (minCol + c, minRow + r). *)
Theorem crop_result_is_image_with_shifted_labels
  (frame : Compositor.Frame) (start end_ : string) (res : Compositor.BridgeResult) :
  Compositor.gridScreenshotOp frame (Some start) (Some end_) = Ok res ->
  JsString.isEmpty start = false -> JsString.isEmpty end_ = false ->
  exists from to image,
    Grid.parseCell start = Ok from /\
    Grid.parseCell end_ = Ok to /\
    res = [("imageBase64", Compositor.BImageBase64 image)] /\
    Compositor.gridScreenshotInternal (Ok res) = Ok image /\
    (forall minCol minRow, ~ Compositor.carriesOffset res minCol minRow) /\
    let minCol := Z.min (Grid.col from) (Grid.col to) in
    let minRow := Z.min (Grid.row from) (Grid.row to) in
    Compositor.regionLeft (Compositor.content image) = Z.max 0 (minCol * Grid.CELL_SIZE) /\
    Compositor.regionTop (Compositor.content image) = Z.max 0 (minRow * Grid.CELL_SIZE) /\
    Compositor.badgeLabels (Compositor.overlay image)
    = flat_map
        (fun r =>
           List.map
             (fun c => Grid.cellLabel (Grid.mkCell (minCol + c) (minRow + r)))
             (Compositor.range
                (JsNumber.ceilDiv
                   (Compositor.regionWidth (Compositor.content image))
                   Grid.CELL_SIZE)))
        (Compositor.range
           (JsNumber.ceilDiv
              (Compositor.regionHeight (Compositor.content image))
              Grid.CELL_SIZE)).
Proof.
  intros Hop Hs He.
  unfold Compositor.gridScreenshotOp in Hop.
  destruct (Compositor.runGridScreenshot frame (Some start) (Some end_))
    as [image|m] eqn:Hrun; [|discriminate Hop].
  cbn [bind] in Hop. injection Hop as <-.
  unfold Compositor.runGridScreenshot in Hrun.
  destruct ((Compositor.frameWidth frame =? 0) || (Compositor.frameHeight frame =? 0));
    [discriminate Hrun|].
  cbn [Compositor.truthy Compositor.text] in Hrun. rewrite Hs, He in Hrun.
  cbn [negb andb] in Hrun.
  destruct (Grid.parseCell start) as [from|] eqn:Hfrom; [|discriminate Hrun].
  destruct (Grid.parseCell end_) as [to|] eqn:Hto; [|discriminate Hrun].
  cbn [bind] in Hrun.
  destruct (Compositor.extract frame _) as [area|] eqn:Hex; [|discriminate Hrun].
  cbn [bind] in Hrun. injection Hrun as <-.
  unfold Compositor.extract in Hex.
  destruct (_ && _) in Hex; [|discriminate Hex]. injection Hex as <-.
  exists from, to. eexists. repeat split.
  - intros minCol minRow (kc & kr & _ & Hc & _).
    apply field_singleton_inv in Hc as [_ Hc]. discriminate Hc.
  - cbn [Compositor.overlay Compositor.content Compositor.regionWidth
           Compositor.regionHeight].
    apply badgeLabels_buildGridOverlaySvg.
Qed.

Lemma crop_result_is_image_with_shifted_labels_witness :
  exists from to image,
    Grid.parseCell "B2" = Ok from /\
    Grid.parseCell "D4" = Ok to /\
    [("imageBase64",
      Compositor.BImageBase64
        (Compositor.mkComposite 350 350 (Compositor.mkRegion 100 100 300 300) 50 50
           (Compositor.buildGridOverlaySvg 300 300 3 3 1 1)))]
    = [("imageBase64", Compositor.BImageBase64 image)] /\
    Compositor.badgeLabels (Compositor.overlay image)
    = ["B2"; "C2"; "D2"; "B3"; "C3"; "D3"; "B4"; "C4"; "D4"].
Proof.
  destruct (crop_result_is_image_with_shifted_labels
              (Compositor.mkFrame 1000 800) "B2" "D4"
              [("imageBase64",
                Compositor.BImageBase64
                  (Compositor.mkComposite 350 350
                     (Compositor.mkRegion 100 100 300 300) 50 50
                     (Compositor.buildGridOverlaySvg 300 300 3 3 1 1)))]
              ltac:(vm_compute; reflexivity) eq_refl eq_refl)
    as (from & to & image & Hf & Ht & Hres & _ & _ & _ & _ & Hb).
  exists from, to, image. repeat split; try assumption.
  injection Hres as <-. vm_compute. reflexivity.
Defined.

(** ** CoordinateSpaceMapper *)

Section Mapping.
Local Open Scope Q_scope.
Import JsNumber Scanner.

Lemma numberOr_nonzero (x : option Q) : ~ numberOr 1 x == 0.
Proof.
  unfold numberOr. destruct x as [q|]; [|discriminate].
  destruct (Qeq_bool q 0) eqn:E; [discriminate|].
  now apply Qeq_bool_neq.
Qed.

Lemma cssSpaceWidth_ge_1 (w : Window) (cs : CoordinateSpace) : 1 <= cssSpaceWidth w cs.
Proof. destruct cs; apply Q.le_max_l. Qed.

Lemma cssSpaceHeight_ge_1 (w : Window) (cs : CoordinateSpace) : 1 <= cssSpaceHeight w cs.
Proof. destruct cs; apply Q.le_max_l. Qed.

Lemma dpr_ge_min (w : Window) : 1 # 100 <= dpr w.
Proof. apply Q.le_max_l. Qed.

(** [max(1, c * d) / c] for a size [c] of at least one. *)
Lemma clamped_scale (c d : Q) :
  1 <= c -> Qmax 1 (c * d) / c == Qmax (1 / c) d.
Proof.
  intros Hc.
  destruct (Q.max_spec 1 (c * d)) as [[H E]|[H E]]; rewrite E.
  - rewrite Q.max_r.
    + field. lra.
    + apply Qle_shift_div_r; lra.
  - rewrite Q.max_l.
    + reflexivity.
    + apply Qle_shift_div_l; lra.
Qed.

Lemma scaleX_ratio (w : Window) (cs : CoordinateSpace) (r : Q) :
  1 <= r -> scaleX (withDevicePixelRatio w r) cs == r.
Proof.
  intros Hr. unfold scaleX, imageSpaceWidth.
  change (cssSpaceWidth (withDevicePixelRatio w r) cs) with (cssSpaceWidth w cs).
  pose proof (cssSpaceWidth_ge_1 w cs) as Hc.
  rewrite clamped_scale by exact Hc.
  assert (Hd : dpr (withDevicePixelRatio w r) == r).
  { unfold dpr, numberOr. cbn [devicePixelRatio withDevicePixelRatio].
    destruct (Qeq_bool r 0) eqn:E; [apply Qeq_bool_eq in E; lra|].
    apply Q.max_r. lra. }
  rewrite Hd. apply Q.max_r. apply Qle_shift_div_r; [lra|nra].
Qed.

Lemma scaleY_ratio (w : Window) (cs : CoordinateSpace) (r : Q) :
  1 <= r -> scaleY (withDevicePixelRatio w r) cs == r.
Proof.
  intros Hr. unfold scaleY, imageSpaceHeight.
  change (cssSpaceHeight (withDevicePixelRatio w r) cs) with (cssSpaceHeight w cs).
  pose proof (cssSpaceHeight_ge_1 w cs) as Hc.
  rewrite clamped_scale by exact Hc.
  assert (Hd : dpr (withDevicePixelRatio w r) == r).
  { unfold dpr, numberOr. cbn [devicePixelRatio withDevicePixelRatio].
    destruct (Qeq_bool r 0) eqn:E; [apply Qeq_bool_eq in E; lra|].
    apply Q.max_r. lra. }
  rewrite Hd. apply Q.max_r. apply Qle_shift_div_r; [lra|nra].
Qed.

Lemma inject_Z_minus (a b : Z) : inject_Z a - inject_Z b == inject_Z (a - b).
Proof.
  unfold Qminus. now rewrite <- inject_Z_opp, <- inject_Z_plus.
Qed.

End Mapping.

(** In a collapsed window at ratio 1/2 the scale is 1, not the
    (css size x ratio) / css size = 1/2 of the spec's formula. *)
Lemma scale_differs_from_spec_formula :
  (Scanner.cssSpaceWidth ScannerSpec.collapsedWindow Scanner.Viewport == 1)%Q /\
  (Scanner.dpr ScannerSpec.collapsedWindow == 1 # 2)%Q /\
  (Scanner.scaleX ScannerSpec.collapsedWindow Scanner.Viewport == 1)%Q /\
  (Scanner.specScaleX ScannerSpec.collapsedWindow Scanner.Viewport == 1 # 2)%Q /\
  ~ (Scanner.scaleX ScannerSpec.collapsedWindow Scanner.Viewport
     == Scanner.specScaleX ScannerSpec.collapsedWindow Scanner.Viewport)%Q.
Proof.
  repeat split; try (vm_compute; reflexivity).
  intros H. vm_compute in H. discriminate H.
Qed.

(** C4 (as the code has it). Each axis scale is
    max(1, css size x ratio) / css size, where the css size is clamped to at
    least 1 and the ratio to at least 0.01; this is the ratio itself unless
    css size x ratio is below 1.  At ratio 1 the zone rectangle is the
    image-space rectangle; at ratio 2 an image-space width of 200 maps to a
    width of 100. *)
Theorem coordinate_space_mapping
  (w : Scanner.Window) (cs : Scanner.CoordinateSpace) (b : Scanner.Bounds)
  (c r1 r2 : Z) :
  (1 <= Scanner.cssSpaceWidth w cs /\ 1 <= Scanner.cssSpaceHeight w cs /\
   1 # 100 <= Scanner.dpr w /\
   Scanner.scaleX w cs
     == Qmax 1 (Scanner.cssSpaceWidth w cs * Scanner.dpr w) / Scanner.cssSpaceWidth w cs /\
   Scanner.scaleY w cs
     == Qmax 1 (Scanner.cssSpaceHeight w cs * Scanner.dpr w) / Scanner.cssSpaceHeight w cs /\
   Scanner.scaleX w cs == Qmax (1 / Scanner.cssSpaceWidth w cs) (Scanner.dpr w) /\
   Scanner.scaleY w cs == Qmax (1 / Scanner.cssSpaceHeight w cs) (Scanner.dpr w) /\
   (let z := Scanner.zoneRect (Scanner.withDevicePixelRatio w 1) cs b Grid.CELL_SIZE in
    let i := Scanner.zoneRectImage b Grid.CELL_SIZE in
    Scanner.left z == Scanner.left i /\ Scanner.right z == Scanner.right i /\
    Scanner.top z == Scanner.top i /\ Scanner.bottom z == Scanner.bottom i) /\
   (let two := Scanner.mkBounds c (c + 1) r1 r2 in
    let z := Scanner.zoneRect (Scanner.withDevicePixelRatio w 2) cs two Grid.CELL_SIZE in
    let i := Scanner.zoneRectImage two Grid.CELL_SIZE in
    Scanner.right i - Scanner.left i == 200 /\
    Scanner.right z - Scanner.left z == 100))%Q.
Proof.
  pose proof (cssSpaceWidth_ge_1 w cs) as Hw.
  pose proof (cssSpaceHeight_ge_1 w cs) as Hh.
  cbv zeta.
  repeat match goal with |- _ /\ _ => split end;
    try assumption; try apply dpr_ge_min; try reflexivity.
  - now apply clamped_scale.
  - now apply clamped_scale.
  - cbn [Scanner.zoneRect Scanner.left]. rewrite scaleX_ratio by lra. field.
  - cbn [Scanner.zoneRect Scanner.right]. rewrite scaleX_ratio by lra. field.
  - cbn [Scanner.zoneRect Scanner.top]. rewrite scaleY_ratio by lra. field.
  - cbn [Scanner.zoneRect Scanner.bottom]. rewrite scaleY_ratio by lra. field.
  - cbn [Scanner.zoneRectImage Scanner.left Scanner.right Scanner.minCol Scanner.maxCol].
    unfold Grid.CELL_SIZE. rewrite inject_Z_minus.
    replace ((c + 1 + 1) * 100 - c * 100)%Z with 200%Z by lia. reflexivity.
  - cbn [Scanner.zoneRect Scanner.zoneRectImage Scanner.left Scanner.right
           Scanner.minCol Scanner.maxCol].
    rewrite scaleX_ratio by lra. unfold Grid.CELL_SIZE.
    setoid_replace (inject_Z ((c + 1 + 1) * 100) / 2 - inject_Z (c * 100) / 2)%Q
      with ((inject_Z ((c + 1 + 1) * 100) - inject_Z (c * 100)) / 2)%Q by field.
    rewrite inject_Z_minus.
    replace ((c + 1 + 1) * 100 - c * 100)%Z with 200%Z by lia. reflexivity.
Qed.

(** ** ZoneElementScanner *)


Lemma memberOf_In (s : string) (l : list string) :
  Scanner.memberOf s l = true <-> In s l.
Proof.
  unfold Scanner.memberOf. rewrite existsb_exists. split.
  - intros (x & Hx & E). apply String.eqb_eq in E. now subst.
  - intros H. exists s. split; [exact H|apply String.eqb_refl].
Qed.

Lemma insertSorted_perm {A : Type} (cmp : A -> A -> Z) (x : A) (l : list A) :
  Permutation (Scanner.insertSorted cmp x l) (x :: l).
Proof.
  induction l as [|y l IH]; simpl; [reflexivity|].
  destruct (cmp x y <=? 0); [reflexivity|].
  rewrite IH. apply perm_swap.
Qed.

Lemma sort_perm {A : Type} (cmp : A -> A -> Z) (l : list A) :
  Permutation (Scanner.sort cmp l) l.
Proof.
  induction l as [|x l IH]; simpl; [reflexivity|].
  rewrite insertSorted_perm. now constructor.
Qed.

Lemma visit_collected
  (w : Scanner.Window) (cs : Scanner.CoordinateSpace) (zone : Scanner.Rect)
  (candidates : list Scanner.Element) (st : Scanner.ScanState) (el : Scanner.Element) :
  In el candidates ->
  ScannerSpec.collected w cs zone candidates st ->
  ScannerSpec.collected w cs zone candidates (Scanner.visit w cs zone st el).
Proof.
  intros Hel [Hnd Hseen Hfrom]. unfold Scanner.visit.
  destruct (Scanner.isHTMLElement el) eqn:E1; cbn [negb]; [|now constructor].
  destruct (Scanner.isInteractive el) eqn:E2; cbn [negb]; [|now constructor].
  destruct (Qle_bool _ 0 || Qle_bool _ 0) eqn:E3; [now constructor|].
  destruct (Scanner.intersects zone _) eqn:E4; cbn [negb]; [|now constructor].
  destruct (JsString.isEmpty _ || Scanner.memberOf _ _) eqn:E5; [now constructor|].
  apply orb_false_iff in E5 as [_ E5].
  assert (Hnew : ~ In (Scanner.buildSelector w el) (Scanner.seenSelectors st)).
  { intros Hin. apply memberOf_In in Hin. congruence. }
  constructor; cbn [Scanner.results Scanner.seenSelectors].
  - rewrite map_app. cbn [List.map Scanner.selector Scanner.elementInfo].
    apply NoDup_app; [exact Hnd|repeat constructor; auto|].
    intros s Hs [<-|[]]. apply Hnew.
    apply in_map_iff in Hs as (r & <- & Hr). now apply Hseen.
  - intros r Hr. apply in_app_or in Hr as [Hr|[<-|[]]].
    + right. now apply Hseen.
    + now left.
  - intros r Hr. apply in_app_or in Hr as [Hr|[<-|[]]]; [now apply Hfrom|].
    exists el. repeat split; [exact Hel|].
    unfold Scanner.passesFilters. now rewrite E1, E2, E3, E4.
Qed.

Lemma fold_visit_collected
  (w : Scanner.Window) (cs : Scanner.CoordinateSpace) (zone : Scanner.Rect)
  (candidates todo : list Scanner.Element) (st : Scanner.ScanState) :
  incl todo candidates ->
  ScannerSpec.collected w cs zone candidates st ->
  ScannerSpec.collected w cs zone candidates (fold_left (Scanner.visit w cs zone) todo st).
Proof.
  revert st. induction todo as [|el todo IH]; intros st Hincl Hst; [exact Hst|].
  cbn [fold_left]. apply IH.
  - intros x Hx. apply Hincl. now right.
  - apply visit_collected; [apply Hincl; now left|exact Hst].
Qed.

Lemma collect_collected
  (w : Scanner.Window) (cs : Scanner.CoordinateSpace) (zone : Scanner.Rect)
  (candidates : list Scanner.Element) :
  ScannerSpec.collected w cs zone candidates (Scanner.collect w cs zone candidates).
Proof.
  apply fold_visit_collected; [apply incl_refl|].
  constructor; cbn; [constructor|intros r []|intros r []].
Qed.

(** A candidate outside the zone leaves the scan state as it was. *)
Lemma visit_outside
  (w : Scanner.Window) (cs : Scanner.CoordinateSpace) (zone : Scanner.Rect)
  (st : Scanner.ScanState) (el : Scanner.Element) :
  Scanner.intersects zone (Scanner.rectInSpace w cs el) = false ->
  Scanner.visit w cs zone st el = st.
Proof.
  intros H. unfold Scanner.visit. rewrite H. cbn [negb].
  destruct (negb (Scanner.isHTMLElement el)); [reflexivity|].
  destruct (negb (Scanner.isInteractive el)); [reflexivity|].
  now destruct (Qle_bool _ 0 || Qle_bool _ 0).
Qed.

Lemma collect_only_overlapping
  (w : Scanner.Window) (cs : Scanner.CoordinateSpace) (zone : Scanner.Rect)
  (candidates : list Scanner.Element) (st : Scanner.ScanState) :
  fold_left (Scanner.visit w cs zone) candidates st
  = fold_left (Scanner.visit w cs zone)
      (filter (fun el => Scanner.intersects zone (Scanner.rectInSpace w cs el))
              candidates) st.
Proof.
  revert st. induction candidates as [|el l IH]; intros st; [reflexivity|].
  cbn [fold_left filter].
  destruct (Scanner.intersects zone (Scanner.rectInSpace w cs el)) eqn:E.
  - cbn [fold_left]. apply IH.
  - rewrite (visit_outside w cs zone st el E). apply IH.
Qed.

Lemma addCandidate_incl (acc : list Scanner.Element) (el x : Scanner.Element) :
  In x (Scanner.addCandidate acc el) -> In x acc \/ x = el.
Proof.
  unfold Scanner.addCandidate. destruct (existsb _ acc); [now left|].
  intros H. apply in_app_or in H as [H|[<-|[]]]; auto.
Qed.

Lemma fold_addCandidate_incl (l acc : list Scanner.Element) (x : Scanner.Element) :
  In x (fold_left Scanner.addCandidate l acc) -> In x acc \/ In x l.
Proof.
  revert acc. induction l as [|el l IH]; intros acc H; [now left|].
  cbn [fold_left] in H. apply IH in H as [H|H]; [|right; now right].
  apply addCandidate_incl in H as [H| ->]; [now left|right; now left].
Qed.

Lemma candidatesOf_incl (doc : Scanner.Document) (x : Scanner.Element) :
  In x (Scanner.candidatesOf doc) ->
  In x (Scanner.interactiveMatches doc) \/ In x (Scanner.pointerMatches doc).
Proof.
  unfold Scanner.candidatesOf. intros H.
  apply fold_addCandidate_incl in H as [H|H]; [|now right].
  apply fold_addCandidate_incl in H as [[]|H]. now left.
Qed.

(** The overlap test is the axis-aligned one. *)
Lemma intersects_spec (a b : Scanner.Rect) :
  Scanner.intersects a b = true <->
  (Scanner.left a < Scanner.right b /\ Scanner.right a > Scanner.left b /\
   Scanner.top a < Scanner.bottom b /\ Scanner.bottom a > Scanner.top b)%Q.
Proof.
  unfold Scanner.intersects, JsNumber.Qltb.
  rewrite !andb_true_iff, !negb_true_iff.
  assert (L : forall x y : Q, Qle_bool y x = false <-> (x < y)%Q).
  { intros x y. rewrite <- not_true_iff_false, Qle_bool_iff. split.
    - apply Qnot_le_lt.
    - apply Qlt_not_le. }
  rewrite !L. tauto.
Qed.

(** C5. One scan returns no selector twice; every returned entry describes
    a candidate element whose rectangle (scroll-adjusted in page space)
    overlaps the mapped zone under the axis-aligned test; and candidates
    that do not overlap the zone have no effect on what is returned. *)
Theorem zone_scan_dedup_and_overlap
  (w : Scanner.Window) (doc : Scanner.Document) (b : Scanner.Bounds)
  (cs : Scanner.CoordinateSpace) :
  let zone := Scanner.zoneRect w cs b Grid.CELL_SIZE in
  let returned := Scanner.scanPage w doc b Grid.CELL_SIZE cs in
  NoDup (List.map Scanner.selector returned) /\
  (forall r, In r returned ->
     exists el,
       (In el (Scanner.interactiveMatches doc) \/ In el (Scanner.pointerMatches doc)) /\
       r = Scanner.elementInfo w el /\
       let a := zone in
       let e := Scanner.rectInSpace w cs el in
       (Scanner.left a < Scanner.right e /\ Scanner.right a > Scanner.left e /\
        Scanner.top a < Scanner.bottom e /\ Scanner.bottom a > Scanner.top e)%Q) /\
  returned
  = Scanner.sort (Scanner.compareResults w)
      (Scanner.results
         (Scanner.collect w cs zone
            (filter (fun el => Scanner.intersects zone (Scanner.rectInSpace w cs el))
                    (Scanner.candidatesOf doc)))).
Proof.
  intros zone returned. subst returned. unfold Scanner.scanPage. fold zone.
  destruct (collect_collected w cs zone (Scanner.candidatesOf doc))
    as [Hnd _ Hfrom].
  pose proof (sort_perm (Scanner.compareResults w)
                (Scanner.results (Scanner.collect w cs zone (Scanner.candidatesOf doc))))
    as Hperm.
  repeat split.
  - eapply Permutation_NoDup; [|exact Hnd].
    apply Permutation_map. now symmetry.
  - intros r Hr. apply (Permutation_in _ Hperm) in Hr.
    destruct (Hfrom r Hr) as (el & Hel & -> & Hpass).
    exists el. repeat split; try (apply candidatesOf_incl; exact Hel);
      unfold Scanner.passesFilters in Hpass;
      apply andb_true_iff in Hpass as [_ Hpass];
      apply intersects_spec in Hpass; tauto.
  - unfold Scanner.collect. now rewrite <- collect_only_overlapping.
Qed.

(** ** The retry loop of the zone scan *)

Section Retry.
Import Scanner ScannerSpec.
Variable page : PageScript.
Variable zoneName : string.
Variable b : Bounds.
Variable cs : CoordinateSpace.

Lemma attempt_succeeds (r : nat) (attempt : Z) (lastError : option string)
  (st : PageState) (w : Window) (doc : Document) :
  evaluateOutcome page (evaluateCalls st) = Evaluated w doc ->
  scanAttempts page zoneName b cs (S r) attempt lastError st
  = (Ok (mkZoneResult zoneName (scanPage w doc b Grid.CELL_SIZE cs)), afterAttempt page st).
Proof.
  intros E. cbn [scanAttempts]. unfold evaluate, waitForStableDom, afterAttempt.
  cbn [evaluateCalls loadStateCalls trace]. rewrite E.
  now rewrite <- app_assoc.
Qed.

Lemma attempt_gives_up (r : nat) (attempt : Z) (lastError : option string)
  (st : PageState) (error : string) :
  evaluateOutcome page (evaluateCalls st) = EvaluateThrows error ->
  negb (isRecoverableScanError error) || (attempt >=? maxAttempts) = true ->
  scanAttempts page zoneName b cs (S r) attempt lastError st
  = (Throw error, afterAttempt page st).
Proof.
  intros E G. cbn [scanAttempts]. unfold evaluate, waitForStableDom, afterAttempt.
  cbn [evaluateCalls loadStateCalls trace]. rewrite E, G.
  now rewrite <- app_assoc.
Qed.

Lemma attempt_retries (r : nat) (attempt : Z) (lastError : option string)
  (st : PageState) (error : string) :
  evaluateOutcome page (evaluateCalls st) = EvaluateThrows error ->
  negb (isRecoverableScanError error) || (attempt >=? maxAttempts) = false ->
  scanAttempts page zoneName b cs (S r) attempt lastError st
  = scanAttempts page zoneName b cs r (attempt + 1) (Some error)
      (afterBackoff page attempt st).
Proof.
  intros E G. cbn [scanAttempts]. unfold evaluate, waitForStableDom, sleep, afterBackoff.
  cbn [evaluateCalls loadStateCalls trace]. rewrite E, G.
  cbn [evaluateCalls loadStateCalls trace]. now rewrite <- !app_assoc.
Qed.

Lemma scanAttempts_spec (r : nat) :
  forall (attempt : Z) (lastError : option string) (st : PageState),
    attempt = maxAttempts - Z.of_nat r ->
    let run := scanAttempts page zoneName b cs (S r) attempt lastError st in
    exists n,
      (1 <= n <= S r)%nat /\
      evaluateCalls (snd run) = (evaluateCalls st + n)%nat /\
      trace (snd run)
      = (trace st
         ++ expectedTrace page (evaluateCalls st) (loadStateCalls st) n attempt)%list /\
      (forall k, (k < n - 1)%nat ->
         exists error,
           evaluateOutcome page (evaluateCalls st + k) = EvaluateThrows error /\
           isRecoverableScanError error = true) /\
      attemptEnds page zoneName b cs (evaluateCalls st + n - 1) (Nat.eqb n (S r)) (fst run).
Proof.
  induction r as [|r IH]; intros attempt lastError st Hattempt run; subst run.
  - (* the last attempt *)
    exists 1%nat.
    replace (evaluateCalls st + 1 - 1)%nat with (evaluateCalls st) by lia.
    destruct (evaluateOutcome page (evaluateCalls st)) as [w doc|error] eqn:E.
    + rewrite (attempt_succeeds _ _ _ _ w doc E).
      cbn [fst snd afterAttempt evaluateCalls trace expectedTrace app].
      rewrite E. split; [lia|]; split; [lia|]; split; [reflexivity|]; split; [intros k Hk; lia|].
      exists w, doc. now split.
    + rewrite (attempt_gives_up _ _ _ _ error E)
        by (apply orb_true_iff; right; apply Z.geb_le; cbn in Hattempt; lia).
      cbn [fst snd afterAttempt evaluateCalls trace expectedTrace app].
      rewrite E. split; [lia|]; split; [lia|]; split; [reflexivity|]; split; [intros k Hk; lia|].
      split; [exact E|now right].
  - (* an attempt that may be followed by others *)
    destruct (evaluateOutcome page (evaluateCalls st)) as [w doc|error] eqn:E.
    + exists 1%nat.
      replace (evaluateCalls st + 1 - 1)%nat with (evaluateCalls st) by lia.
      rewrite (attempt_succeeds _ _ _ _ w doc E).
      cbn [fst snd afterAttempt evaluateCalls trace expectedTrace app].
      rewrite E. split; [lia|]; split; [lia|]; split; [reflexivity|]; split; [intros k Hk; lia|].
      exists w, doc. now split.
    + destruct (isRecoverableScanError error) eqn:R.
      * rewrite (attempt_retries _ _ _ _ error E)
          by (rewrite R; cbn [negb orb]; rewrite Z.geb_leb; apply Z.leb_gt; lia).
        destruct (IH (attempt + 1) (Some error) (afterBackoff page attempt st) ltac:(lia))
          as (n & Hn & Hcalls & Htrace & Hearlier & Hend).
        cbn [afterBackoff evaluateCalls loadStateCalls trace] in Hcalls, Htrace, Hearlier, Hend.
        exists (S n). split; [lia|]; split; [lia|]; split; [|split].
        -- rewrite Htrace. cbn [expectedTrace].
           destruct n as [|n]; [lia|]. rewrite E.
           now rewrite <- !app_assoc.
        -- intros k Hk. destruct k as [|k].
           ++ exists error. rewrite Nat.add_0_r. now split.
           ++ destruct (Hearlier k ltac:(lia)) as (error' & Hk' & Hr').
              exists error'. split; [|exact Hr'].
              now replace (evaluateCalls st + S k)%nat
                with (S (evaluateCalls st) + k)%nat by lia.
        -- replace (evaluateCalls st + S n - 1)%nat
             with (S (evaluateCalls st) + n - 1)%nat by lia.
           exact Hend.
      * exists 1%nat.
        replace (evaluateCalls st + 1 - 1)%nat with (evaluateCalls st) by lia.
        rewrite (attempt_gives_up _ _ _ _ error E) by now rewrite R.
        cbn [fst snd afterAttempt evaluateCalls trace expectedTrace app].
        rewrite E. split; [lia|]; split; [lia|]; split; [reflexivity|]; split; [intros k Hk; lia|].
        split; [exact E|now left].
Qed.


End Retry.



(** A run that meets two navigations: three attempts, backoffs of 200 and
    400 ms, and the two buttons of cell B2 reported once, under one
    selector. *)
Example retry_sample :
  let run := Scanner.runSingleZoneScanWithRetry ScannerSpec.navigatingPage
               (Scanner.mkZone "b2" "d4") Scanner.Viewport Scanner.initialPageState in
  List.map
    (fun ev =>
       match ev with
       | Scanner.WaitForLoadState _ timeout _ => ("wait", timeout)
       | Scanner.Evaluate _ => ("evaluate", 0)
       | Scanner.Sleep ms => ("sleep", ms)
       end) (Scanner.trace (snd run))
  = [("wait", 3000); ("evaluate", 0); ("wait", 3000); ("sleep", 200);
     ("wait", 3000); ("evaluate", 0); ("wait", 3000); ("sleep", 400);
     ("wait", 3000); ("evaluate", 0)] /\
  match fst run with
  | Ok zr =>
      Scanner.zone zr = "B2:D4" /\
      List.map Scanner.selector (Scanner.elements zr) = ["div#card > button"]
  | Throw _ => False
  end.
Proof. vm_compute. repeat split. Qed.

(** Three recoverable failures: the error of the third attempt comes out;
    an error of another kind comes out at once. *)
Example retry_exhausted_sample :
  let failing message := Scanner.mkPageScript
                           (fun n => Scanner.EvaluateThrows
                                       (message ++ " #" ++ JsString.ofNumber (Z.of_nat n)))
                           (fun _ => false) in
  let run message := Scanner.runSingleZoneScanWithRetry (failing message)
                       (Scanner.mkZone "A1" "A1") Scanner.Page Scanner.initialPageState in
  fst (run "Frame was detached") = Throw "Frame was detached #2" /\
  Scanner.evaluateCalls (snd (run "Frame was detached")) = 3%nat /\
  fst (run "Timeout 30000ms exceeded") = Throw "Timeout 30000ms exceeded #0" /\
  Scanner.evaluateCalls (snd (run "Timeout 30000ms exceeded")) = 1%nat.
Proof. vm_compute. repeat split. Qed.

(** ** ElementMatcher *)

Lemma startsWith_append (p s : string) : JsString.startsWith p (p ++ s) = true.
Proof.
  induction p as [|c p IH]; simpl; [reflexivity|].
  now rewrite Ascii.eqb_refl, IH.
Qed.

Lemma includes_here (p s : string) : JsString.includes (p ++ s) p = true.
Proof.
  destruct (p ++ s) eqn:E; simpl; rewrite <- E, startsWith_append; reflexivity.
Qed.

Lemma includes_later (a s p : string) :
  JsString.includes s p = true -> JsString.includes (a ++ s) p = true.
Proof.
  intros H. induction a as [|c a IH]; simpl; [exact H|].
  rewrite IH. apply orb_true_r.
Qed.

Lemma includes_middle (a p b : string) :
  JsString.includes (a ++ p ++ b) p = true.
Proof. apply includes_later, includes_here. Qed.

Lemma includes_refl (p : string) : JsString.includes p p = true.
Proof. rewrite <- (append_nil_r p) at 1. apply includes_here. Qed.

Lemma map_append (f : ascii -> ascii) (a b : string) :
  JsString.map f (a ++ b) = JsString.map f a ++ JsString.map f b.
Proof. induction a as [|c a IH]; simpl; [reflexivity|now rewrite IH]. Qed.

(** The lower-cased text of an element is part of its core text. *)
Lemma core_has_text (e : Matcher.UiInteractiveElement) :
  exists a b, Matcher.core e = a ++ JsString.toLowerCase (Matcher.text e) ++ b.
Proof.
  exists (JsString.toLowerCase (Matcher.id e) ++ " "),
         (" " ++ JsString.toLowerCase
                   (Matcher.elementType e ++ " " ++ Matcher.roleText e)).
  unfold Matcher.core, JsString.join, JsString.toLowerCase.
  cbn [String.concat]. rewrite !map_append, !append_assoc. reflexivity.
Qed.

Lemma core_has_id (e : Matcher.UiInteractiveElement) :
  exists b, Matcher.core e = JsString.toLowerCase (Matcher.id e) ++ b.
Proof.
  exists (" " ++ JsString.toLowerCase
                   (Matcher.text e ++ " " ++ Matcher.elementType e ++ " "
                    ++ Matcher.roleText e)).
  unfold Matcher.core, JsString.join, JsString.toLowerCase.
  cbn [String.concat]. rewrite !map_append. reflexivity.
Qed.

(** A piece of the text or of the id is a piece of the core text. *)
Lemma includes_trans_split (s a b p : string) :
  JsString.includes s p = true -> JsString.includes (a ++ s ++ b) p = true.
Proof.
  intros H. apply includes_later.
  induction s as [|c s IH]; simpl in *.
  - destruct p; [|discriminate H]. now destruct b.
  - apply orb_true_iff in H as [H|H].
    + apply orb_true_iff. left.
      clear IH. revert c s H. induction p as [|d p IHp]; intros c s H; [reflexivity|].
      simpl in *. apply andb_true_iff in H as [H1 H2]. rewrite H1. simpl.
      destruct s as [|c' s]; simpl.
      * destruct p; [reflexivity|discriminate H2].
      * now apply IHp.
    + rewrite (IH H). apply orb_true_r.
Qed.

Lemma text_token_in_core (e : Matcher.UiInteractiveElement) (token : string) :
  JsString.includes (JsString.toLowerCase (Matcher.text e)) token = true ->
  JsString.includes (Matcher.core e) token = true.
Proof.
  intros H. destruct (core_has_text e) as (a & b & ->).
  now apply includes_trans_split.
Qed.

Lemma id_token_in_core (e : Matcher.UiInteractiveElement) (token : string) :
  JsString.includes (JsString.toLowerCase (Matcher.id e)) token = true ->
  JsString.includes (Matcher.core e) token = true.
Proof.
  intros H. destruct (core_has_id e) as (b & ->).
  now apply (includes_trans_split _ "" b).
Qed.

Section Scoring.
Import Matcher MatcherSpec.
Variable e : UiInteractiveElement.




Lemma phraseScore_nonneg (phrase : string) : 0 <= phraseScore phrase e.
Proof.
  unfold phraseScore.
  destruct (phraseInCore phrase e), (phraseInAux phrase e),
    (String.eqb (JsString.toLowerCase (text e)) phrase),
    (String.eqb (JsString.toLowerCase (id e)) phrase); lia.
Qed.

Lemma text_equal_in_core (phrase : string) :
  String.eqb (JsString.toLowerCase (text e)) phrase = true ->
  phraseInCore phrase e = true.
Proof.
  intros H. apply String.eqb_eq in H. subst phrase.
  apply text_token_in_core, includes_refl.
Qed.

Lemma id_equal_in_core (phrase : string) :
  String.eqb (JsString.toLowerCase (id e)) phrase = true ->
  phraseInCore phrase e = true.
Proof.
  intros H. apply String.eqb_eq in H. subst phrase.
  apply id_token_in_core, includes_refl.
Qed.





End Scoring.

(** *** The best element *)

Section Best.
Import Matcher.
Variable phrase : string.
Variable tokens : list string.

Let scored := scoreElement phrase tokens.

Lemma fold_keepBest (l : list UiInteractiveElement)
  (best : option UiInteractiveElement) (bestScore : Z) :
  (fold_left (keepBest phrase tokens) l (best, bestScore) = (best, bestScore) /\
   forall x s, In x l -> scored x = Some s -> s <= bestScore)
  \/
  (exists l1 b l2 s,
      l = (l1 ++ b :: l2)%list /\
      fold_left (keepBest phrase tokens) l (best, bestScore) = (Some b, s) /\
      scored b = Some s /\ bestScore < s /\
      (forall x s', In x l1 -> scored x = Some s' -> s' < s) /\
      (forall x s', In x l2 -> scored x = Some s' -> s' <= s)).
Proof.
  assert (Hhead : forall x sx y s' (l' : list UiInteractiveElement) bound,
             scored x = Some sx -> sx <= bound ->
             (forall z s'', In z l' -> scored z = Some s'' -> s'' <= bound) ->
             In y (x :: l') -> scored y = Some s' -> s' <= bound).
  { intros x sx y s' l' bound Ex Hx Hl [<-|Hy] Hs; [|eauto].
    rewrite Ex in Hs. injection Hs as <-. exact Hx. }
  revert best bestScore. induction l as [|x l IH]; intros best bestScore.
  - left. split; [reflexivity|]. intros ? ? [].
  - cbn [fold_left].
    assert (Hstep : keepBest phrase tokens (best, bestScore) x
                    = match scored x with
                      | None => (best, bestScore)
                      | Some sx => if sx >? bestScore then (Some x, sx)
                                   else (best, bestScore)
                      end) by reflexivity.
    rewrite Hstep. clear Hstep.
    destruct (scored x) as [sx|] eqn:Ex.
    + destruct (sx >? bestScore) eqn:G.
      * apply Z.gtb_lt in G. right.
        destruct (IH (Some x) sx)
          as [[Hsame Hle]|(l1 & b & l2 & s & -> & Hf & Hb & Hlt & H1 & H2)].
        -- exists [], x, l, sx.
           split; [reflexivity|]. split; [exact Hsame|]. split; [exact Ex|].
           split; [exact G|]. split; [intros ? ? []|exact Hle].
        -- exists (x :: l1), b, l2, s.
           split; [reflexivity|]. split; [exact Hf|]. split; [exact Hb|].
           split; [lia|]. split; [|exact H2].
           intros y s' [<-|Hy] Hs; [|eauto].
           rewrite Ex in Hs. injection Hs as <-. exact Hlt.
      * assert (sx <= bestScore)
          by (destruct (Z.gtb_spec sx bestScore); [discriminate|lia]).
        destruct (IH best bestScore)
          as [[Hsame Hle]|(l1 & b & l2 & s & -> & Hf & Hb & Hlt & H1 & H2)].
        -- left. split; [exact Hsame|]. intros y s'. now apply (Hhead x sx).
        -- right. exists (x :: l1), b, l2, s.
           split; [reflexivity|]. split; [exact Hf|]. split; [exact Hb|].
           split; [exact Hlt|]. split; [|exact H2].
           intros y s' [<-|Hy] Hs; [|eauto].
           rewrite Ex in Hs. injection Hs as <-. lia.
    + destruct (IH best bestScore)
        as [[Hsame Hle]|(l1 & b & l2 & s & -> & Hf & Hb & Hlt & H1 & H2)].
      * left. split; [exact Hsame|].
        intros y s' [<-|Hy] Hs; [congruence|eauto].
      * right. exists (x :: l1), b, l2, s.
        split; [reflexivity|]. split; [exact Hf|]. split; [exact Hb|].
        split; [exact Hlt|]. split; [|exact H2].
        intros y s' [<-|Hy] Hs; [congruence|eauto].
Qed.

End Best.

Section Ranking.
Import Matcher MatcherSpec.

Lemma findBest_unfold (l : list UiInteractiveElement) (query : string) :
  findBestInteractiveElement l query
  = let found := fold_left
                   (keepBest (JsString.toLowerCase query)
                      (tokensOf (JsString.toLowerCase query))) l (None, 0) in
    if snd found >? 0 then fst found else None.
Proof. reflexivity. Qed.

(** The element returned is the first one of the highest score, and that
    score is positive. *)
Lemma findBest_first_highest (l : list UiInteractiveElement) (query : string)
  (b : UiInteractiveElement) :
  findBestInteractiveElement l query = Some b ->
  exists l1 l2 s,
    l = (l1 ++ b :: l2)%list /\ scoreFor query b = Some s /\ 0 < s /\
    (forall x s', In x l1 -> scoreFor query x = Some s' -> s' < s) /\
    (forall x s', In x l2 -> scoreFor query x = Some s' -> s' <= s).
Proof.
  rewrite findBest_unfold. cbv zeta.
  destruct (fold_keepBest (JsString.toLowerCase query)
              (tokensOf (JsString.toLowerCase query)) l None 0)
    as [[-> _]|(l1 & b' & l2 & s & -> & -> & Hb & Hpos & H1 & H2)].
  - cbn. discriminate.
  - cbn [fst snd]. destruct (s >? 0); [|discriminate]. intros [= ->].
    exists l1, l2, s. repeat split; assumption.
Qed.


Lemma findBest_dominates (l : list UiInteractiveElement) (query : string)
  (b x : UiInteractiveElement) (s' : Z) :
  findBestInteractiveElement l query = Some b ->
  In x l -> scoreFor query x = Some s' ->
  exists s, scoreFor query b = Some s /\ s' <= s.
Proof.
  intros Hb Hx Hs.
  destruct (findBest_first_highest l query b Hb)
    as (l1 & l2 & s & -> & Hbs & _ & H1 & H2).
  exists s. split; [exact Hbs|].
  apply in_app_or in Hx as [Hx|[<-|Hx]].
  - specialize (H1 x s' Hx Hs). lia.
  - rewrite Hbs in Hs. injection Hs as <-. lia.
  - exact (H2 x s' Hx Hs).
Qed.




End Ranking.


(** Sample rankings: the exact "Submit" button wins over buttons that share
    the token on one side, whatever the order; a button that carries the
    token in its text, its id and its actions is not of that kind and scores
    higher. *)
Example matching_sample :
  let exact := MatcherSpec.plain "el-1" "Submit" [] "low" in
  let other := MatcherSpec.plain "el-2" "Submit order" [] "critical" in
  let named := MatcherSpec.plain "submit-2" "Submit order" [] "critical" in
  let everywhere := MatcherSpec.plain "submit-2" "Submit order" ["submit"] "critical" in
  Matcher.scoreFor "submit" exact = Some 120 /\
  Matcher.scoreFor "submit" other = Some 102 /\
  Matcher.scoreFor "submit" named = Some 106 /\
  Matcher.scoreFor "submit" everywhere = Some 126 /\
  Matcher.findBestInteractiveElement [other; named; exact] "submit" = Some exact /\
  Matcher.findBestInteractiveElement [exact; other; named] "submit" = Some exact /\
  Matcher.findBestInteractiveElement [other] "cancel" = None /\
  Matcher.scoreFor "submit order" (MatcherSpec.plain "el-3" "Submit" [] "low") = Some 20.
Proof. vm_compute. repeat split. Qed.

(** ** Normalisation of labels at the coordinate inputs *)






Lemma trimStart_idempotent (s : string) :
  JsString.trimStart (JsString.trimStart s) = JsString.trimStart s.
Proof.
  unfold JsString.trimStart.
  induction s as [|c s IH]; simpl; [reflexivity|].
  destruct (JsString.isWhiteSpace c) eqn:E; [exact IH|].
  simpl. now rewrite E.
Qed.

Lemma trimEnd_idempotent (s : string) :
  JsString.trimEnd (JsString.trimEnd s) = JsString.trimEnd s.
Proof.
  induction s as [|c s IH]; simpl; [reflexivity|].
  destruct (JsString.trimEnd s) as [|d t] eqn:E.
  - destruct (JsString.isWhiteSpace c) eqn:W; simpl; [reflexivity|now rewrite W].
  - simpl in *. now rewrite IH.
Qed.

Lemma trimEnd_trimStart (s : string) :
  JsString.trimEnd (JsString.trimStart s) = JsString.trimStart (JsString.trimEnd s).
Proof.
  unfold JsString.trimStart.
  induction s as [|c s IH]; [reflexivity|].
  cbn [JsString.dropWhile JsString.trimEnd].
  destruct (JsString.isWhiteSpace c) eqn:W.
  - rewrite IH. destruct (JsString.trimEnd s) as [|d t] eqn:E; [reflexivity|].
    cbn [JsString.dropWhile]. now rewrite W.
  - cbn [JsString.trimEnd].
    destruct (JsString.trimEnd s) as [|d t] eqn:E; rewrite ?W;
      cbn [JsString.dropWhile]; now rewrite W.
Qed.

Lemma trim_idempotent (s : string) :
  JsString.trim (JsString.trim s) = JsString.trim s.
Proof.
  unfold JsString.trim.
  rewrite <- (trimEnd_trimStart (JsString.trimStart s)).
  rewrite trimStart_idempotent. apply trimEnd_idempotent.
Qed.


Lemma parseDigits_nonneg (s : string) (acc : Z) :
  JsString.all JsString.isDigit s = true -> 0 <= acc ->
  0 <= JsString.parseDigits acc s.
Proof.
  intros Hs Hacc. pose proof (parseDigits_lower_bound s acc Hs Hacc). lia.
Qed.

(** [parseCell] by cases on the normalised input. *)
Lemma parseCell_cases (input : string) :
  match Grid.cellPattern (JsString.toUpperCase (JsString.trim input)) with
  | None => Grid.parseCell input = Throw ("Invalid grid coordinate: " ++ input)
  | Some (letters, digits) =>
      JsString.all JsString.isUpper letters = true /\
      JsString.all JsString.isDigit digits = true /\
      letters <> "" /\ digits <> "" /\
      if JsString.parseInt digits =? 0
      then Grid.parseCell input = Throw ("Invalid row index in coordinate: " ++ input)
      else Grid.parseCell input
           = Ok (Grid.mkCell (Grid.colNumber 0 letters - 1) (JsString.parseInt digits - 1))
  end.
Proof.
  unfold Grid.parseCell.
  destruct (Grid.cellPattern _) as [[letters digits]|] eqn:E; [|reflexivity].
  unfold Grid.cellPattern in E.
  destruct (_ && _) eqn:C in E; [|discriminate E]. injection E as <- <-.
  apply andb_true_iff in C as [C Hd]. apply andb_true_iff in C as [Hl Hr].
  split; [apply takeWhile_all|]. split; [exact Hd|].
  split; [intros H; rewrite H in Hl; discriminate Hl|].
  split; [intros H; rewrite H in Hr; discriminate Hr|].
  pose proof (parseDigits_nonneg _ 0 Hd ltac:(lia)) as Hnn.
  fold (JsString.parseInt (JsString.dropWhile JsString.isUpper
          (JsString.toUpperCase (JsString.trim input)))) in Hnn.
  destruct (JsString.parseInt _ =? 0) eqn:Z0.
  - apply Z.eqb_eq in Z0. now rewrite Z0.
  - apply Z.eqb_neq in Z0.
    destruct (JsString.parseInt _ <=? 0) eqn:L; [apply Z.leb_le in L; lia|reflexivity].
Qed.


Lemma scanAttempts_zone_name
  (page : Scanner.PageScript) (name : string) (b : Scanner.Bounds)
  (cs : Scanner.CoordinateSpace) (r : nat) :
  forall attempt lastError st zr,
    fst (Scanner.scanAttempts page name b cs r attempt lastError st) = Ok zr ->
    Scanner.zone zr = name.
Proof.
  induction r as [|r IH]; intros attempt lastError st zr; cbn [Scanner.scanAttempts].
  - discriminate.
  - destruct (Scanner.evaluate page b cs _) as [[els|error] st2].
    + cbn [fst]. now intros [= <-].
    + destruct (_ || _); [discriminate|]. apply IH.
Qed.


(** ** LabelingProtocol *)

Section LabelingFacts.
Import Labeling LabelingSpec.

Lemma stringOfError_newError (c : ascii) (rest : string) :
  stringOfError (newError (String c rest)) = "Error: " ++ String c rest.
Proof. reflexivity. Qed.

(** The malformed-response error always asks for the retry. *)
Lemma shouldRetry_malformed (trimmed : string) :
  shouldRetry
    (newError ("Gemini response was not valid JSON object. Raw response: " ++ trimmed))
  = true.
Proof.
  unfold shouldRetry. apply orb_true_iff. left.
  cbn [append]. rewrite stringOfError_newError.
  match goal with
  | |- JsString.includes (JsString.toLowerCase ?s) _ = true =>
      change s with (("Error: Gemini response was not "
                      ++ "valid JSON object" ++ ". Raw response: ") ++ trimmed)
  end.
  unfold JsString.toLowerCase. rewrite map_append.
  change (JsString.map JsString.lowerChar
            ("Error: Gemini response was not " ++ "valid JSON object" ++ ". Raw response: "))
    with ("error: gemini response was not " ++ "valid json object" ++ ". raw response: ").
  rewrite !append_assoc. apply includes_middle.
Qed.

(** So does the empty-response error. *)
Lemma shouldRetry_empty (bodyText : string) :
  shouldRetry (newError ("Gemini returned no text content: " ++ bodyText)) = true.
Proof.
  unfold shouldRetry. apply orb_true_iff. right.
  cbn [append]. rewrite stringOfError_newError.
  match goal with
  | |- JsString.includes (JsString.toLowerCase ?s) _ = true =>
      change s with (("Error: Gemini "
                      ++ "returned no text content" ++ ": ") ++ bodyText)
  end.
  unfold JsString.toLowerCase. rewrite map_append.
  change (JsString.map JsString.lowerChar
            ("Error: Gemini " ++ "returned no text content" ++ ": "))
    with ("error: gemini " ++ "returned no text content" ++ ": ").
  rewrite !append_assoc. apply includes_middle.
Qed.

Lemma parseCandidates_order (trimmed : string) :
  (parseCandidates trimmed = [trimmed] /\
   (codeFenceGroup trimmed = None \/ codeFenceGroup trimmed = Some ""))
  \/
  (exists group,
      codeFenceGroup trimmed = Some group /\ group <> "" /\
      parseCandidates trimmed = [JsString.trim group; trimmed]).
Proof.
  unfold parseCandidates.
  destruct (codeFenceGroup trimmed) as [[|c group]|].
  - left. split; [reflexivity|now right].
  - right. exists (String c group). repeat split; discriminate.
  - left. split; [reflexivity|now left].
Qed.

Lemma parse_empty : Json.parse "" = None.
Proof. reflexivity. Qed.

Lemma trim_empty_group (group : string) :
  group = "" -> JsString.trim group = "".
Proof. now intros ->. Qed.

(** The first fenced block, when it holds a JSON object, is what comes
    back. *)
Lemma fenced_object_returned (text group : string) (obj : Json.Value) :
  codeFenceGroup (JsString.trim text) = Some group ->
  Json.parse (JsString.trim group) = Some obj ->
  Json.isRecord obj = true ->
  parseJsonObject text = Returns obj.
Proof.
  intros Hg Hp Hr. unfold parseJsonObject, parseCandidates. rewrite Hg.
  destruct group as [|c group].
  - cbn in Hp. discriminate Hp.
  - cbn [JsString.isEmpty firstRecord]. now rewrite Hp, Hr.
Qed.

(** Without such a block the whole text is parsed. *)
Lemma direct_object_returned (text : string) (obj : Json.Value) :
  (forall group fenced,
     codeFenceGroup (JsString.trim text) = Some group ->
     Json.parse (JsString.trim group) = Some fenced ->
     Json.isRecord fenced = false) ->
  Json.parse (JsString.trim text) = Some obj ->
  Json.isRecord obj = true ->
  parseJsonObject text = Returns obj.
Proof.
  intros Hfence Hp Hr. unfold parseJsonObject, parseCandidates.
  destruct (codeFenceGroup (JsString.trim text)) as [group|] eqn:Hg.
  - destruct (JsString.isEmpty group).
    + cbn [firstRecord]. now rewrite Hp, Hr.
    + cbn [firstRecord].
      destruct (Json.parse (JsString.trim group)) as [fenced|] eqn:Hf.
      * rewrite (Hfence group fenced eq_refl Hf). now rewrite Hp, Hr.
      * now rewrite Hp, Hr.
  - cbn [firstRecord]. now rewrite Hp, Hr.
Qed.

Lemma parseJsonObject_throws (text : string) (e : JsError) :
  parseJsonObject text = Throws e ->
  e = newError ("Gemini response was not valid JSON object. Raw response: "
                ++ JsString.trim text) /\
  shouldRetry e = true.
Proof.
  unfold parseJsonObject. destruct (firstRecord _); [discriminate|].
  intros [= <-]. split; [reflexivity|apply shouldRetry_malformed].
Qed.

Lemma extractGeminiText_throws (bodyText : string) (data : GeminiResponse) (e : JsError) :
  extractGeminiText bodyText data = Throws e ->
  e = newError ("Gemini returned no text content: " ++ bodyText) /\
  shouldRetry e = true.
Proof.
  unfold extractGeminiText. destruct (filter _ _); [|discriminate].
  intros [= <-]. split; [reflexivity|apply shouldRetry_empty].
Qed.

(** The requests made and the result, by cases on the first pass. *)
Lemma runLabelsAnalysis_cases (api : Api) (s : Settings) :
  let first := analyse api 0 s (firstRequest s) in
  let run := runLabelsAnalysis api s in
  (snd run = [firstRequest s] /\ fst run = first /\
   match first with
   | Returns _ => True
   | Throws e => shouldRetry e = false
   end)
  \/
  (snd run = [firstRequest s; retryRequest s] /\
   fst run = analyse api 1 s (retryRequest s) /\
   exists e, first = Throws e /\ shouldRetry e = true).
Proof.
  cbv zeta. unfold runLabelsAnalysis.
  destruct (analyse api 0 s (firstRequest s)) as [r|e] eqn:E.
  - left. split; [reflexivity|]. split; [reflexivity|exact I].
  - destruct (shouldRetry e) eqn:R; cbn [negb].
    + right. split; [reflexivity|]. split; [reflexivity|]. now exists e.
    + left. split; [reflexivity|]. split; reflexivity.
Qed.

Lemma join_app (sep : string) (l1 l2 : list string) :
  l1 <> [] -> l2 <> [] ->
  JsString.join sep (l1 ++ l2) = JsString.join sep l1 ++ sep ++ JsString.join sep l2.
Proof.
  unfold JsString.join. intros H1 H2.
  induction l1 as [|a l1 IH]; [congruence|].
  destruct l1 as [|b l1].
  - cbn [app String.concat]. destruct l2; [congruence|reflexivity].
  - cbn [app String.concat] in *. rewrite IH by discriminate.
    now rewrite !append_assoc.
Qed.

(** The retry asks for short fields at temperature 0; the first request
    runs at 0.1. *)
Lemma retry_request_shape (s : Settings) :
  temperature (firstRequest s) = 1 # 10 /\
  temperature (retryRequest s) = 0%Q /\
  promptText (retryRequest s)
  = promptText (firstRequest s) ++ newline ++ JsString.join newline compactRetryLines.
Proof.
  split; [reflexivity|]. split; [reflexivity|].
  cbn [promptText retryRequest firstRequest]. unfold buildLabelsPrompt.
  rewrite List.app_nil_r, !List.app_assoc.
  apply join_app; [|discriminate].
  destruct (detailLevel s); discriminate.
Qed.

End LabelingFacts.

(** The code tries the fenced block before the whole text, and retries a
    server error whose body quotes the words of the retry test. *)
Lemma fence_first_and_sniffed_retry :
  (exists whole,
      Json.parse LabelingSpec.objectQuotingFence = Some whole /\
      Json.isRecord whole = true /\
      LabelingSpec.specParseJsonObject LabelingSpec.objectQuotingFence
      = Labeling.Returns whole /\
      Labeling.parseJsonObject LabelingSpec.objectQuotingFence
      = Labeling.Returns (Json.Object []) /\
      whole <> Json.Object []) /\
  Labeling.responseOk 500 = false /\
  snd (Labeling.runLabelsAnalysis
         (LabelingSpec.always LabelingSpec.quotingServerError) LabelingSpec.settings)
  = [Labeling.firstRequest LabelingSpec.settings;
     Labeling.retryRequest LabelingSpec.settings].
Proof.
  split; [|split; reflexivity].
  eexists. split; [vm_compute; reflexivity|].
  split; [reflexivity|]. split; [vm_compute; reflexivity|].
  split; [vm_compute; reflexivity|discriminate].
Qed.

(** C8 (as the code has it). The first fenced block is tried before the
    whole text; a fenced JSON object parses without retry; the
    malformed-response and empty-response errors lead to exactly one retry at
    temperature 0 with the keep-it-short lines added, after which whatever
    the retry gives comes out; an error is passed on without retry exactly
    when its text holds neither "valid JSON object" nor "returned no text
    content" in any case. *)
Theorem model_response_handling :
  (* the candidates and their order *)
  (forall trimmed,
     (Labeling.parseCandidates trimmed = [trimmed] /\
      (Labeling.codeFenceGroup trimmed = None \/ Labeling.codeFenceGroup trimmed = Some ""))
     \/
     (exists group,
         Labeling.codeFenceGroup trimmed = Some group /\ group <> "" /\
         Labeling.parseCandidates trimmed = [JsString.trim group; trimmed])) /\
  (forall text group obj,
     Labeling.codeFenceGroup (JsString.trim text) = Some group ->
     Json.parse (JsString.trim group) = Some obj ->
     Json.isRecord obj = true ->
     Labeling.parseJsonObject text = Labeling.Returns obj) /\
  (forall text obj,
     (forall group fenced,
        Labeling.codeFenceGroup (JsString.trim text) = Some group ->
        Json.parse (JsString.trim group) = Some fenced ->
        Json.isRecord fenced = false) ->
     Json.parse (JsString.trim text) = Some obj ->
     Json.isRecord obj = true ->
     Labeling.parseJsonObject text = Labeling.Returns obj) /\
  (* the two errors that are retried *)
  (forall text e,
     Labeling.parseJsonObject text = Labeling.Throws e ->
     e = Labeling.newError
           ("Gemini response was not valid JSON object. Raw response: "
            ++ JsString.trim text) /\
     Labeling.shouldRetry e = true) /\
  (forall bodyText data e,
     Labeling.extractGeminiText bodyText data = Labeling.Throws e ->
     e = Labeling.newError ("Gemini returned no text content: " ++ bodyText) /\
     Labeling.shouldRetry e = true) /\
  (* one request, or two *)
  (forall api s,
     let first := Labeling.analyse api 0 s (Labeling.firstRequest s) in
     let run := Labeling.runLabelsAnalysis api s in
     (snd run = [Labeling.firstRequest s] /\ fst run = first /\
      match first with
      | Labeling.Returns _ => True
      | Labeling.Throws e => Labeling.shouldRetry e = false
      end)
     \/
     (snd run = [Labeling.firstRequest s; Labeling.retryRequest s] /\
      fst run = Labeling.analyse api 1 s (Labeling.retryRequest s) /\
      exists e, first = Labeling.Throws e /\ Labeling.shouldRetry e = true)) /\
  (forall s,
     Labeling.temperature (Labeling.firstRequest s) = 1 # 10 /\
     Labeling.temperature (Labeling.retryRequest s) = 0%Q /\
     Labeling.promptText (Labeling.retryRequest s)
     = Labeling.promptText (Labeling.firstRequest s) ++ Labeling.newline
       ++ JsString.join Labeling.newline Labeling.compactRetryLines) /\
  (* a fenced object: no retry *)
  (forall api s status bodyText data text group obj,
     api 0%nat (Labeling.firstRequest s) = Labeling.Responds status bodyText data ->
     Labeling.responseOk status = true ->
     Labeling.extractGeminiText bodyText data = Labeling.Returns text ->
     Labeling.codeFenceGroup (JsString.trim text) = Some group ->
     Json.parse (JsString.trim group) = Some obj ->
     Json.isRecord obj = true ->
     Labeling.runLabelsAnalysis api s
     = (Labeling.Returns (Labeling.mkLabelsResult obj (Labeling.model s)),
        [Labeling.firstRequest s])) /\
  (* no JSON object, or no text: one retry, whose outcome comes out *)
  (forall api s status bodyText data,
     api 0%nat (Labeling.firstRequest s) = Labeling.Responds status bodyText data ->
     Labeling.responseOk status = true ->
     match Labeling.extractGeminiText bodyText data with
     | Labeling.Throws _ => True
     | Labeling.Returns text =>
         Labeling.firstRecord (Labeling.parseCandidates (JsString.trim text)) = None
     end ->
     Labeling.runLabelsAnalysis api s
     = (Labeling.analyse api 1 s (Labeling.retryRequest s),
        [Labeling.firstRequest s; Labeling.retryRequest s])) /\
  (* a failed request is passed on unless its text asks for the retry *)
  (forall api s status bodyText data,
     api 0%nat (Labeling.firstRequest s) = Labeling.Responds status bodyText data ->
     Labeling.responseOk status = false ->
     let e := Labeling.newError
                ("Gemini API error " ++ JsString.ofNumber status ++ ": " ++ bodyText) in
     Labeling.shouldRetry e = false ->
     Labeling.runLabelsAnalysis api s = (Labeling.Throws e, [Labeling.firstRequest s])).
Proof.
  split; [exact parseCandidates_order|].
  split; [exact fenced_object_returned|].
  split; [exact direct_object_returned|].
  split; [exact parseJsonObject_throws|].
  split; [exact extractGeminiText_throws|].
  split; [exact runLabelsAnalysis_cases|].
  split; [exact retry_request_shape|].
  split; [|split].
  - intros api s status bodyText data text group obj Hapi Hok Htext Hg Hp Hr.
    unfold Labeling.runLabelsAnalysis, Labeling.analyse, Labeling.geminiGenerateContent.
    rewrite Hapi, Hok. cbn [negb]. rewrite Htext.
    now rewrite (fenced_object_returned text group obj Hg Hp Hr).
  - intros api s status bodyText data Hapi Hok Hbad.
    unfold Labeling.runLabelsAnalysis.
    assert (Hfirst : exists e,
               Labeling.analyse api 0 s (Labeling.firstRequest s) = Labeling.Throws e /\
               Labeling.shouldRetry e = true).
    { unfold Labeling.analyse, Labeling.geminiGenerateContent.
      rewrite Hapi, Hok. cbn [negb].
      destruct (Labeling.extractGeminiText bodyText data) as [text|e] eqn:Htext.
      - unfold Labeling.parseJsonObject. rewrite Hbad.
        eexists. split; [reflexivity|apply shouldRetry_malformed].
      - exists e. split; [reflexivity|].
        now apply (extractGeminiText_throws bodyText data). }
    destruct Hfirst as (e & -> & ->). reflexivity.
  - intros api s status bodyText data Hapi Hbad e Hno.
    unfold Labeling.runLabelsAnalysis, Labeling.analyse, Labeling.geminiGenerateContent.
    rewrite Hapi, Hbad. cbn [negb]. fold e. now rewrite Hno.
Qed.

(** Sample runs: a fenced answer, an answer without JSON, an overloaded
    server, a request that timed out. *)
Example labeling_samples :
  (exists obj,
      Labeling.runLabelsAnalysis
        (LabelingSpec.always (LabelingSpec.respondsText LabelingSpec.fencedAnswer))
        LabelingSpec.settings
      = (Labeling.Returns (Labeling.mkLabelsResult obj "gemini-2.5-pro"),
         [Labeling.firstRequest LabelingSpec.settings])) /\
  Labeling.runLabelsAnalysis
    (LabelingSpec.always (LabelingSpec.respondsText "The page shows a login form."))
    LabelingSpec.settings
  = (Labeling.Throws
       (Labeling.newError
          "Gemini response was not valid JSON object. Raw response: The page shows a login form."),
     [Labeling.firstRequest LabelingSpec.settings;
      Labeling.retryRequest LabelingSpec.settings]) /\
  List.length
    (snd (Labeling.runLabelsAnalysis (LabelingSpec.always LabelingSpec.overloaded)
            LabelingSpec.settings)) = 1%nat /\
  Labeling.runLabelsAnalysis
    (LabelingSpec.always
       (Labeling.Rejects (Labeling.mkJsError "AbortError" "This operation was aborted")))
    LabelingSpec.settings
  = (Labeling.Throws (Labeling.newError "Gemini request timed out after 90000ms."),
     [Labeling.firstRequest LabelingSpec.settings]).
Proof.
  split; [eexists; vm_compute; reflexivity|].
  repeat split; vm_compute; reflexivity.
Qed.

(** ** The worker bridge *)

Section BridgeFacts.
Import Bridge.






Lemma timeoutMessage_eq (op : option string) :
  "CDP bridge timed out after " ++ JsString.ofNumber BRIDGE_TIMEOUT_MS
  ++ "ms (op: " ++ opName op ++ ")." = timeoutMessage op.
Proof. reflexivity. Qed.




End BridgeFacts.


(** Sample invocations: a hanging worker, a failing worker, a worker that
    answers in two chunks. *)
Example bridge_samples :
  Bridge.settlements (Bridge.runBridge (Some "scanZones") [Bridge.StdoutData "{"] [Bridge.Close None])
  = [Bridge.Rejected "CDP bridge timed out after 120000ms (op: scanZones)."] /\
  Bridge.settlements
    (Bridge.runBridge (Some "execute")
       (Bridge.workerFails "Error: selector is required.") [])
  = [Bridge.Rejected "Error: selector is required."] /\
  Bridge.settlements
    (Bridge.runBridge (Some "navigate")
       [Bridge.StdoutData ("{" ++ Labeling.dq ++ "ok" ++ Labeling.dq);
        Bridge.StdoutData ":true}"; Bridge.Close (Some 0)] [])
  = [Bridge.Resolved (Json.Object [([111%N; 107%N], Json.Boolean true)])] /\
  Bridge.settlements (Bridge.runBridge None [Bridge.Close None] [])
  = [Bridge.Rejected "CDP bridge failed with exit code null"].
Proof. vm_compute. repeat split. Qed.

(** * Further properties *)

(** ** The grid, from cells to labels *)


Lemma string_of_uint_digits (u : Decimal.uint) :
  JsString.all JsString.isDigit (NilEmpty.string_of_uint u) = true.
Proof.
  induction u; cbn [NilEmpty.string_of_uint JsString.all];
    [reflexivity|rewrite IHu; reflexivity..].
Qed.

Lemma string_of_uint_nonnil (u : Decimal.uint) :
  u <> Decimal.Nil -> NilZero.string_of_uint u = NilEmpty.string_of_uint u.
Proof. destruct u; [contradiction|reflexivity..]. Qed.

(** The decimal numeral of a positive integer: a non-zero digit followed by
    digits, which read back as the integer. *)
Lemma ofNumber_positive (n : Z) :
  1 <= n ->
  exists d ds,
    JsString.ofNumber n = String d ds /\
    Grid.isPositiveDigit d = true /\
    JsString.all JsString.isDigit ds = true /\
    JsString.parseInt (String d ds) = n.
Proof.
  intros Hn. destruct n as [|p|p]; try lia.
  unfold JsString.ofNumber. cbn [Z.to_int NilZero.string_of_int].
  assert (Hnorm : Decimal.unorm (Pos.to_uint p) = Pos.to_uint p).
  { rewrite <- (DecimalPos.Unsigned.to_of (Pos.to_uint p)).
    now rewrite DecimalPos.Unsigned.of_to. }
  pose proof (DecimalPos.Unsigned.to_uint_nonzero p) as Hnz.
  pose proof (DecimalPos.Unsigned.to_uint_nonnil p) as Hnn.
  pose proof (DecimalPos.Unsigned.of_to p) as Hof.
  assert (Hform : exists d ds,
             NilZero.string_of_uint (Pos.to_uint p) = String d ds /\
             Grid.isPositiveDigit d = true /\
             JsString.all JsString.isDigit ds = true).
  { destruct (Pos.to_uint p) as [|u|u|u|u|u|u|u|u|u|u] eqn:E;
      try (eexists; eexists; split; [reflexivity|];
           split; [reflexivity|apply string_of_uint_digits]).
    - contradiction.
    - exfalso. unfold Decimal.unorm in Hnorm.
      destruct (Decimal.nzhead (Decimal.D0 u)) eqn:Hz.
      + injection Hnorm as <-. now apply Hnz.
      + rewrite Hnorm in Hz. now apply nzhead_nonzero in Hz.
      + discriminate Hnorm.
      + discriminate Hnorm.
      + discriminate Hnorm.
      + discriminate Hnorm.
      + discriminate Hnorm.
      + discriminate Hnorm.
      + discriminate Hnorm.
      + discriminate Hnorm.
      + discriminate Hnorm. }
  destruct Hform as (d & ds & Hs & Hd & Hds).
  exists d, ds. repeat split; try assumption.
  pose proof (ofNumber_parseInt d ds Hd Hds) as Hback.
  unfold JsString.ofNumber in Hback.
  assert (Hp : 1 <= JsString.parseInt (String d ds)).
  { unfold JsString.parseInt. cbn [JsString.parseDigits].
    apply between_spec in Hd.
    pose proof (parseDigits_lower_bound ds (0 * 10 + (JsString.charCode d - 48))
                  Hds ltac:(lia)). lia. }
  destruct (JsString.parseInt (String d ds)) as [|m|m] eqn:Em; try lia.
  cbn [Z.to_int NilZero.string_of_int] in Hback.
  rewrite <- Hs in Hback.
  assert (Hu : Pos.to_uint m = Pos.to_uint p).
  { rewrite !string_of_uint_nonnil in Hback
      by apply DecimalPos.Unsigned.to_uint_nonnil.
    apply (f_equal NilEmpty.uint_of_string) in Hback.
    rewrite !NilEmpty.usu in Hback. now injection Hback. }
  apply DecimalPos.Unsigned.to_uint_inj in Hu. now subst.
Qed.






(** ** The compositor beyond the sample range *)

Lemma parseCell_nonempty (input : string) (c : Grid.Cell) :
  Grid.parseCell input = Ok c -> JsString.isEmpty input = false.
Proof. destruct input; [discriminate|reflexivity]. Qed.

Lemma parseCell_nonneg (input : string) (c : Grid.Cell) :
  Grid.parseCell input = Ok c -> 0 <= Grid.col c /\ 0 <= Grid.row c.
Proof.
  intros H. pose proof (parseCell_cases input) as Hc.
  destruct (Grid.cellPattern _) as [[letters digits]|];
    [|rewrite Hc in H; discriminate H].
  destruct Hc as (Hl & Hd & Hln & Hdn & Hc).
  pose proof (colNumber_lower_bound letters 0 Hl ltac:(lia)) as Hlo.
  assert (1 <= Z.of_nat (String.length letters))
    by (destruct letters; [contradiction|cbn [String.length]; lia]).
  pose proof (parseDigits_nonneg digits 0 Hd ltac:(lia)) as Hr.
  fold (JsString.parseInt digits) in Hr.
  destruct (JsString.parseInt digits =? 0) eqn:E;
    rewrite Hc in H; [discriminate H|].
  apply Z.eqb_neq in E. injection H as <-. cbn [Grid.col Grid.row]. lia.
Qed.

(** X2. A range whose top-left cell starts inside the captured frame is
    cropped to the part of it that lies in the frame: the screenshot
    succeeds, the pasted content is the range's pixel rectangle cut at the
    frame's right and bottom edges, it is pasted at (50, 50), and the canvas
    is that rectangle plus the 50-pixel label margin on each axis. *)
Theorem crop_is_clipped_to_frame
  (frame : Compositor.Frame) (start end_ : string) (from to : Grid.Cell) :
  Grid.parseCell start = Ok from ->
  Grid.parseCell end_ = Ok to ->
  Z.min (Grid.col from) (Grid.col to) * Grid.CELL_SIZE < Compositor.frameWidth frame ->
  Z.min (Grid.row from) (Grid.row to) * Grid.CELL_SIZE < Compositor.frameHeight frame ->
  let left := Z.min (Grid.col from) (Grid.col to) * Grid.CELL_SIZE in
  let top := Z.min (Grid.row from) (Grid.row to) * Grid.CELL_SIZE in
  let right := Z.min (Compositor.frameWidth frame)
                 ((Z.max (Grid.col from) (Grid.col to) + 1) * Grid.CELL_SIZE) in
  let bottom := Z.min (Compositor.frameHeight frame)
                  ((Z.max (Grid.row from) (Grid.row to) + 1) * Grid.CELL_SIZE) in
  exists image,
    Compositor.runGridScreenshot frame (Some start) (Some end_) = Ok image /\
    Compositor.content image
    = Compositor.mkRegion left top (right - left) (bottom - top) /\
    (0 <= left < right /\ right <= Compositor.frameWidth frame) /\
    (0 <= top < bottom /\ bottom <= Compositor.frameHeight frame) /\
    Compositor.contentLeft image = Grid.LABEL_MARGIN /\
    Compositor.contentTop image = Grid.LABEL_MARGIN /\
    Compositor.canvasWidth image = right - left + Grid.LABEL_MARGIN /\
    Compositor.canvasHeight image = bottom - top + Grid.LABEL_MARGIN.
Proof.
  intros Hfrom Hto Hw Hh left top right bottom.
  destruct (parseCell_nonneg _ _ Hfrom) as [Hfc Hfr].
  destruct (parseCell_nonneg _ _ Hto) as [Htc Htr].
  unfold Grid.CELL_SIZE in *.
  assert (Hl : 0 <= left < right /\ right <= Compositor.frameWidth frame)
    by (subst left right; lia).
  assert (Ht : 0 <= top < bottom /\ bottom <= Compositor.frameHeight frame)
    by (subst top bottom; lia).
  unfold Compositor.runGridScreenshot.
  destruct (Compositor.frameWidth frame =? 0) eqn:Ew; [apply Z.eqb_eq in Ew; lia|].
  destruct (Compositor.frameHeight frame =? 0) eqn:Eh; [apply Z.eqb_eq in Eh; lia|].
  cbn [orb Compositor.truthy Compositor.text].
  rewrite (parseCell_nonempty _ _ Hfrom), (parseCell_nonempty _ _ Hto).
  cbn [negb andb]. rewrite Hfrom, Hto. cbn [bind].
  unfold Grid.CELL_SIZE. fold left top right bottom.
  rewrite (Z.max_r 0 left), (Z.max_r 0 top) by lia.
  rewrite (Z.max_r 1 (right - left)), (Z.max_r 1 (bottom - top)) by lia.
  unfold Compositor.extract.
  cbn [Compositor.regionLeft Compositor.regionTop Compositor.regionWidth
         Compositor.regionHeight].
  replace (0 <=? left) with true by (symmetry; apply Z.leb_le; lia).
  replace (0 <=? top) with true by (symmetry; apply Z.leb_le; lia).
  replace (0 <? right - left) with true by (symmetry; apply Z.ltb_lt; lia).
  replace (0 <? bottom - top) with true by (symmetry; apply Z.ltb_lt; lia).
  replace (left + (right - left) <=? Compositor.frameWidth frame) with true
    by (symmetry; apply Z.leb_le; lia).
  replace (top + (bottom - top) <=? Compositor.frameHeight frame) with true
    by (symmetry; apply Z.leb_le; lia).
  cbn [andb bind]. eexists. split; [reflexivity|].
  cbn [Compositor.content Compositor.contentLeft Compositor.contentTop
         Compositor.canvasWidth Compositor.canvasHeight].
  repeat split; try reflexivity; lia.
Qed.

Lemma crop_is_clipped_to_frame_witness :
  let frame := Compositor.mkFrame 1000 800 in
  exists image,
    Compositor.runGridScreenshot frame (Some "i7") (Some "L9") = Ok image /\
    Compositor.content image = Compositor.mkRegion 800 600 200 200 /\
    (0 <= 800 < 1000 /\ 1000 <= 1000) /\
    (0 <= 600 < 800 /\ 800 <= 800) /\
    Compositor.contentLeft image = 50 /\
    Compositor.contentTop image = 50 /\
    Compositor.canvasWidth image = 250 /\
    Compositor.canvasHeight image = 250.
Proof.
  exact (crop_is_clipped_to_frame (Compositor.mkFrame 1000 800) "i7" "L9"
           (Grid.mkCell 8 6) (Grid.mkCell 11 8) eq_refl eq_refl eq_refl eq_refl).
Defined.

(** The zone name only labels the result of the attempts. *)
Lemma scanAttempts_name_only
  (page : Scanner.PageScript) (name1 name2 : string) (b : Scanner.Bounds)
  (cs : Scanner.CoordinateSpace) (r : nat) :
  forall (attempt : Z) (lastError : option string) (st : Scanner.PageState),
    attempt = Scanner.maxAttempts - Z.of_nat r ->
    let run1 := Scanner.scanAttempts page name1 b cs (S r) attempt lastError st in
    let run2 := Scanner.scanAttempts page name2 b cs (S r) attempt lastError st in
    snd run1 = snd run2 /\
    match fst run1, fst run2 with
    | Ok zr1, Ok zr2 =>
        Scanner.zone zr1 = name1 /\ Scanner.zone zr2 = name2 /\
        Scanner.elements zr1 = Scanner.elements zr2
    | Throw m1, Throw m2 => m1 = m2
    | _, _ => False
    end.
Proof.
  induction r as [|r IH]; intros attempt lastError st Hattempt;
    cbv zeta; cbn [Scanner.scanAttempts];
    destruct (Scanner.evaluate page b cs _) as [[els|error] st2];
    cbn [fst snd]; try (split; [reflexivity|repeat split; reflexivity]).
  - replace (attempt >=? Scanner.maxAttempts) with true
      by (symmetry; apply Z.geb_le; cbn in Hattempt; lia).
    rewrite orb_true_r. cbn [fst snd]. now split.
  - destruct (negb (Scanner.isRecoverableScanError error)
              || (attempt >=? Scanner.maxAttempts));
      cbn [fst snd]; [now split|].
    refine (IH (attempt + 1) (Some error) _ _). lia.
Qed.

(** X3. The order in which the two corners of a range are given does not
    matter, as long as one of them is a readable coordinate: the grid
    screenshot is the same image (or the same error), and a zone scan makes
    the same calls on the page and finds the same elements; only the zone
    name keeps the order in which the corners were written. *)
Theorem corner_order_is_irrelevant (a b : string) :
  (exists c, Grid.parseCell a = Ok c) \/ (exists c, Grid.parseCell b = Ok c) ->
  (forall frame,
     Compositor.runGridScreenshot frame (Some a) (Some b)
     = Compositor.runGridScreenshot frame (Some b) (Some a)) /\
  (forall page cs st,
     let run1 := Scanner.runSingleZoneScanWithRetry page (Scanner.mkZone a b) cs st in
     let run2 := Scanner.runSingleZoneScanWithRetry page (Scanner.mkZone b a) cs st in
     snd run1 = snd run2 /\
     match fst run1, fst run2 with
     | Ok zr1, Ok zr2 =>
         Scanner.zone zr1 = JsString.toUpperCase a ++ ":" ++ JsString.toUpperCase b /\
         Scanner.zone zr2 = JsString.toUpperCase b ++ ":" ++ JsString.toUpperCase a /\
         Scanner.elements zr1 = Scanner.elements zr2
     | Throw m1, Throw m2 => m1 = m2
     | _, _ => False
     end).
Proof.
  intros Hone. split.
  - intros frame. unfold Compositor.runGridScreenshot.
    destruct (_ || _); [reflexivity|].
    rewrite (andb_comm (Compositor.truthy (Some b))).
    destruct (Compositor.truthy (Some a) && Compositor.truthy (Some b)); [|reflexivity].
    cbn [Compositor.text].
    destruct (Grid.parseCell a) as [ca|ma] eqn:Ea;
      destruct (Grid.parseCell b) as [cb|mb] eqn:Eb; cbn [bind]; try reflexivity.
    + now rewrite (Z.min_comm (Grid.col cb)), (Z.max_comm (Grid.col cb)),
        (Z.min_comm (Grid.row cb)), (Z.max_comm (Grid.row cb)).
    + destruct Hone as [[c Hc]|[c Hc]]; discriminate Hc.
  - intros page cs st. cbv zeta. unfold Scanner.runSingleZoneScanWithRetry.
    cbn [Scanner.zoneStart Scanner.zoneEnd].
    destruct (Grid.parseCell a) as [ca|ma] eqn:Ea;
      destruct (Grid.parseCell b) as [cb|mb] eqn:Eb; cbn [fst snd];
      try (split; reflexivity).
    + rewrite (Z.min_comm (Grid.col cb)), (Z.max_comm (Grid.col cb)),
        (Z.min_comm (Grid.row cb)), (Z.max_comm (Grid.row cb)).
      exact (scanAttempts_name_only page _ _ _ cs 2 1 None st eq_refl).
    + destruct Hone as [[c Hc]|[c Hc]]; discriminate Hc.
Qed.

Lemma corner_order_is_irrelevant_witness :
  (forall frame,
     Compositor.runGridScreenshot frame (Some "D4") (Some "b2")
     = Compositor.runGridScreenshot frame (Some "b2") (Some "D4")) /\
  (forall page cs st,
     let run1 := Scanner.runSingleZoneScanWithRetry page (Scanner.mkZone "D4" "b2") cs st in
     let run2 := Scanner.runSingleZoneScanWithRetry page (Scanner.mkZone "b2" "D4") cs st in
     snd run1 = snd run2 /\
     match fst run1, fst run2 with
     | Ok zr1, Ok zr2 =>
         Scanner.zone zr1 = "D4:B2" /\ Scanner.zone zr2 = "B2:D4" /\
         Scanner.elements zr1 = Scanner.elements zr2
     | Throw m1, Throw m2 => m1 = m2
     | _, _ => False
     end).
Proof.
  apply (corner_order_is_irrelevant "D4" "b2").
  left. exists (Grid.mkCell 3 3). reflexivity.
Defined.

Lemma In_range (n x : Z) : In x (Compositor.range n) <-> 0 <= x < n.
Proof.
  unfold Compositor.range. rewrite in_map_iff. split.
  - intros (k & <- & Hk). apply in_seq in Hk. lia.
  - intros Hx. exists (Z.to_nat x). split; [lia|]. apply in_seq. lia.
Qed.

Lemma ceilDiv_covers (a : Z) :
  1 <= a ->
  1 <= JsNumber.ceilDiv a Grid.CELL_SIZE /\
  a <= JsNumber.ceilDiv a Grid.CELL_SIZE * Grid.CELL_SIZE.
Proof.
  intros Ha. unfold JsNumber.ceilDiv, Grid.CELL_SIZE.
  pose proof (Z.mul_div_le (- a) 100 ltac:(lia)).
  assert (- a / 100 < 0) by (apply Z.div_lt_upper_bound; lia).
  lia.
Qed.

Lemma line_not_badge (colOffset rowOffset : Z) (x1 y1 x2 y2 : Z) (rows cols : list Z) :
  ~ In (Compositor.SvgLine x1 y1 x2 y2)
      (flat_map (fun r => flat_map (Compositor.cellBadge colOffset rowOffset r) cols) rows).
Proof.
  rewrite in_flat_map. intros (r & _ & H). apply in_flat_map in H as (c & _ & H).
  unfold Compositor.cellBadge in H. cbn [In] in H.
  destruct H as [H|[H|[]]]; discriminate H.
Qed.

(** The lines of an overlay are its vertical and horizontal grid lines. *)
Lemma overlay_lines (w h cols rows colOffset rowOffset : Z) (x1 y1 x2 y2 : Z) :
  In (Compositor.SvgLine x1 y1 x2 y2)
     (Compositor.svgNodes
        (Compositor.buildGridOverlaySvg w h cols rows colOffset rowOffset))
  <->
  (exists x, 0 <= x <= cols /\
     Compositor.SvgLine x1 y1 x2 y2
     = Compositor.verticalLine (Grid.LABEL_MARGIN + w) (Grid.LABEL_MARGIN + h) x) \/
  (exists y, 0 <= y <= rows /\
     Compositor.SvgLine x1 y1 x2 y2
     = Compositor.horizontalLine (Grid.LABEL_MARGIN + w) (Grid.LABEL_MARGIN + h) y).
Proof.
  unfold Compositor.buildGridOverlaySvg. cbn [Compositor.svgNodes].
  rewrite !in_app_iff, !in_map_iff. cbn [In]. split.
  - intros [[H|[H|[]]]|[(c & H & _)|[(r & H & _)|[(x & H & Hx)|[(y & H & Hy)|H]]]]];
      try discriminate H.
    + left. exists x. apply In_range in Hx. split; [lia|now symmetry].
    + right. exists y. apply In_range in Hy. split; [lia|now symmetry].
    + now apply line_not_badge in H.
  - intros [(x & Hx & H)|(y & Hy & H)].
    + right. right. right. left. exists x. split; [now symmetry|apply In_range; lia].
    + right. right. right. right. left. exists y.
      split; [now symmetry|apply In_range; lia].
Qed.

(** The overlay of a content area at least one pixel wide and high, with
    the column and row counts the compositor computes for it. *)
Lemma overlay_is_framed (w h colOffset rowOffset : Z) :
  1 <= w -> 1 <= h ->
  let totalW := Grid.LABEL_MARGIN + w in
  let totalH := Grid.LABEL_MARGIN + h in
  let svg := Compositor.buildGridOverlaySvg w h
               (JsNumber.ceilDiv w Grid.CELL_SIZE) (JsNumber.ceilDiv h Grid.CELL_SIZE)
               colOffset rowOffset in
  (forall x1 y1 x2 y2,
     In (Compositor.SvgLine x1 y1 x2 y2) (Compositor.svgNodes svg) ->
     Grid.LABEL_MARGIN <= x1 <= totalW /\ Grid.LABEL_MARGIN <= x2 <= totalW /\
     Grid.LABEL_MARGIN <= y1 <= totalH /\ Grid.LABEL_MARGIN <= y2 <= totalH) /\
  In (Compositor.SvgLine Grid.LABEL_MARGIN Grid.LABEL_MARGIN Grid.LABEL_MARGIN totalH)
     (Compositor.svgNodes svg) /\
  In (Compositor.SvgLine totalW Grid.LABEL_MARGIN totalW totalH)
     (Compositor.svgNodes svg) /\
  In (Compositor.SvgLine Grid.LABEL_MARGIN Grid.LABEL_MARGIN totalW Grid.LABEL_MARGIN)
     (Compositor.svgNodes svg) /\
  In (Compositor.SvgLine Grid.LABEL_MARGIN totalH totalW totalH)
     (Compositor.svgNodes svg).
Proof.
  intros Hw Hh totalW totalH svg. subst svg.
  destruct (ceilDiv_covers w Hw) as [Hc1 Hc2].
  destruct (ceilDiv_covers h Hh) as [Hr1 Hr2].
  set (cols := JsNumber.ceilDiv w Grid.CELL_SIZE) in *.
  set (rows := JsNumber.ceilDiv h Grid.CELL_SIZE) in *.
  unfold Grid.CELL_SIZE in Hc2, Hr2.
  split; [|repeat split].
  - intros x1 y1 x2 y2 H. apply overlay_lines in H.
    destruct H as [(x & Hx & H)|(y & Hy & H)];
      unfold Compositor.verticalLine, Compositor.horizontalLine in H;
      cbv zeta in H; fold totalW totalH in H;
      match type of H with
      | context [Z.min ?a ?b] => remember (Z.min a b) as p eqn:Ep
      end;
      injection H as -> -> -> ->; subst p totalW totalH;
      unfold Grid.LABEL_MARGIN, Grid.CELL_SIZE; lia.
  - apply overlay_lines. left. exists 0. split; [lia|].
    unfold Compositor.verticalLine. fold totalW totalH.
    replace (Z.min totalW (Grid.LABEL_MARGIN + 0 * Grid.CELL_SIZE))
      with Grid.LABEL_MARGIN; [reflexivity|].
    subst totalW. unfold Grid.LABEL_MARGIN, Grid.CELL_SIZE. lia.
  - apply overlay_lines. left. exists cols. split; [lia|].
    unfold Compositor.verticalLine. fold totalW totalH.
    replace (Z.min totalW (Grid.LABEL_MARGIN + cols * Grid.CELL_SIZE))
      with totalW; [reflexivity|].
    subst totalW. unfold Grid.LABEL_MARGIN, Grid.CELL_SIZE. lia.
  - apply overlay_lines. right. exists 0. split; [lia|].
    unfold Compositor.horizontalLine. fold totalW totalH.
    replace (Z.min totalH (Grid.LABEL_MARGIN + 0 * Grid.CELL_SIZE))
      with Grid.LABEL_MARGIN; [reflexivity|].
    subst totalH. unfold Grid.LABEL_MARGIN, Grid.CELL_SIZE. lia.
  - apply overlay_lines. right. exists rows. split; [lia|].
    unfold Compositor.horizontalLine. fold totalW totalH.
    replace (Z.min totalH (Grid.LABEL_MARGIN + rows * Grid.CELL_SIZE))
      with totalH; [reflexivity|].
    subst totalH. unfold Grid.LABEL_MARGIN, Grid.CELL_SIZE. lia.
Qed.

(** X4. In every grid screenshot, cropped or not, the overlay has the size
    of the canvas, no grid line leaves the area between the label margin
    and the canvas's far edges, and the four sides of the pasted content
    are grid lines: the last column and row are closed at the content's
    edge even when they are narrower than a full cell. *)
Theorem grid_lines_frame_the_content
  (frame : Compositor.Frame) (start end_ : option string) (image : Compositor.Composite) :
  0 <= Compositor.frameWidth frame -> 0 <= Compositor.frameHeight frame ->
  Compositor.runGridScreenshot frame start end_ = Ok image ->
  let svg := Compositor.overlay image in
  let W := Compositor.canvasWidth image in
  let H := Compositor.canvasHeight image in
  Compositor.svgWidth svg = W /\ Compositor.svgHeight svg = H /\
  W = Compositor.regionWidth (Compositor.content image) + Grid.LABEL_MARGIN /\
  H = Compositor.regionHeight (Compositor.content image) + Grid.LABEL_MARGIN /\
  (forall x1 y1 x2 y2,
     In (Compositor.SvgLine x1 y1 x2 y2) (Compositor.svgNodes svg) ->
     Grid.LABEL_MARGIN <= x1 <= W /\ Grid.LABEL_MARGIN <= x2 <= W /\
     Grid.LABEL_MARGIN <= y1 <= H /\ Grid.LABEL_MARGIN <= y2 <= H) /\
  In (Compositor.SvgLine Grid.LABEL_MARGIN Grid.LABEL_MARGIN Grid.LABEL_MARGIN H)
     (Compositor.svgNodes svg) /\
  In (Compositor.SvgLine W Grid.LABEL_MARGIN W H) (Compositor.svgNodes svg) /\
  In (Compositor.SvgLine Grid.LABEL_MARGIN Grid.LABEL_MARGIN W Grid.LABEL_MARGIN)
     (Compositor.svgNodes svg) /\
  In (Compositor.SvgLine Grid.LABEL_MARGIN H W H) (Compositor.svgNodes svg).
Proof.
  intros Hw Hh Hrun. unfold Compositor.runGridScreenshot in Hrun.
  destruct (Compositor.frameWidth frame =? 0) eqn:Ew; [discriminate Hrun|].
  destruct (Compositor.frameHeight frame =? 0) eqn:Eh; [discriminate Hrun|].
  apply Z.eqb_neq in Ew, Eh. cbn [orb] in Hrun.
  destruct (Compositor.truthy start && Compositor.truthy end_).
  - destruct (Grid.parseCell (Compositor.text start)) as [from|]; [|discriminate Hrun].
    destruct (Grid.parseCell (Compositor.text end_)) as [to|]; [|discriminate Hrun].
    cbn [bind] in Hrun.
    destruct (Compositor.extract frame _) as [area|] eqn:Hex; [|discriminate Hrun].
    cbn [bind] in Hrun. injection Hrun as <-.
    unfold Compositor.extract in Hex. destruct (_ && _) in Hex; [|discriminate Hex].
    injection Hex as <-.
    cbn [Compositor.overlay Compositor.canvasWidth Compositor.canvasHeight
           Compositor.content Compositor.regionWidth Compositor.regionHeight].
    match goal with
    | |- context [Compositor.buildGridOverlaySvg ?w ?h _ _ ?co ?ro] =>
        pose proof (overlay_is_framed w h co ro ltac:(lia) ltac:(lia)) as F;
        set (cw := w) in *; set (ch := h) in *
    end.
    cbv zeta in F |- *. rewrite (Z.add_comm cw), (Z.add_comm ch).
    destruct F as (F1 & F2 & F3 & F4 & F5).
    do 4 (split; [reflexivity|]).
    split; [exact F1|]. split; [exact F2|]. split; [exact F3|].
    split; [exact F4|exact F5].
  - injection Hrun as <-.
    cbn [Compositor.overlay Compositor.canvasWidth Compositor.canvasHeight
           Compositor.content Compositor.regionWidth Compositor.regionHeight].
    pose proof (overlay_is_framed (Compositor.frameWidth frame)
                  (Compositor.frameHeight frame) 0 0 ltac:(lia) ltac:(lia)) as F.
    cbv zeta in F |- *.
    rewrite (Z.add_comm (Compositor.frameWidth frame)),
      (Z.add_comm (Compositor.frameHeight frame)).
    destruct F as (F1 & F2 & F3 & F4 & F5).
    do 4 (split; [reflexivity|]).
    split; [exact F1|]. split; [exact F2|]. split; [exact F3|].
    split; [exact F4|exact F5].
Qed.

Lemma grid_lines_frame_the_content_witness :
  let image := Compositor.mkComposite 170 130 (Compositor.mkRegion 100 100 120 80) 50 50
                 (Compositor.buildGridOverlaySvg 120 80 2 1 1 1) in
  let svg := Compositor.overlay image in
  Compositor.svgWidth svg = 170 /\ Compositor.svgHeight svg = 130 /\
  170 = 120 + 50 /\ 130 = 80 + 50 /\
  (forall x1 y1 x2 y2,
     In (Compositor.SvgLine x1 y1 x2 y2) (Compositor.svgNodes svg) ->
     50 <= x1 <= 170 /\ 50 <= x2 <= 170 /\ 50 <= y1 <= 130 /\ 50 <= y2 <= 130) /\
  In (Compositor.SvgLine 50 50 50 130) (Compositor.svgNodes svg) /\
  In (Compositor.SvgLine 170 50 170 130) (Compositor.svgNodes svg) /\
  In (Compositor.SvgLine 50 50 170 50) (Compositor.svgNodes svg) /\
  In (Compositor.SvgLine 50 130 170 130) (Compositor.svgNodes svg).
Proof.
  exact (grid_lines_frame_the_content (Compositor.mkFrame 220 180) (Some "B2") (Some "C2")
           _ ltac:(cbn; lia) ltac:(cbn; lia) eq_refl).
Defined.

(** ** The scanner: element texts, selectors, candidates, ordering *)

Lemma collapseFrom_length (s : string) (b : bool) :
  (String.length (Scanner.collapseFrom b s) <= String.length s)%nat.
Proof.
  revert b. induction s as [|c s IH]; intros b; cbn [Scanner.collapseFrom String.length];
    [lia|].
  pose proof (IH true). pose proof (IH false).
  destruct (JsString.isWhiteSpace c); [destruct b|]; cbn [String.length]; lia.
Qed.

(** A text that collapsing with a run under way leaves alone does not
    begin with white space. *)
Lemma collapse_fixed_head (c : ascii) (s : string) :
  Scanner.collapseFrom true (String c s) = String c s ->
  JsString.isWhiteSpace c = false.
Proof.
  cbn [Scanner.collapseFrom]. destruct (JsString.isWhiteSpace c); [|reflexivity].
  intros H. apply (f_equal String.length) in H. cbn [String.length] in H.
  pose proof (collapseFrom_length s true). lia.
Qed.

Lemma collapse_idempotent (s : string) :
  (forall b, Scanner.collapseFrom false (Scanner.collapseFrom b s)
             = Scanner.collapseFrom b s) /\
  Scanner.collapseFrom true (Scanner.collapseFrom true s) = Scanner.collapseFrom true s.
Proof.
  induction s as [|c s [IHf IHt]]; [split; [intros b|]; reflexivity|].
  split; [intros b|]; cbn [Scanner.collapseFrom];
    destruct (JsString.isWhiteSpace c) eqn:E.
  - destruct b; [apply IHf|]. cbn [Scanner.collapseFrom].
    change (JsString.isWhiteSpace " ") with true. cbn iota. now rewrite IHt.
  - cbn [Scanner.collapseFrom]. rewrite E. now rewrite IHf.
  - exact IHt.
  - cbn [Scanner.collapseFrom]. rewrite E. now rewrite IHf.
Qed.

(** A prefix of a collapsed text is collapsed. *)
Lemma collapse_fixed_prefix (p q : string) :
  forall b, Scanner.collapseFrom b (p ++ q) = p ++ q -> Scanner.collapseFrom b p = p.
Proof.
  induction p as [|c p IH]; intros b; [reflexivity|].
  cbn [append Scanner.collapseFrom].
  destruct (JsString.isWhiteSpace c) eqn:E.
  - destruct b.
    + intros H. apply (f_equal String.length) in H. cbn [String.length] in H.
      pose proof (collapseFrom_length (p ++ q) true). lia.
    + intros H. injection H as Hc H. now rewrite (IH true H), Hc.
  - intros H. injection H as H. now rewrite (IH false H).
Qed.

Lemma collapse_fixed_chars (s : string) :
  forall b, Scanner.collapseFrom b s = s ->
            JsString.all (fun c => negb (JsString.isWhiteSpace c) || Ascii.eqb c " ") s
            = true.
Proof.
  induction s as [|c s IH]; intros b; [reflexivity|].
  cbn [Scanner.collapseFrom JsString.all].
  destruct (JsString.isWhiteSpace c) eqn:E.
  - destruct b.
    + intros H. apply (f_equal String.length) in H. cbn [String.length] in H.
      pose proof (collapseFrom_length s true). lia.
    + intros H. injection H as Hc H. rewrite <- Hc, (IH true H). reflexivity.
  - intros H. injection H as H. now rewrite (IH false H).
Qed.

Lemma trimEnd_prefix (s : string) : exists q, s = JsString.trimEnd s ++ q.
Proof.
  induction s as [|c s [q IH]]; [now exists ""|].
  cbn [JsString.trimEnd]. destruct (JsString.trimEnd s) as [|d t] eqn:E.
  - destruct (JsString.isWhiteSpace c).
    + now exists (String c s).
    + exists s. reflexivity.
  - exists q. cbn [append]. f_equal. exact IH.
Qed.

Lemma substring_prefix (n : nat) (s : string) :
  exists q, s = String.substring 0 n s ++ q.
Proof.
  revert s. induction n as [|n IH]; intros s.
  - exists s. now destruct s.
  - destruct s as [|c s]; [now exists ""|].
    destruct (IH s) as [q Hq]. exists q. cbn [String.substring append]. now rewrite <- Hq.
Qed.

Lemma substring_length_le (n : nat) (s : string) :
  (String.length (String.substring 0 n s) <= n)%nat.
Proof.
  revert s. induction n as [|n IH]; intros s.
  - destruct s; cbn; lia.
  - destruct s as [|c s]; cbn [String.substring String.length]; [lia|].
    specialize (IH s). lia.
Qed.

Lemma dropWhile_head (p : ascii -> bool) (s : string) :
  match JsString.dropWhile p s with
  | EmptyString => True
  | String c _ => p c = false
  end.
Proof.
  induction s as [|c s IH]; cbn [JsString.dropWhile]; [exact I|].
  destruct (p c) eqn:E; [exact IH|exact E].
Qed.

(** Dropping leading white space from a collapsed text leaves a text that
    collapsing leaves alone even with a run under way. *)
Lemma collapse_fixed_trimStart (s : string) :
  Scanner.collapseFrom false s = s ->
  Scanner.collapseFrom true (JsString.trimStart s) = JsString.trimStart s.
Proof.
  unfold JsString.trimStart. destruct s as [|c s]; [reflexivity|].
  cbn [Scanner.collapseFrom JsString.dropWhile].
  destruct (JsString.isWhiteSpace c) eqn:E.
  - intros H. injection H as _ H.
    destruct s as [|d s]; [reflexivity|].
    pose proof (collapse_fixed_head d s H) as Hd.
    cbn [JsString.dropWhile]. now rewrite Hd.
  - intros H. injection H as H. cbn [Scanner.collapseFrom]. now rewrite E, H.
Qed.

Lemma collapse_fixed_true_false (s : string) :
  Scanner.collapseFrom true s = s ->
  Scanner.collapseFrom false s = s /\ JsString.trimStart s = s.
Proof.
  destruct s as [|c s]; [split; reflexivity|].
  intros H. pose proof (collapse_fixed_head c s H) as Hc.
  unfold JsString.trimStart.
  cbn [Scanner.collapseFrom JsString.dropWhile] in *. rewrite Hc in *. now split.
Qed.

(** X5. The text reported for an element is at most 60 characters long,
    holds no white space other than single blanks between words (no tab,
    no line break, no two blanks in a row), and does not begin with a
    blank. *)
Theorem element_text_is_short_and_single_spaced (el : Scanner.Element) :
  let t := Scanner.getText el in
  (String.length t <= 60)%nat /\
  JsString.all (fun c => negb (JsString.isWhiteSpace c) || Ascii.eqb c " ") t = true /\
  Scanner.collapseWhiteSpace t = t /\
  JsString.trimStart t = t.
Proof.
  cbv zeta. unfold Scanner.getText, Scanner.slice0, JsString.trim.
  set (raw := JsString.orElse _ _).
  split; [apply substring_length_le|].
  assert (Hfix : Scanner.collapseFrom true
                   (String.substring 0 60
                      (JsString.trimEnd (JsString.trimStart (Scanner.collapseWhiteSpace raw))))
                 = String.substring 0 60
                     (JsString.trimEnd (JsString.trimStart (Scanner.collapseWhiteSpace raw)))).
  { pose proof (collapse_fixed_trimStart (Scanner.collapseWhiteSpace raw)
                  (proj1 (collapse_idempotent raw) false)) as H0.
    set (s0 := JsString.trimStart (Scanner.collapseWhiteSpace raw)) in *.
    destruct (trimEnd_prefix s0) as [q1 H1].
    destruct (substring_prefix 60 (JsString.trimEnd s0)) as [q2 H2].
    apply (collapse_fixed_prefix _ q2). rewrite <- H2.
    apply (collapse_fixed_prefix _ q1). now rewrite <- H1. }
  destruct (collapse_fixed_true_false _ Hfix) as [Hf Ht].
  split; [exact (collapse_fixed_chars _ false Hf)|]. split; [exact Hf|exact Ht].
Qed.

Lemma escapeFallback_injective (a : string) :
  forall b, Scanner.escapeFallback a = Scanner.escapeFallback b -> a = b.
Proof.
  assert (Hbs : forall c, Scanner.isSafeCssChar c = true -> c <> "\"%char).
  { intros c Hc ->. discriminate Hc. }
  induction a as [|x a IH]; intros [|y b]; cbn [Scanner.escapeFallback].
  - reflexivity.
  - destruct (Scanner.isSafeCssChar y); discriminate.
  - destruct (Scanner.isSafeCssChar x); discriminate.
  - destruct (Scanner.isSafeCssChar x) eqn:Ex, (Scanner.isSafeCssChar y) eqn:Ey;
      intros H.
    + injection H as H1 H2. now rewrite H1, (IH b H2).
    + injection H as H1 _. now apply Hbs in Ex.
    + injection H as H1 _. symmetry in H1. now apply Hbs in Ey.
    + injection H as H1 H2. now rewrite H1, (IH b H2).
Qed.

Lemma append_cancel_l (a x y : string) : a ++ x = a ++ y -> x = y.
Proof.
  induction a as [|c a IH]; cbn [append]; [easy|].
  intros H. injection H as H. now apply IH.
Qed.

(** X6. Where the page has no [CSS.escape], the fallback that writes a
    backslash before every character outside [[a-zA-Z0-9_-]] loses nothing:
    two ids are escaped to the same text only if they are the same id, an
    id made of those characters is left as it is, and so two anchors of
    the same tag get the same selector segment only if their ids are
    equal. *)
Theorem fallback_escape_keeps_ids_apart :
  (forall a b,
     Scanner.escapeFallback a = Scanner.escapeFallback b -> a = b) /\
  (forall s,
     JsString.all Scanner.isSafeCssChar s = true -> Scanner.escapeFallback s = s) /\
  (forall w n1 n2,
     Scanner.cssEscape w = None ->
     Scanner.nodeTagName n1 = Scanner.nodeTagName n2 ->
     Scanner.nodeId n1 <> "" -> Scanner.nodeId n2 <> "" ->
     Scanner.segmentForAnchor w n1 = Scanner.segmentForAnchor w n2 ->
     Scanner.nodeId n1 = Scanner.nodeId n2).
Proof.
  split; [exact escapeFallback_injective|]. split.
  - induction s as [|c s IH]; cbn [JsString.all Scanner.escapeFallback]; [reflexivity|].
    rewrite andb_true_iff. intros [Hc Hs]. now rewrite Hc, (IH Hs).
  - intros w n1 n2 Hw Ht H1 H2. unfold Scanner.segmentForAnchor, Scanner.escapeCss.
    rewrite Hw, Ht.
    destruct (Scanner.nodeId n1) as [|c1 i1] eqn:E1; [contradiction|].
    destruct (Scanner.nodeId n2) as [|c2 i2] eqn:E2; [contradiction|].
    cbn [JsString.isEmpty negb]. intros H.
    apply append_cancel_l in H. apply (append_cancel_l "#") in H.
    now apply escapeFallback_injective.
Qed.

Lemma isEmpty_map (f : ascii -> ascii) (s : string) :
  JsString.isEmpty (JsString.map f s) = JsString.isEmpty s.
Proof. now destruct s. Qed.

Lemma insertSorted_forall {A : Type} (P : A -> Prop) (cmp : A -> A -> Z) (x : A)
  (l : list A) :
  P x -> Forall P l -> Forall P (Scanner.insertSorted cmp x l).
Proof.
  intros Hx Hl. eapply Permutation_Forall; [symmetry; apply insertSorted_perm|].
  now constructor.
Qed.

(** Inserting into a list that has its text-bearing entries first keeps
    them first. *)
Lemma insertSorted_text_first (w : Scanner.Window) (x : Scanner.ElementInfo)
  (A B : list Scanner.ElementInfo) :
  Forall (fun r => Scanner.text r <> "") A ->
  Forall (fun r => Scanner.text r = "") B ->
  exists A' B',
    Scanner.insertSorted (Scanner.compareResults w) x (A ++ B)%list = (A' ++ B')%list /\
    Forall (fun r => Scanner.text r <> "") A' /\
    Forall (fun r => Scanner.text r = "") B'.
Proof.
  intros HA HB.
  destruct (Scanner.text x) as [|c t] eqn:Ex.
  - (* no text: it passes every entry with text *)
    induction HA as [|a A Ha HA IH].
    + exists [], (Scanner.insertSorted (Scanner.compareResults w) x B).
      repeat split; [constructor|].
      apply insertSorted_forall; assumption.
    + destruct IH as (A' & B' & E & HA' & HB').
      exists (a :: A'), B'. repeat split; [|now constructor|assumption].
      cbn [app Scanner.insertSorted]. unfold Scanner.compareResults at 1.
      unfold JsString.toLowerCase. rewrite !isEmpty_map, Ex.
      destruct (Scanner.text a); [contradiction|].
      cbn [JsString.isEmpty negb andb Z.leb Z.compare]. now rewrite E.
  - (* with text: it stops before the first entry without text *)
    assert (Hx : Scanner.text x <> "") by (rewrite Ex; discriminate).
    induction HA as [|a A Ha HA IH].
    + destruct B as [|y B].
      * exists [x], []. repeat split; repeat constructor; assumption.
      * exists [x], (y :: B). repeat split; [|repeat constructor; assumption|assumption].
        cbn [app Scanner.insertSorted]. unfold Scanner.compareResults.
        unfold JsString.toLowerCase. rewrite !isEmpty_map, Ex.
        rewrite (Forall_inv HB). reflexivity.
    + destruct IH as (A' & B' & E & HA' & HB').
      cbn [app Scanner.insertSorted].
      destruct (Scanner.compareResults w x a <=? 0).
      * exists (x :: a :: A), B. repeat split; [|assumption].
        constructor; [assumption|]. now constructor.
      * exists (a :: A'), B'. rewrite E. repeat split; [now constructor|assumption].
Qed.

Lemma sort_text_first (w : Scanner.Window) (l : list Scanner.ElementInfo) :
  exists A B,
    Scanner.sort (Scanner.compareResults w) l = (A ++ B)%list /\
    Forall (fun r => Scanner.text r <> "") A /\
    Forall (fun r => Scanner.text r = "") B.
Proof.
  induction l as [|x l (A & B & E & HA & HB)].
  - exists [], []. repeat split; constructor.
  - cbn [Scanner.sort fold_right]. fold (Scanner.sort (Scanner.compareResults w) l).
    rewrite E. now apply insertSorted_text_first.
Qed.

(** X7. A scan lists the elements that have a text before all the
    elements that have none, whatever the page's string comparison does
    within the two groups. *)
Theorem scan_lists_elements_with_text_first
  (w : Scanner.Window) (doc : Scanner.Document) (b : Scanner.Bounds)
  (cs : Scanner.CoordinateSpace) :
  exists withText withoutText,
    Scanner.scanPage w doc b Grid.CELL_SIZE cs = (withText ++ withoutText)%list /\
    Forall (fun r => Scanner.text r <> "") withText /\
    Forall (fun r => Scanner.text r = "") withoutText.
Proof. unfold Scanner.scanPage. apply sort_text_first. Qed.

Lemma addCandidate_uids (acc : list Scanner.Element) (el : Scanner.Element) :
  NoDup (List.map Scanner.uid acc) ->
  NoDup (List.map Scanner.uid (Scanner.addCandidate acc el)) /\
  (forall x, (exists c, In c acc /\ Scanner.uid c = Scanner.uid x) \/ x = el ->
             exists c, In c (Scanner.addCandidate acc el) /\ Scanner.uid c = Scanner.uid x).
Proof.
  intros Hnd. unfold Scanner.addCandidate.
  destruct (existsb _ acc) eqn:E.
  - split; [exact Hnd|]. intros x [H| ->]; [exact H|].
    apply existsb_exists in E as (c & Hc & Hu). apply Nat.eqb_eq in Hu.
    now exists c.
  - split.
    + rewrite map_app. cbn [List.map].
      apply NoDup_app; [exact Hnd|repeat constructor; intros []|].
      intros u Hu [<-|[]]. apply in_map_iff in Hu as (c & Hu & Hc).
      assert (existsb (fun c0 => Scanner.uid c0 =? Scanner.uid el)%nat acc = true).
      { apply existsb_exists. exists c. split; [exact Hc|]. now apply Nat.eqb_eq. }
      congruence.
    + intros x [(c & Hc & Hu)| ->].
      * exists c. split; [apply in_or_app; now left|exact Hu].
      * exists el. split; [apply in_or_app; right; now left|reflexivity].
Qed.

Lemma fold_addCandidate_uids (l acc : list Scanner.Element) :
  NoDup (List.map Scanner.uid acc) ->
  NoDup (List.map Scanner.uid (fold_left Scanner.addCandidate l acc)) /\
  (forall x, (exists c, In c acc /\ Scanner.uid c = Scanner.uid x) \/ In x l ->
             exists c, In c (fold_left Scanner.addCandidate l acc)
                       /\ Scanner.uid c = Scanner.uid x).
Proof.
  revert acc. induction l as [|el l IH]; intros acc Hnd; cbn [fold_left].
  - split; [exact Hnd|]. intros x [H|[]]. exact H.
  - destruct (addCandidate_uids acc el Hnd) as [Hnd' Hin].
    destruct (IH _ Hnd') as [Hnd'' Hin'']. split; [exact Hnd''|].
    intros x [H|[<-|H]]; apply Hin''.
    + left. apply Hin. now left.
    + left. apply Hin. now right.
    + now right.
Qed.

(** X8. The candidates of a scan are a set of nodes: no node is visited
    twice even when both queries match it, every node matched by either
    query is among the candidates, and nothing else is. *)
Theorem candidates_are_a_set_of_the_matched_nodes (doc : Scanner.Document) :
  NoDup (List.map Scanner.uid (Scanner.candidatesOf doc)) /\
  (forall el,
     In el (Scanner.interactiveMatches doc) \/ In el (Scanner.pointerMatches doc) ->
     exists c, In c (Scanner.candidatesOf doc) /\ Scanner.uid c = Scanner.uid el) /\
  (forall c,
     In c (Scanner.candidatesOf doc) ->
     In c (Scanner.interactiveMatches doc) \/ In c (Scanner.pointerMatches doc)).
Proof.
  unfold Scanner.candidatesOf.
  destruct (fold_addCandidate_uids (Scanner.interactiveMatches doc) [] (NoDup_nil _))
    as [Hnd1 Hin1].
  destruct (fold_addCandidate_uids (Scanner.pointerMatches doc) _ Hnd1) as [Hnd2 Hin2].
  split; [exact Hnd2|]. split.
  - intros el [H|H]; apply Hin2; [left; apply Hin1; now right|now right].
  - apply candidatesOf_incl.
Qed.

(** One zone scan: at most three evaluations, the history of the page
    only grows, and a result carries the zone's name. *)
Lemma single_zone_scan_footprint
  (page : Scanner.PageScript) (z : Scanner.Zone) (cs : Scanner.CoordinateSpace)
  (st : Scanner.PageState) :
  let run := Scanner.runSingleZoneScanWithRetry page z cs st in
  (Scanner.evaluateCalls st <= Scanner.evaluateCalls (snd run)
   <= Scanner.evaluateCalls st + 3)%nat /\
  (exists events, Scanner.trace (snd run) = (Scanner.trace st ++ events)%list) /\
  (forall zr, fst run = Ok zr -> Scanner.zone zr = Scanner.zoneNameOf z).
Proof.
  cbv zeta. unfold Scanner.runSingleZoneScanWithRetry.
  destruct (Grid.parseCell (Scanner.zoneStart z)) as [from|].
  2:{ cbn [fst snd]. split; [lia|]. split; [exists []; now rewrite List.app_nil_r|].
      discriminate. }
  destruct (Grid.parseCell (Scanner.zoneEnd z)) as [to|].
  2:{ cbn [fst snd]. split; [lia|]. split; [exists []; now rewrite List.app_nil_r|].
      discriminate. }
  change (Z.to_nat Scanner.maxAttempts) with 3%nat.
  destruct (scanAttempts_spec page (Scanner.zoneNameOf z) (boundsOf from to) cs
              2 1 None st eq_refl) as (n & Hn & Hcalls & Htrace & _).
  unfold boundsOf in Hcalls, Htrace.
  split; [lia|]. split; [eexists; exact Htrace|].
  intros zr H. now apply scanAttempts_zone_name in H.
Qed.

(** X9. A scan of several zones answers zone by zone: when it succeeds
    there is one result per zone, in the order of the zones and under
    their upper-cased START:END names; whatever its outcome it makes at
    most three evaluations per zone and only adds to the page's history. *)
Theorem scan_zones_answers_zone_by_zone
  (page : Scanner.PageScript) (zones : list Scanner.Zone)
  (cs : Scanner.CoordinateSpace) (st : Scanner.PageState) :
  let run := Scanner.runScanZones page zones cs st in
  (forall results,
     fst run = Ok results ->
     List.map Scanner.zone results = List.map Scanner.zoneNameOf zones) /\
  (Scanner.evaluateCalls (snd run)
   <= Scanner.evaluateCalls st + 3 * List.length zones)%nat /\
  (exists events, Scanner.trace (snd run) = (Scanner.trace st ++ events)%list).
Proof.
  revert st. induction zones as [|z zones IH]; intros st; cbv zeta.
  - cbn [Scanner.runScanZones fst snd List.map List.length].
    split; [now intros results [= <-]|]. split; [lia|].
    exists []. now rewrite List.app_nil_r.
  - cbn [Scanner.runScanZones List.map List.length].
    pose proof (single_zone_scan_footprint page z cs st) as H1. cbv zeta in H1.
    destruct (Scanner.runSingleZoneScanWithRetry page z cs st) as [[zr|m] st1].
    + cbn [fst snd] in H1. destruct H1 as (Hc1 & (ev1 & Ht1) & Hn1).
      specialize (IH st1). cbv zeta in IH.
      destruct (Scanner.runScanZones page zones cs st1) as [[rs|m] st2];
        cbn [fst snd] in IH |- *; destruct IH as (Hn2 & Hc2 & (ev2 & Ht2)).
      * split; [|split; [lia|]].
        -- intros results [= <-]. cbn [List.map].
           now rewrite (Hn1 zr eq_refl), (Hn2 rs eq_refl).
        -- exists (ev1 ++ ev2)%list. now rewrite Ht2, Ht1, List.app_assoc.
      * split; [discriminate|]. split; [lia|].
        exists (ev1 ++ ev2)%list. now rewrite Ht2, Ht1, List.app_assoc.
    + cbn [fst snd] in H1 |- *. destruct H1 as (Hc1 & Ht1 & _).
      split; [discriminate|]. split; [lia|exact Ht1].
Qed.

(** X10. A scan of several zones stops at the first zone that fails: its
    error is the scan's error, the page is left as that zone's scan left
    it, and the zones after it are neither read nor scanned. *)
Theorem scan_zones_stops_at_first_failure
  (page : Scanner.PageScript) (before after : list Scanner.Zone) (z : Scanner.Zone)
  (cs : Scanner.CoordinateSpace) (st st1 st2 : Scanner.PageState)
  (results : list Scanner.ZoneResult) (m : string) :
  Scanner.runScanZones page before cs st = (Ok results, st1) ->
  Scanner.runSingleZoneScanWithRetry page z cs st1 = (Throw m, st2) ->
  Scanner.runScanZones page (before ++ z :: after) cs st = (Throw m, st2).
Proof.
  revert st results. induction before as [|z0 before IH]; intros st results Hb Hz.
  - cbn [Scanner.runScanZones] in Hb. injection Hb as _ <-.
    cbn [app Scanner.runScanZones]. now rewrite Hz.
  - cbn [app Scanner.runScanZones] in Hb |- *.
    destruct (Scanner.runSingleZoneScanWithRetry page z0 cs st) as [[zr|m0] st0];
      [|discriminate Hb].
    destruct (Scanner.runScanZones page before cs st0) as [[rs|m0] st0'] eqn:E;
      [|discriminate Hb].
    injection Hb as _ <-. now rewrite (IH st0 rs E Hz).
Qed.

Lemma scan_zones_stops_at_first_failure_witness :
  Scanner.runScanZones ScannerSpec.navigatingPage
    ([Scanner.mkZone "b2" "d4"] ++ Scanner.mkZone "B0" "D4" :: [Scanner.mkZone "??" ""])
    Scanner.Viewport Scanner.initialPageState
  = (Throw "Invalid row index in coordinate: B0",
     snd (Scanner.runScanZones ScannerSpec.navigatingPage [Scanner.mkZone "b2" "d4"]
            Scanner.Viewport Scanner.initialPageState)).
Proof.
  refine (scan_zones_stops_at_first_failure ScannerSpec.navigatingPage
            [Scanner.mkZone "b2" "d4"] [Scanner.mkZone "??" ""] (Scanner.mkZone "B0" "D4")
            Scanner.Viewport Scanner.initialPageState _ _
            (match fst (Scanner.runScanZones ScannerSpec.navigatingPage
                          [Scanner.mkZone "b2" "d4"] Scanner.Viewport
                          Scanner.initialPageState) with
             | Ok rs => rs
             | Throw _ => []
             end) _ _ _); vm_compute; reflexivity.
Defined.

(** The anchor is found among the nodes up to it. *)
Lemma findAnchor_prefix (chain : list Scanner.PathNode) (k : nat) :
  Scanner.findAnchor chain = Some k ->
  (k < List.length chain)%nat /\
  forall above,
    Scanner.findAnchor (firstn (S k) chain ++ above) = Some k.
Proof.
  revert k. induction chain as [|node chain IH]; intros k; cbn [Scanner.findAnchor];
    [discriminate|].
  destruct (JsString.isEmpty (Scanner.nodeTagName node)) eqn:Et; [discriminate|].
  destruct (negb (JsString.isEmpty (Scanner.nodeId node))) eqn:Ei.
  { intros [= <-]. split; [cbn; lia|]. intros above.
    cbn [firstn app Scanner.findAnchor]. now rewrite Et, Ei. }
  destruct (String.eqb _ "html") eqn:Eh.
  { intros [= <-]. split; [cbn; lia|]. intros above.
    cbn [firstn app Scanner.findAnchor]. now rewrite Et, Ei, Eh. }
  destruct (Scanner.findAnchor chain) as [j|] eqn:Ej; [|discriminate].
  cbn [option_map]. intros [= <-]. destruct (IH j eq_refl) as [Hj Habove].
  split; [cbn [List.length]; lia|]. intros above.
  change (firstn (S (S j)) (node :: chain)) with (node :: firstn (S j) chain).
  cbn [app Scanner.findAnchor]. now rewrite Et, Ei, Eh, Habove.
Qed.

Lemma segmentsBelow_prefix (chain : list Scanner.PathNode) (k : nat) :
  (k < List.length chain)%nat ->
  forall above,
    Scanner.segmentsBelow (firstn (S k) chain ++ above) (Some k)
    = Scanner.segmentsBelow chain (Some k).
Proof.
  revert chain. induction k as [|k IH]; intros chain Hk above.
  - destruct chain; [cbn in Hk; lia|]. reflexivity.
  - destruct chain as [|node chain]; [cbn in Hk; lia|].
    cbn [List.length] in Hk.
    change (firstn (S (S k)) (node :: chain)) with (node :: firstn (S k) chain).
    cbn [app Scanner.segmentsBelow option_map Nat.pred].
    rewrite (IH chain ltac:(lia) above). f_equal. f_equal.
    destruct chain as [|n2 chain]; [cbn in Hk; lia|]. reflexivity.
Qed.

Lemma nth_error_prefix {A : Type} (l above : list A) (k : nat) :
  (k < List.length l)%nat ->
  nth_error (firstn (S k) l ++ above) k = nth_error l k.
Proof.
  revert l. induction k as [|k IH]; intros [|x l] Hk; cbn in Hk; try lia.
  - reflexivity.
  - change (firstn (S (S k)) (x :: l)) with (x :: firstn (S k) l).
    cbn [app nth_error]. apply IH. lia.
Qed.

(** X11. A selector is built from the element up to its anchor (the
    nearest node, the element included, that has an id or is the [html]
    element) and from nothing above it: two elements whose chains agree up
    to the anchor get the same selector, whatever lies above. *)
Theorem selector_depends_on_the_chain_up_to_the_anchor
  (w : Scanner.Window) (el el' : Scanner.Element) (k : nat) :
  Scanner.findAnchor (Scanner.self el :: Scanner.ancestors el) = Some k ->
  firstn (S k) (Scanner.self el' :: Scanner.ancestors el')
  = firstn (S k) (Scanner.self el :: Scanner.ancestors el) ->
  Scanner.buildSelector w el' = Scanner.buildSelector w el.
Proof.
  intros Hk Hsame. unfold Scanner.buildSelector.
  set (chain := Scanner.self el :: Scanner.ancestors el) in *.
  set (chain' := Scanner.self el' :: Scanner.ancestors el') in *.
  destruct (findAnchor_prefix chain k Hk) as [Hlen Habove].
  assert (Hc' : chain' = (firstn (S k) chain ++ skipn (S k) chain')%list)
    by (rewrite <- Hsame; symmetry; apply firstn_skipn).
  rewrite Hc', Habove, Hk.
  rewrite (segmentsBelow_prefix chain k Hlen), (nth_error_prefix chain _ k Hlen).
  reflexivity.
Qed.

Lemma selector_depends_on_the_chain_up_to_the_anchor_witness :
  Scanner.buildSelector ScannerSpec.plainWindow
    (Scanner.mkElement 9 true (Scanner.mkPathNode "BUTTON" "" 1 0)
       [Scanner.mkPathNode "DIV" "card" 3 0; Scanner.mkPathNode "MAIN" "" 1 0]
       "" None false None false (Scanner.mkDOMRect 0 0 1 1) "" "" "" None "")
  = Scanner.buildSelector ScannerSpec.plainWindow (ScannerSpec.button 1 110 110).
Proof.
  apply (selector_depends_on_the_chain_up_to_the_anchor ScannerSpec.plainWindow
           (ScannerSpec.button 1 110 110) _ 1); reflexivity.
Defined.

Section Ordering.
Import Scanner.
Variable w : Window.
Hypothesis compare_total :
  forall x y, localeCompare w x y <= 0 \/ localeCompare w y x <= 0.
Hypothesis compare_transitive :
  forall x y z,
    localeCompare w x y <= 0 -> localeCompare w y z <= 0 -> localeCompare w x z <= 0.

Lemma compareResults_total (a b : ElementInfo) :
  compareResults w a b <= 0 \/ compareResults w b a <= 0.
Proof.
  unfold compareResults.
  destruct (JsString.isEmpty (JsString.toLowerCase (text a)));
    destruct (JsString.isEmpty (JsString.toLowerCase (text b)));
    cbn [negb andb]; try apply compare_total; [right|left]; lia.
Qed.

Lemma compareResults_transitive (a b c : ElementInfo) :
  compareResults w a b <= 0 -> compareResults w b c <= 0 -> compareResults w a c <= 0.
Proof.
  unfold compareResults.
  destruct (JsString.isEmpty (JsString.toLowerCase (text a)));
    destruct (JsString.isEmpty (JsString.toLowerCase (text b)));
    destruct (JsString.isEmpty (JsString.toLowerCase (text c)));
    cbn [negb andb]; try apply compare_transitive; intros; lia.
Qed.

Lemma insertSorted_sorted (x : ElementInfo) (l : list ElementInfo) :
  StronglySorted (fun a b => compareResults w a b <= 0) l ->
  StronglySorted (fun a b => compareResults w a b <= 0)
    (insertSorted (compareResults w) x l).
Proof.
  induction l as [|y l IH]; intros Hl; cbn [insertSorted].
  - repeat constructor.
  - apply StronglySorted_inv in Hl as [Hl Hy].
    destruct (compareResults w x y <=? 0) eqn:E.
    + apply Z.leb_le in E. constructor; [now constructor|].
      constructor; [exact E|].
      eapply Forall_impl; [|exact Hy]. intros z Hz.
      now apply (compareResults_transitive x y z).
    + apply Z.leb_gt in E. constructor; [now apply IH|].
      eapply Permutation_Forall; [symmetry; apply insertSorted_perm|].
      constructor; [|exact Hy].
      destruct (compareResults_total x y); lia.
Qed.

Lemma sort_sorted (l : list ElementInfo) :
  StronglySorted (fun a b => compareResults w a b <= 0) (sort (compareResults w) l).
Proof.
  induction l as [|x l IH]; [constructor|].
  cbn [sort fold_right]. now apply insertSorted_sorted.
Qed.

End Ordering.

(** X12. Where the page's string comparison is a total preorder (as a
    locale's collation is), the list a scan returns is sorted by the scan's
    comparator: every entry compares as not after every later entry, that
    is, by lower-cased text among the entries that have one, by selector
    among those that have none. *)
Theorem scan_results_are_sorted
  (w : Scanner.Window) (doc : Scanner.Document) (b : Scanner.Bounds)
  (cs : Scanner.CoordinateSpace) :
  (forall x y, Scanner.localeCompare w x y <= 0 \/ Scanner.localeCompare w y x <= 0) ->
  (forall x y z,
     Scanner.localeCompare w x y <= 0 -> Scanner.localeCompare w y z <= 0 ->
     Scanner.localeCompare w x z <= 0) ->
  StronglySorted (fun r1 r2 => Scanner.compareResults w r1 r2 <= 0)
    (Scanner.scanPage w doc b Grid.CELL_SIZE cs).
Proof.
  intros Htotal Htrans. unfold Scanner.scanPage. now apply sort_sorted.
Qed.

Lemma scan_results_are_sorted_witness :
  StronglySorted
    (fun r1 r2 => Scanner.compareResults ScannerSamples.lengthWindow r1 r2 <= 0)
    (Scanner.scanPage ScannerSamples.lengthWindow ScannerSpec.sampleDocument
       (Scanner.mkBounds 1 3 1 3) Grid.CELL_SIZE Scanner.Viewport).
Proof.
  apply (scan_results_are_sorted ScannerSamples.lengthWindow ScannerSpec.sampleDocument
           (Scanner.mkBounds 1 3 1 3) Scanner.Viewport).
  - intros x y. cbn [Scanner.localeCompare ScannerSamples.lengthWindow]. lia.
  - intros x y z. cbn [Scanner.localeCompare ScannerSamples.lengthWindow]. lia.
Defined.

Section Coverage.
Import Scanner ScannerSamples.
Variable w : Window.
Variable cs : CoordinateSpace.
Variable zone : Rect.



End Coverage.


(** ** The worker's actions *)

Section WorkerFacts.
Import Worker WorkerSpec.

Lemma normalizeLoadState_cases (v : option string) :
  normalizeLoadState v = "load" \/ normalizeLoadState v = "networkidle"
  \/ normalizeLoadState v = "domcontentloaded".
Proof.
  unfold normalizeLoadState.
  destruct (String.eqb _ "load") eqn:E1; [apply String.eqb_eq in E1; now left|].
  destruct (String.eqb _ "networkidle") eqn:E2;
    [apply String.eqb_eq in E2; right; now left|].
  right. now right.
Qed.

Lemma normalizeSelectorWaitState_cases (v : option string) :
  normalizeSelectorWaitState v = "attached" \/ normalizeSelectorWaitState v = "detached"
  \/ normalizeSelectorWaitState v = "hidden" \/ normalizeSelectorWaitState v = "visible".
Proof.
  unfold normalizeSelectorWaitState.
  destruct (String.eqb _ "attached") eqn:E1; [apply String.eqb_eq in E1; now left|].
  destruct (String.eqb _ "detached") eqn:E2;
    [apply String.eqb_eq in E2; right; now left|].
  destruct (String.eqb _ "hidden") eqn:E3;
    [apply String.eqb_eq in E3; right; right; now left|].
  right. right. now right.
Qed.

Lemma normalizeLoadState_ok (v : option string) :
  isLoadState (normalizeLoadState v) = true /\
  normalizeLoadState (Some (normalizeLoadState v)) = normalizeLoadState v.
Proof.
  destruct (normalizeLoadState_cases v) as [-> |[-> | ->]]; split; reflexivity.
Qed.

Lemma normalizeSelectorWaitState_ok (v : option string) :
  isSelectorState (normalizeSelectorWaitState v) = true /\
  normalizeSelectorWaitState (Some (normalizeSelectorWaitState v))
  = normalizeSelectorWaitState v.
Proof.
  destruct (normalizeSelectorWaitState_cases v) as [-> |[-> |[-> | ->]]];
    split; reflexivity.
Qed.

Lemma isPositive_not_le (q : Q) : Qle_bool q 0 = false -> isPositive q = true.
Proof. unfold isPositive, JsNumber.Qltb. now intros ->. Qed.

Lemma normalizeTimeoutMs_ok (v : option Q) :
  isPositive (normalizeTimeoutMs v) = true /\
  normalizeTimeoutMs (Some (normalizeTimeoutMs v)) = normalizeTimeoutMs v.
Proof.
  unfold normalizeTimeoutMs. destruct v as [q|]; [|split; reflexivity].
  destruct (Qle_bool q 0) eqn:E; [split; reflexivity|].
  split; [now apply isPositive_not_le|now rewrite E].
Qed.

Lemma normalizeTimeoutMsOrUndefined_ok (v : option Q) :
  holds isPositive (normalizeTimeoutMsOrUndefined v) = true.
Proof.
  unfold normalizeTimeoutMsOrUndefined. destruct v as [q|]; [|reflexivity].
  destruct (Qle_bool q 0) eqn:E; [reflexivity|]. now apply isPositive_not_le.
Qed.

Lemma orUndefined_trim (s : string) :
  holds isTrimmed (JsString.orUndefined (JsString.trim s)) = true.
Proof.
  unfold JsString.orUndefined, isTrimmed.
  destruct (JsString.isEmpty (JsString.trim s)) eqn:E; [reflexivity|].
  cbn [holds]. rewrite E, trim_idempotent. cbn [negb andb]. apply String.eqb_refl.
Qed.

Lemma normalizeOptionalString_ok (v : option string) :
  holds isTrimmed (normalizeOptionalString v) = true.
Proof. destruct v as [s|]; [apply orUndefined_trim|reflexivity]. Qed.

Lemma normalizeNavigationWait_ok (v : NavigationWait) (c : WaitConfig) :
  normalizeNavigationWait v = Some c ->
  isPositive (configTimeoutMs c) = true /\
  isLoadState (configWaitUntil c) = true /\
  holds isTrimmed (configUrlIncludes c) = true /\
  holds isTrimmed (configUrlMatches c) = true.
Proof.
  destruct v as [| |options]; cbn [normalizeNavigationWait]; [discriminate|..];
    intros [= <-]; cbn [configTimeoutMs configWaitUntil configUrlIncludes configUrlMatches].
  - repeat split.
  - split; [|split; [apply normalizeLoadState_ok|split]].
    + destruct (optionsTimeoutMs options) as [q|]; [|reflexivity].
      destruct (JsNumber.Qltb 0 q) eqn:E; [exact E|reflexivity].
    + destruct (optionsUrlIncludes options); [apply orUndefined_trim|reflexivity].
    + destruct (optionsUrlMatches options); [apply orUndefined_trim|reflexivity].
Qed.



End WorkerFacts.


Section ExecuteFacts.
Import Worker WorkerSpec.
Variable page : Page.

Lemma callsFit_nil (s : string) : callsFit s [].
Proof. split; [reflexivity|intros c t []]. Qed.

Lemma callsFit_cons (s : string) (c : PageCall) (calls : list PageCall) :
  wellFormed c = true ->
  (forall t, selectorOf c = Some t -> t = s) ->
  callsFit s calls -> callsFit s (c :: calls).
Proof.
  intros Hc Hs [Hw Hsel]. split.
  - cbn [forallb]. now rewrite Hc, Hw.
  - intros c' t [<-|H]; [apply Hs|now apply Hsel].
Qed.

Lemma requireSelector_cases (v : option string) :
  (requireSelector v = Throw "selector is required." /\
   JsString.isEmpty (JsString.trim (textOr v)) = true) \/
  (requireSelector v = Ok (JsString.trim (textOr v)) /\
   isTrimmed (JsString.trim (textOr v)) = true).
Proof.
  unfold requireSelector, isTrimmed.
  destruct (JsString.isEmpty (JsString.trim (textOr v))) eqn:E; [now left|right].
  split; [reflexivity|]. rewrite trim_idempotent. apply String.eqb_refl.
Qed.

Lemma truthy_trimmed (field : option string) (s : string) :
  holds isTrimmed field = true -> truthy field = Some s ->
  isTrimmed s = true.
Proof.
  destruct field as [x|]; [|discriminate]. cbn [holds truthy].
  unfold JsString.orUndefined. destruct (JsString.isEmpty x); [discriminate|].
  now intros H [= <-].
Qed.

(** The calls of an action run under an optional navigation wait: those
    of the trigger, possibly after one wait that names no element. *)
Lemma runWithOptionalNavigation_calls
  (s : string) (nav : NavigationWait) (trigger : Run unit) :
  callsFit s (fst trigger) ->
  callsFit s (fst (runWithOptionalNavigation page nav trigger)) /\
  (fst (runWithOptionalNavigation page nav trigger) = []
   \/ fst (runWithOptionalNavigation page nav trigger) = fst trigger
   \/ exists w, selectorOf w = None /\
                fst (runWithOptionalNavigation page nav trigger) = w :: fst trigger).
Proof.
  intros Hfit. unfold runWithOptionalNavigation.
  destruct (normalizeNavigationWait nav) as [c|] eqn:E; [|split; [exact Hfit|right; now left]].
  destruct (normalizeNavigationWait_ok nav c E) as (Ht & _ & Hi & Hm).
  destruct (normalizeLoadState_ok (Some (configWaitUntil c))) as [Hl _].
  assert (Hboth : forall w,
             wellFormed w = true -> selectorOf w = None ->
             callsFit s (fst (awaitBoth page w trigger)) /\
             (fst (awaitBoth page w trigger) = []
              \/ fst (awaitBoth page w trigger) = fst trigger
              \/ exists w', selectorOf w' = None /\
                            fst (awaitBoth page w trigger) = w' :: fst trigger)).
  { intros w Hw Hs. unfold awaitBoth. destruct trigger as [calls r]. cbn [fst] in *.
    split.
    - apply callsFit_cons; [exact Hw| |exact Hfit]. intros t Ht'. congruence.
    - right. right. now exists w. }
  destruct (truthy (configUrlIncludes c)) as [includes|] eqn:Ei.
  { apply Hboth; [|reflexivity]. unfold wellFormed.
    cbn [selectorOf timeoutOf loadStateOf holds]. rewrite Ht, Hl.
    now rewrite (truthy_trimmed _ _ Hi Ei). }
  destruct (truthy (configUrlMatches c)) as [pattern|] eqn:Em.
  { unfold newRegExp. destruct (regExpError page pattern).
    - cbn [raise fst]. split; [apply callsFit_nil|now left].
    - apply Hboth; [|reflexivity]. unfold wellFormed.
      cbn [selectorOf timeoutOf loadStateOf holds]. rewrite Ht, Hl.
      now rewrite (truthy_trimmed _ _ Hm Em). }
  apply Hboth; [|reflexivity]. unfold wellFormed.
  cbn [selectorOf timeoutOf loadStateOf holds]. now rewrite Ht, Hl.
Qed.

Lemma runExecute_calls (action : Action) :
  callsFit (JsString.trim (textOr (selector action)))
    (fst (runExecute page (Some action))).
Proof.
  unfold runExecute.
  destruct (isType action "click").
  { apply runWithOptionalNavigation_calls.
    destruct (requireSelector_cases (selector action)) as [[-> _]|[-> Hs]];
      cbn [lift andThen await fst]; [apply callsFit_nil|].
    apply callsFit_cons; [|now intros t [= <-]|apply callsFit_nil].
    unfold wellFormed. cbn [selectorOf timeoutOf loadStateOf holds]. now rewrite Hs. }
  destruct (isType action "type").
  { destruct (requireSelector_cases (selector action)) as [[-> _]|[-> Hs]];
      cbn [lift andThen await fst]; [apply callsFit_nil|].
    destruct (rejects page (Fill _ _)); cbn [app fst].
    - apply callsFit_cons; [|now intros t [= <-]|apply callsFit_nil].
      unfold wellFormed. cbn [selectorOf timeoutOf loadStateOf holds]. now rewrite Hs.
    - apply callsFit_cons; [|now intros t [= <-]|].
      + unfold wellFormed. cbn [selectorOf timeoutOf loadStateOf holds]. now rewrite Hs.
      + apply callsFit_cons; [|now intros t [= <-]|apply callsFit_nil].
        unfold wellFormed. cbn [selectorOf timeoutOf loadStateOf holds]. now rewrite Hs. }
  destruct (isType action "select").
  { destruct (requireSelector_cases (selector action)) as [[-> _]|[-> Hs]];
      cbn [lift andThen await fst]; [apply callsFit_nil|].
    apply callsFit_cons; [|now intros t [= <-]|apply callsFit_nil].
    unfold wellFormed. cbn [selectorOf timeoutOf loadStateOf holds]. now rewrite Hs. }
  destruct (isType action "submit").
  { destruct (requireSelector_cases (selector action)) as [[-> _]|[-> Hs]];
      cbn [lift andThen fst]; [apply callsFit_nil|].
    match goal with
    | |- callsFit _ (fst (let (calls', r') := ?run in _)) =>
        pose proof (proj1 (runWithOptionalNavigation_calls
                             (JsString.trim (textOr (selector action)))
                             (waitForNavigation action)
                             (await page (EvalSubmit
                                            (JsString.trim (textOr (selector action)))))
                             ltac:(apply callsFit_cons;
                                   [unfold wellFormed;
                                    cbn [selectorOf timeoutOf loadStateOf holds];
                                    now rewrite Hs
                                   |now intros t [= <-]|apply callsFit_nil]))) as H;
        destruct run as [calls r]
    end.
    exact H. }
  destruct (isType action "waitForLoadState").
  { cbn [await fst]. apply callsFit_cons; [|discriminate|apply callsFit_nil].
    unfold wellFormed. cbn [selectorOf timeoutOf loadStateOf holds].
    rewrite (proj1 (normalizeTimeoutMs_ok _)), (proj1 (normalizeLoadState_ok _)).
    reflexivity. }
  destruct (isType action "waitForSelector").
  { destruct (requireSelector_cases (selector action)) as [[-> _]|[-> Hs]];
      cbn [lift andThen await fst]; [apply callsFit_nil|].
    apply callsFit_cons; [|now intros t [= <-]|apply callsFit_nil].
    unfold wellFormed. cbn [selectorOf timeoutOf loadStateOf holds].
    rewrite Hs, (proj1 (normalizeTimeoutMs_ok _)),
      (proj1 (normalizeSelectorWaitState_ok _)). reflexivity. }
  destruct (isType action "waitForUrl").
  { pose proof (normalizeOptionalString_ok (urlIncludes action)) as Hi.
    pose proof (normalizeOptionalString_ok (urlMatches action)) as Hm.
    destruct (normalizeOptionalString (urlIncludes action)) as [includes|].
    - cbn [await fst]. apply callsFit_cons; [|discriminate|apply callsFit_nil].
      unfold wellFormed. cbn [selectorOf timeoutOf loadStateOf holds] in *.
      now rewrite Hi, (proj1 (normalizeTimeoutMs_ok _)).
    - destruct (normalizeOptionalString (urlMatches action)) as [pattern|];
        [|apply callsFit_nil].
      unfold newRegExp. destruct (regExpError page pattern);
        cbn [lift andThen await fst app]; [apply callsFit_nil|].
      apply callsFit_cons; [|discriminate|apply callsFit_nil].
      unfold wellFormed. cbn [selectorOf timeoutOf loadStateOf holds] in *.
      now rewrite Hm, (proj1 (normalizeTimeoutMs_ok _)). }
  destruct (isType action "scroll").
  { cbn [await fst]. apply callsFit_cons; [reflexivity|discriminate|apply callsFit_nil]. }
  destruct (isType action "navigate").
  { cbn [await fst]. apply callsFit_cons; [|discriminate|apply callsFit_nil].
    unfold wellFormed. cbn [selectorOf timeoutOf loadStateOf holds].
    rewrite normalizeTimeoutMsOrUndefined_ok, (proj1 (normalizeLoadState_ok _)).
    reflexivity. }
  apply callsFit_nil.
Qed.

End ExecuteFacts.

(** X15. Whatever action it is given and however the page answers, the
    worker only makes well-formed calls on the page: a selector is never
    empty and carries no white space around it, and is the action's own
    selector trimmed; a timeout is positive or, for a navigation, absent; a
    load state is one of the three Playwright knows and a selector state one
    of the four; a url test is not empty; the wheel only moves vertically.
    The same holds of the optional wait for a load state that precedes a
    scan or a screenshot, which is skipped when neither a state nor a
    timeout is given. *)
Theorem execute_makes_only_well_formed_calls (page : Worker.Page) :
  (forall action,
     let calls := fst (Worker.runExecute page (Some action)) in
     forallb WorkerSpec.wellFormed calls = true /\
     forall c s,
       In c calls -> WorkerSpec.selectorOf c = Some s ->
       s = JsString.trim (Worker.textOr (Worker.selector action))) /\
  (forall payloadAction,
     forallb WorkerSpec.wellFormed (fst (Worker.executeOp page payloadAction)) = true) /\
  Worker.runExecute page None = ([], Throw "Missing execute action.") /\
  (forall waitUntil timeoutMs,
     let calls := fst (Worker.waitForOptionalLoadState page waitUntil timeoutMs) in
     forallb WorkerSpec.wellFormed calls = true /\
     (calls = [] <-> waitUntil = None /\ timeoutMs = None)).
Proof.
  split; [intros action; exact (runExecute_calls page action)|].
  split; [intros payloadAction; apply runExecute_calls|].
  split; [reflexivity|].
  intros waitUntil timeoutMs. cbv zeta. unfold Worker.waitForOptionalLoadState.
  assert (Hw : forall u t,
             WorkerSpec.wellFormed
               (Worker.WaitForLoadState (Worker.normalizeLoadState u)
                  (Worker.normalizeTimeoutMs t)) = true).
  { intros u t. unfold WorkerSpec.wellFormed.
    cbn [WorkerSpec.selectorOf WorkerSpec.timeoutOf WorkerSpec.loadStateOf
           WorkerSpec.holds].
    now rewrite (proj1 (normalizeTimeoutMs_ok t)), (proj1 (normalizeLoadState_ok u)). }
  destruct waitUntil as [u|], timeoutMs as [t|]; cbn [Worker.await Worker.ret fst forallb];
    rewrite ?Hw; (split; [reflexivity|]); split; try discriminate;
    try (intros [H1 H2]; discriminate); auto.
Qed.

Lemma wellFormed_selector (c : Worker.PageCall) (s : string) :
  WorkerSpec.wellFormed c = true -> WorkerSpec.selectorOf c = Some s ->
  JsString.isEmpty s = false.
Proof.
  unfold WorkerSpec.wellFormed. intros H Hs. rewrite Hs in H.
  cbn [WorkerSpec.holds] in H. unfold WorkerSpec.isTrimmed in H.
  destruct (JsString.isEmpty s); [discriminate H|reflexivity].
Qed.

(** X16. An action that names an element (click, type, select, submit,
    waitForSelector) with a missing or blank selector fails and touches no
    element: no call that takes a selector is made, and unless it is a
    click asked to wait for a navigation, no call is made at all and the
    error is "selector is required.". *)
Theorem blank_selector_touches_no_element
  (page : Worker.Page) (action : Worker.Action) :
  WorkerSpec.namesElement action = true ->
  JsString.isEmpty (JsString.trim (Worker.textOr (Worker.selector action))) = true ->
  let run := Worker.runExecute page (Some action) in
  (forall c, In c (fst run) -> WorkerSpec.selectorOf c = None) /\
  (exists m, snd run = Throw m) /\
  (Worker.isType action "click" = false
   \/ Worker.normalizeNavigationWait (Worker.waitForNavigation action) = None ->
   run = ([], Throw "selector is required.")).
Proof.
  intros Hnames Hblank. cbv zeta. split.
  { intros c Hc. destruct (runExecute_calls page action) as [Hw Hs].
    destruct (WorkerSpec.selectorOf c) as [s|] eqn:E; [|reflexivity].
    rewrite forallb_forall in Hw.
    pose proof (wellFormed_selector c s (Hw c Hc) E) as Hne.
    rewrite (Hs c s Hc E) in Hne. congruence. }
  assert (Hreq : Worker.requireSelector (Worker.selector action)
                 = Throw "selector is required.").
  { unfold Worker.requireSelector. now rewrite Hblank. }
  unfold WorkerSpec.namesElement in Hnames. unfold Worker.runExecute.
  destruct (Worker.isType action "click") eqn:Eclick.
  { rewrite Hreq. cbn [Worker.lift Worker.andThen].
    unfold Worker.runWithOptionalNavigation.
    destruct (Worker.normalizeNavigationWait _) as [c|].
    - split; [|intros [H|H]; discriminate H].
      unfold Worker.awaitBoth, Worker.newRegExp, Worker.raise.
      destruct (Worker.truthy (Worker.configUrlIncludes c));
        [|destruct (Worker.truthy (Worker.configUrlMatches c));
          [destruct (Worker.regExpError page _)|]];
        cbn [snd];
        try (destruct (Worker.rejects page _); [destruct (Worker.waitFailsFirst page _)|]);
        eexists; reflexivity.
    - split; [eexists; reflexivity|reflexivity]. }
  cbn [orb] in Hnames.
  destruct (Worker.isType action "type").
  { rewrite Hreq. split; [eexists; reflexivity|reflexivity]. }
  destruct (Worker.isType action "select").
  { rewrite Hreq. split; [eexists; reflexivity|reflexivity]. }
  destruct (Worker.isType action "submit").
  { rewrite Hreq. split; [eexists; reflexivity|reflexivity]. }
  destruct (Worker.isType action "waitForLoadState") eqn:E1.
  { exfalso. unfold Worker.isType in *. destruct (Worker.type action) as [t|];
      [|discriminate]. apply String.eqb_eq in E1. subst t. discriminate Hnames. }
  destruct (Worker.isType action "waitForSelector"); [|discriminate Hnames].
  rewrite Hreq. split; [eexists; reflexivity|reflexivity].
Qed.

Lemma blank_selector_touches_no_element_witness :
  let action := Worker.mkAction (Some "click") (Some "   ") None None Worker.WaitDefault
                  None None None None None None None None in
  let run := Worker.runExecute WorkerSpec.calmPage (Some action) in
  (forall c, In c (fst run) -> WorkerSpec.selectorOf c = None) /\
  (exists m, snd run = Throw m) /\
  (Worker.isType action "click" = false
   \/ Worker.normalizeNavigationWait (Worker.waitForNavigation action) = None ->
   run = ([], Throw "selector is required.")).
Proof.
  exact (blank_selector_touches_no_element WorkerSpec.calmPage
           (Worker.mkAction (Some "click") (Some "   ") None None Worker.WaitDefault
              None None None None None None None None) eq_refl eq_refl).
Defined.

Lemma findIndex_spec (p : string -> bool) (urls : list string) :
  match Worker.findIndex p urls with
  | Some i =>
      exists u, nth_error urls i = Some u /\ p u = true /\
                forall j v, (j < i)%nat -> nth_error urls j = Some v -> p v = false
  | None => forall v, In v urls -> p v = false
  end.
Proof.
  induction urls as [|u urls IH]; cbn [Worker.findIndex]; [intros v []|].
  destruct (p u) eqn:E.
  - exists u. repeat split; [exact E|]. intros j v Hj. lia.
  - destruct (Worker.findIndex p urls) as [i|]; cbn [option_map].
    + destruct IH as (x & Hx & Hp & Hbefore). exists x. repeat split; try assumption.
      intros [|j] v Hj; cbn [nth_error]; [now intros [= <-]|].
      apply Hbefore. lia.
    + intros v [<-|Hv]; [exact E|now apply IH].
Qed.

(** X17. The worker acts on the first open page that shows something (a
    url other than "about:blank" and "chrome://newtab/"); when every open
    page is blank it takes the first one; it opens a new page only when it
    is told to or when no page is open. *)
Theorem page_choice_prefers_shown_content (urls : list string) (forceNew : bool) :
  match Worker.getOrCreatePage urls forceNew with
  | Worker.NewPage => forceNew = true \/ urls = []
  | Worker.Existing i =>
      forceNew = false /\
      exists u,
        nth_error urls i = Some u /\
        (forall j v, (j < i)%nat -> nth_error urls j = Some v ->
                     Worker.showsContent v = false) /\
        (Worker.showsContent u = false ->
         i = O /\ forall v, In v urls -> Worker.showsContent v = false)
  end.
Proof.
  unfold Worker.getOrCreatePage. destruct forceNew; [now left|].
  pose proof (findIndex_spec Worker.showsContent urls) as H.
  destruct (Worker.findIndex Worker.showsContent urls) as [i|].
  - destruct H as (u & Hu & Hp & Hbefore). split; [reflexivity|].
    exists u. repeat split; try assumption; congruence.
  - destruct urls as [|u urls]; [now right|].
    split; [reflexivity|]. exists u. repeat split; try assumption.
    intros j v Hj. lia.
Qed.

(** ** The configuration and the launch of the browser *)

Lemma takeWhile_all_id (p : ascii -> bool) (s : string) :
  JsString.all p s = true -> JsString.takeWhile p s = s.
Proof.
  induction s as [|c s IH]; cbn [JsString.all JsString.takeWhile]; [reflexivity|].
  rewrite andb_true_iff. intros [Hc Hs]. now rewrite Hc, (IH Hs).
Qed.

Lemma numberParseInt_ofNumber (p : Z) :
  1 <= p -> Auth.numberParseInt (JsString.ofNumber p) = Some p.
Proof.
  intros Hp. destruct (ofNumber_positive p Hp) as (d & ds & -> & Hd & Hds & Hv).
  pose proof (positiveDigit_isDigit d Hd) as Hd'.
  destruct (upper_or_digit_plain d ltac:(rewrite Hd'; apply orb_true_r)) as [Hws _].
  apply between_spec in Hd.
  unfold Auth.numberParseInt, JsString.trimStart.
  cbn [JsString.dropWhile]. rewrite Hws.
  replace (JsString.charCode d =? 45) with false by (symmetry; apply Z.eqb_neq; lia).
  replace (JsString.charCode d =? 43) with false by (symmetry; apply Z.eqb_neq; lia).
  cbn [fst snd]. rewrite takeWhile_all_id
    by (cbn [JsString.all]; now rewrite Hd', Hds).
  cbn [JsString.isEmpty]. unfold JsString.parseInt in Hv. rewrite Hv.
  f_equal. lia.
Qed.

(** X18. The debugging port read from the environment is always a valid
    TCP port: whatever the text (missing, empty, not a number, zero,
    negative, above 65535), the result lies in 1..65535 as soon as the
    default does; and a port written in decimal is read back as itself. *)
Theorem port_is_always_valid :
  (forall value defaultPort,
     1 <= defaultPort <= 65535 ->
     1 <= Auth.parsePort value defaultPort <= 65535) /\
  (forall p defaultPort,
     1 <= p <= 65535 ->
     Auth.parsePort (Some (JsString.ofNumber p)) defaultPort = p) /\
  (forall host env,
     1 <= Auth.remoteDebuggingPort (Auth.getAuthConfig host env) <= 65535).
Proof.
  assert (Hrange : forall value defaultPort,
             1 <= defaultPort <= 65535 ->
             1 <= Auth.parsePort value defaultPort <= 65535).
  { intros value defaultPort Hd. unfold Auth.parsePort.
    destruct value as [v|]; [|exact Hd].
    destruct (JsString.isEmpty v); [exact Hd|].
    destruct (Auth.numberParseInt v) as [parsed|]; [|exact Hd].
    destruct (parsed <=? 0) eqn:E1; [exact Hd|].
    destruct (parsed >? 65535) eqn:E2; [exact Hd|].
    apply Z.leb_gt in E1. rewrite Z.gtb_ltb in E2. apply Z.ltb_ge in E2.
    cbn [orb]. lia. }
  split; [exact Hrange|]. split.
  - intros p defaultPort Hp. unfold Auth.parsePort.
    rewrite (numberParseInt_ofNumber p ltac:(lia)).
    destruct (ofNumber_positive p ltac:(lia)) as (d & ds & -> & _).
    cbn [JsString.isEmpty].
    replace (p <=? 0) with false by (symmetry; apply Z.leb_gt; lia).
    replace (p >? 65535) with false
      by (symmetry; rewrite Z.gtb_ltb; apply Z.ltb_ge; lia).
    reflexivity.
  - intros host env. cbn [Auth.getAuthConfig Auth.remoteDebuggingPort].
    apply Hrange. lia.
Qed.


Section LaunchFacts.
Import Daemon DaemonSpec.
Variable m : Machine.
Variable start : Z.



End LaunchFacts.



(** The sample launch: Chrome is spawned and answers the sixth request. *)
Example launch_sample :
  match Daemon.launchDaemon 49 DaemonSpec.slowStart
          (Auth.getAuthConfig (Auth.mkHost "linux" false "/home/u/.profiles/kazibee")
             (Auth.mkEnv None None (Some " /tmp/profile ") (Some "YES") (Some "9333")
                None None)) with
  | Some (Ok r, p) =>
      Daemon.requests p = 6%nat /\ Daemon.launched r = true /\
      Daemon.pid r = Some 4242 /\
      Daemon.resultCdpUrl r = "http://127.0.0.1:9333" /\
      Daemon.args r
      = ["--remote-debugging-port=9333"; "--remote-debugging-address=127.0.0.1";
         "--remote-allow-origins=*"; "--no-first-run"; "--no-default-browser-check";
         "--user-data-dir=/tmp/profile"; "--headless=new"; "--disable-gpu";
         "about:blank"]
  | _ => False
  end.
Proof. vm_compute. repeat split. Qed.

(** ** Finding one element *)

(** X21. The search for one element escalates at most once: a blank query
    is refused before anything is asked of the model; otherwise the
    key-areas pass is made first, and the exhaustive pass is made exactly
    when the first pass returned elements none of which matches; an element
    that is returned is the best match of the last pass made, with a
    positive score that no element of that pass exceeds. *)
Theorem element_search_escalates_once (labels : Finder.LabelsPass) (query : string) :
  let run := Finder.findInteractiveElement labels query in
  let q := JsString.trim query in
  (JsString.isEmpty q = true ->
   run = (Labeling.Throws
            (Labeling.newError "findInteractiveElement() requires a non-empty query."),
          [])) /\
  (JsString.isEmpty q = false ->
   (snd run = [Labeling.High] \/ snd run = [Labeling.High; Labeling.Extreme]) /\
   (snd run = [Labeling.High; Labeling.Extreme] <->
    exists high, labels Labeling.High = Labeling.Returns high /\
                 Matcher.findBestInteractiveElement high q = None) /\
   (forall e, fst run = Labeling.Returns e ->
      exists elements s,
        labels (last (snd run) Labeling.High) = Labeling.Returns elements /\
        Matcher.findBestInteractiveElement elements q = Some e /\
        In e elements /\
        Matcher.scoreFor q e = Some s /\ 0 < s /\
        forall x s', In x elements -> Matcher.scoreFor q x = Some s' -> s' <= s)).
Proof.
  cbv zeta. unfold Finder.findInteractiveElement.
  destruct (JsString.isEmpty (JsString.trim query)) eqn:Eq;
    (split; [intros H; try discriminate H; reflexivity|]); intros H; try discriminate H.
  clear H.
  assert (Hbest : forall elements e,
             Matcher.findBestInteractiveElement elements (JsString.trim query) = Some e ->
             In e elements /\
             exists s, Matcher.scoreFor (JsString.trim query) e = Some s /\ 0 < s /\
                       forall x s', In x elements ->
                                    Matcher.scoreFor (JsString.trim query) x = Some s' ->
                                    s' <= s).
  { intros elements e He.
    destruct (findBest_first_highest elements _ e He)
      as (l1 & l2 & s & -> & Hs & Hpos & _).
    split; [apply in_elt|]. exists s. split; [exact Hs|]. split; [exact Hpos|].
    intros x s' Hx Hs'.
    destruct (findBest_dominates _ _ e x s' He Hx Hs') as (s0 & Hs0 & Hle).
    rewrite Hs in Hs0. injection Hs0 as <-. exact Hle. }
  destruct (labels Labeling.High) as [high|error] eqn:Eh; cbn [fst snd].
  2:{ split; [now left|]. split; [|discriminate].
      split; [discriminate|]. intros (high & Hh & _). discriminate Hh. }
  destruct (Matcher.findBestInteractiveElement high (JsString.trim query))
    as [highMatch|] eqn:Em; cbn [fst snd].
  { split; [now left|]. split.
    - split; [discriminate|]. intros (high' & Hh & Hn).
      injection Hh as <-. congruence.
    - intros e [= <-]. cbn [last]. destruct (Hbest high highMatch Em) as (Hin & s & Hs).
      exists high, s. rewrite Eh. repeat split; try assumption; apply Hs. }
  assert (Hesc : exists high0, Labeling.Returns high = Labeling.Returns high0 /\
                   Matcher.findBestInteractiveElement high0 (JsString.trim query) = None)
    by (exists high; now split).
  destruct (labels Labeling.Extreme) as [extreme|error] eqn:Ee; cbn [fst snd].
  2:{ split; [now right|]. split; [now split|discriminate]. }
  destruct (Matcher.findBestInteractiveElement extreme (JsString.trim query))
    as [extremeMatch|] eqn:Em2; cbn [fst snd].
  - split; [now right|]. split; [now split|].
    intros e [= <-]. cbn [last].
    destruct (Hbest extreme extremeMatch Em2) as (Hin & s & Hs).
    exists extreme, s. rewrite Ee. repeat split; try assumption; apply Hs.
  - split; [now right|]. split; [now split|discriminate].
Qed.

(** ** Reading the model's answer *)

Section NormalizeFacts.
Import Normalize NormalizeSpec.
Variable rt : Runtime.






Lemma toNonEmptyString_nonempty (value : option Json.Value) (fallback : Text) :
  fallback <> [] -> toNonEmptyString rt value fallback <> [].
Proof.
  intros Hf. unfold toNonEmptyString.
  destruct (trim (textOrEmpty rt value)) as [|u t] eqn:E; cbn [isBlank];
    [exact Hf|discriminate].
Qed.




Lemma toConfidence_range (value : option Json.Value) :
  (0 <= toConfidence rt value <= 1)%Q.
Proof.
  unfold toConfidence, JsNumber.Qltb.
  destruct (toNumber rt value) as [| |q]; try (split; discriminate).
  destruct (Qle_bool 0 q) eqn:E0; cbn [negb]; [|split; discriminate].
  destruct (Qle_bool q 1) eqn:E1; cbn [negb]; [|split; discriminate].
  split; now apply Qle_bool_iff.
Qed.





End NormalizeFacts.


(** A sample answer, parsed and normalised. *)
Example labels_sample :
  match Json.parse NormalizeSpec.sampleAnswer with
  | Some (Json.Object members) =>
      let r := Normalize.normalizeLabelsResult NormalizeSpec.sampleRuntime members
                 "gemini-2.5-pro" in
      List.map Normalize.id (Normalize.interactiveElements r)
      = [Normalize.unitsOf "save"; Normalize.unitsOf "element_2";
         Normalize.unitsOf "element_3"] /\
      List.map Normalize.elementType (Normalize.interactiveElements r)
      = [Normalize.unitsOf "unknown"; Normalize.unitsOf "unknown";
         Normalize.unitsOf "unknown"] /\
      List.map Normalize.likelyActions (Normalize.interactiveElements r)
      = [[]; [Normalize.unitsOf "click"]; []] /\
      List.map Normalize.confidence (Normalize.interactiveElements r)
      = [9 # 10; 1; 0]%Q /\
      Normalize.resultConfidence r = 0%Q /\
      Normalize.pageType r = Normalize.unitsOf "unknown"
  | _ => False
  end.
Proof. vm_compute. repeat split. Qed.

Lemma In_firstn {A : Type} (n : nat) (l : list A) (x : A) :
  In x (firstn n l) -> In x l.
Proof.
  intros H. rewrite <- (firstn_skipn n l). apply in_or_app. now left.
Qed.

Lemma usable_regions (F : Json.Value -> Normalize.UiOverviewRegion)
  (items : list Json.Value) :
  (forall item, Normalize.isBlank (Normalize.description (F item)) = false) ->
  List.map Normalize.gridRange
    (filter (fun region => negb (Normalize.isBlank (Normalize.gridRange region))
                           && negb (Normalize.isBlank (Normalize.description region)))
       (List.map F items))
  = filter (fun range => negb (Normalize.isBlank range))
      (List.map (fun item => Normalize.gridRange (F item)) items).
Proof.
  intros HF. induction items as [|item items IH]; [reflexivity|].
  cbn [List.map filter]. rewrite (HF item). cbn [negb]. rewrite andb_true_r.
  destruct (negb _); cbn [List.map]; now rewrite IH.
Qed.

(** X23. The normalised overview never has more than 8 regions, each with
    a grid range and a description that are not empty; its page type is
    never empty and its confidence lies between 0 and 1.  The regions are
    read from the answer's [regions] whenever that is a non-empty array,
    even if none of its entries is usable; only otherwise are they read
    from [layoutRegions], and then every layout region that has a grid
    range is kept, in order, up to the eighth. *)
Theorem overview_result_is_bounded
  (rt : Normalize.Runtime) (value : list (Normalize.Text * Json.Value)) (model : string) :
  let r := Normalize.normalizeOverviewResult rt value model in
  let direct := Normalize.toArray (Normalize.field "regions" value) in
  (List.length (Normalize.regions r) <= 8)%nat /\
  Forall (fun region =>
            Normalize.gridRange region <> [] /\ Normalize.description region <> [])
    (Normalize.regions r) /\
  Normalize.overviewType r <> [] /\
  (0 <= Normalize.overviewConfidence r <= 1)%Q /\
  Normalize.overviewModel r = model /\
  (direct <> [] ->
   Normalize.regions r
   = firstn 8
       (filter (fun region => negb (Normalize.isBlank (Normalize.gridRange region))
                              && negb (Normalize.isBlank (Normalize.description region)))
          (List.map (NormalizeSpec.directRegion rt) direct))) /\
  (direct = [] ->
   List.map Normalize.gridRange (Normalize.regions r)
   = firstn 8
       (filter (fun range => negb (Normalize.isBlank range))
          (List.map
             (fun item =>
                Normalize.toNonEmptyString rt
                  (Normalize.field "gridRange" (Normalize.toRecord item)) [])
             (Normalize.toArray (Normalize.field "layoutRegions" value))))).
Proof.
  cbv zeta. unfold Normalize.normalizeOverviewResult.
  cbn [Normalize.regions Normalize.overviewType Normalize.overviewConfidence
         Normalize.overviewModel].
  split; [apply firstn_le_length|]. split.
  { apply Forall_forall. intros region H. apply In_firstn in H.
    apply filter_In in H as [_ H]. apply andb_true_iff in H as [H1 H2].
    split; intros E; rewrite E in *; discriminate. }
  split; [apply toNonEmptyString_nonempty; discriminate|].
  split; [apply toConfidence_range|]. split; [reflexivity|]. split.
  - intros Hd. destruct (Normalize.toArray (Normalize.field "regions" value))
      as [|item items]; [contradiction|]. reflexivity.
  - intros ->. cbn [List.map]. rewrite <- firstn_map. f_equal.
    match goal with
    | |- List.map _ (filter _ (List.map ?F ?items)) = _ =>
        rewrite (usable_regions F items)
    end; [reflexivity|].
    intros item. cbn [Normalize.description].
    match goal with
    | |- context [if Normalize.isBlank ?d then Normalize.unitsOf "Region" else _] =>
        destruct d as [|u t]
    end; reflexivity.
Qed.

(** ** The overview analysis *)


(** ** The commands *)

(** X25. Empty arguments of a command are dropped before the others are
    counted, so the screenshot command crops exactly when at least three
    arguments are not empty, taking the second and third of them as the
    range; with one or two it takes the whole screenshot, a lone start cell
    being ignored; with none it fails with the usage text.  The open
    command takes the first non-empty argument as the url and asks for a
    new window exactly when "--new-window" is among the later ones. *)
Theorem commands_count_non_empty_arguments
  (first : Command.FirstArgument) (rest : list string) :
  let given := Command.normalizeArgs first rest in
  (forall arg, In arg given -> arg <> "") /\
  match given with
  | [] =>
      Command.screenshot first rest
      = Throw "Usage: kazibee chrome-browser screenshot <outputPath> [startCell endCell]" /\
      Command.open first rest
      = Throw "Usage: kazibee chrome-browser open <url> [--new-window]"
  | outputPath :: more =>
      Command.screenshot first rest
      = Ok (Command.SaveGridScreenshot outputPath
              match more with
              | start :: end_ :: _ => Some (start, end_)
              | _ => None
              end) /\
      exists newWindow,
        Command.open first rest = Ok (Command.Open outputPath newWindow) /\
        (newWindow = true <-> In "--new-window" more)
  end.
Proof.
  cbv zeta.
  assert (Hne : forall arg, In arg (Command.normalizeArgs first rest) ->
                            JsString.isEmpty arg = false).
  { intros arg H. unfold Command.normalizeArgs in H. apply filter_In in H as [_ H].
    now apply negb_true_iff. }
  split; [intros arg H ->; now apply Hne in H|].
  unfold Command.screenshot, Command.open.
  destruct (Command.normalizeArgs first rest) as [|a more]; [split; reflexivity|].
  cbn [nth_error Command.present Compositor.text].
  rewrite (Hne a (or_introl eq_refl)). cbn [negb]. split.
  - destruct more as [|s [|e more]]; cbn [nth_error Command.present andb];
      try reflexivity.
    + rewrite (Hne s (or_intror (or_introl eq_refl))). reflexivity.
    + rewrite (Hne s (or_intror (or_introl eq_refl))),
        (Hne e (or_intror (or_intror (or_introl eq_refl)))). reflexivity.
  - eexists. split; [reflexivity|]. rewrite existsb_exists. split.
    + intros (x & Hx & E). apply String.eqb_eq in E. now subst.
    + intros H. exists "--new-window". split; [exact H|apply String.eqb_refl].
Qed.

(** A screenshot asked with an empty first cell: the cells move up and the
    range is lost. *)
Example screenshot_sample :
  Command.screenshot (Command.OneArgument "out.png") [""; "B2"]
  = Ok (Command.SaveGridScreenshot "out.png" None) /\
  Command.screenshot (Command.ManyArguments ["out.png"; "B2"; ""; "D4"]) []
  = Ok (Command.SaveGridScreenshot "out.png" (Some ("B2", "D4"))) /\
  Command.open Command.NoArgument [""; "example.org"; "--new-window"]
  = Ok (Command.Open "example.org" true).
Proof. repeat split. Qed.

(** ** The matcher: letter case and queries without letters *)

Section Cases.
Import Matcher MatcherCases.









(** With no token to count and the phrase not found, the score is the
    importance bonus. *)
Lemma symbols_score (phrase : string) (e : UiInteractiveElement) :
  phraseInCore phrase e = false -> phraseInAux phrase e = false ->
  scoreElement phrase [] e
  = Some ((if isCritical e then 2 else 0) + (if isHigh e then 1 else 0)).
Proof.
  intros Hc Ha. unfold scoreElement, tally, phraseScore. cbn [fold_left].
  rewrite Hc, Ha. cbn [negb andb coverage score tokenMatchesCore tokenMatchesAux].
  assert (Ht : String.eqb (JsString.toLowerCase (text e)) phrase = false).
  { apply Bool.not_true_is_false. intros E.
    rewrite (text_equal_in_core e phrase E) in Hc.
    discriminate Hc. }
  assert (Hi : String.eqb (JsString.toLowerCase (id e)) phrase = false).
  { apply Bool.not_true_is_false. intros E.
    rewrite (id_equal_in_core e phrase E) in Hc.
    discriminate Hc. }
  rewrite Ht, Hi.
  replace (JsNumber.Qltb 1 (1 # 2)) with false by reflexivity.
  unfold importanceBonus, isCritical, isHigh. f_equal.
Qed.

Lemma critical_not_high (e : UiInteractiveElement) :
  isCritical e = true -> isHigh e = false.
Proof.
  unfold isCritical, isHigh. intros H. apply String.eqb_eq in H. now rewrite H.
Qed.

Lemma fold_symbols (phrase : string) (l : list UiInteractiveElement) :
  (forall e, In e l -> phraseInCore phrase e = false /\ phraseInAux phrase e = false) ->
  forall best bestScore,
    0 <= bestScore ->
    fold_left (keepBest phrase []) l (best, bestScore)
    = if bestScore >? 1 then (best, bestScore)
      else match find isCritical l with
           | Some e => (Some e, 2)
           | None =>
               if bestScore >? 0 then (best, bestScore)
               else match find isHigh l with
                    | Some e => (Some e, 1)
                    | None => (best, bestScore)
                    end
           end.
Proof.
  induction l as [|x l IH]; intros Hno best bestScore Hs; cbn [fold_left find].
  - destruct (bestScore >? 1), (bestScore >? 0); reflexivity.
  - assert (Hl : forall e, In e l ->
                   phraseInCore phrase e = false /\ phraseInAux phrase e = false)
      by (intros e He; apply Hno; now right).
    destruct (Hno x (or_introl eq_refl)) as [Hc Ha].
    unfold keepBest at 2. rewrite (symbols_score phrase x Hc Ha). cbn [snd].
    destruct (isCritical x) eqn:Ec.
    + rewrite (critical_not_high x Ec). cbn [Z.add].
      change (2 + 0) with 2.
      destruct (Z.gtb_spec 2 bestScore) as [G|G].
      * rewrite (IH Hl (Some x) 2) by lia.
        replace (bestScore >? 1) with false
          by (symmetry; destruct (Z.gtb_spec bestScore 1); [lia|reflexivity]).
        reflexivity.
      * rewrite (IH Hl best bestScore Hs).
        replace (bestScore >? 1) with true
          by (symmetry; destruct (Z.gtb_spec bestScore 1); [reflexivity|lia]).
        reflexivity.
    + destruct (isHigh x) eqn:Eh.
      * change (0 + 1) with 1.
        destruct (Z.gtb_spec 1 bestScore) as [G|G].
        -- assert (bestScore = 0) by lia. subst bestScore.
           rewrite (IH Hl (Some x) 1) by lia. cbn [Z.gtb Z.compare].
           destruct (find isCritical l); reflexivity.
        -- rewrite (IH Hl best bestScore Hs).
           destruct (Z.gtb_spec bestScore 1) as [G1|G1]; [reflexivity|].
           replace (bestScore >? 0) with true
             by (symmetry; destruct (Z.gtb_spec bestScore 0); [reflexivity|lia]).
           reflexivity.
      * change (0 + 0) with 0.
        replace (0 >? bestScore) with false
          by (symmetry; destruct (Z.gtb_spec 0 bestScore); [lia|reflexivity]).
        apply (IH Hl best bestScore Hs).
Qed.

End Cases.


(** X27. A query without a letter or a digit that no element contains is
    not a miss: the search returns the first element of importance
    "critical", or else the first of importance "high", and nothing only
    when the list has neither. *)
Theorem symbols_only_query_picks_by_importance
  (elements : list Matcher.UiInteractiveElement) (query : string) :
  MatcherCases.symbolsOnly elements query ->
  Matcher.findBestInteractiveElement elements query
  = match find MatcherCases.isCritical elements with
    | Some e => Some e
    | None => find MatcherCases.isHigh elements
    end.
Proof.
  intros [Ht Hno]. rewrite findBest_unfold. cbv zeta. rewrite Ht.
  rewrite (fold_symbols _ elements Hno None 0) by lia. cbn [Z.gtb Z.compare].
  destruct (find MatcherCases.isCritical elements); [reflexivity|].
  destruct (find MatcherCases.isHigh elements); reflexivity.
Qed.

Lemma symbols_only_query_picks_by_importance_witness :
  Matcher.findBestInteractiveElement
    [MatcherSpec.plain "save" "Save" ["click"] "high";
     MatcherSpec.plain "pay" "Pay now" ["click"] "Critical"] "?!"
  = Some (MatcherSpec.plain "pay" "Pay now" ["click"] "Critical").
Proof.
  rewrite symbols_only_query_picks_by_importance; [reflexivity|].
  split; [reflexivity|].
  intros e [<-|[<-|[]]]; split; reflexivity.
Defined.
